(** * bbg_api: a shallow embedding of [bbg.py] and its verified properties

    [bbg.py] is a thin client of the Bloomberg [blpapi] session API.  Its
    core, the class [SessionFactory], folds the stream of response
    messages of one request into a nested dictionary.

    The embedding follows the layout of the source file:
    - [Py]: the Python values the program manipulates, its insertion-ordered
      dictionaries and the exceptions it can raise (Python 3 semantics, with
      [assert] statements enabled);
    - [Blpapi]: the part of the [blpapi] interface the program calls
      (elements, messages, events), as a tree model;
    - [DataTypeFactory], [SessionFactory]: the decoding engine;
    - [Session], [Request] and the three public request classes, over a
      trace of the calls made to the provider.

    Definitions come first; the theorems follow in the second half. *)

From Stdlib Require Import List String Ascii ZArith Bool Arith Lia Sorted.
From Stdlib Require Import Decimal DecimalString DecimalNat.
Import ListNotations.
Local Open Scope string_scope.
Local Open Scope list_scope.

Set Implicit Arguments.

(* ================================================================== *)
(** ** Python values *)
(* ================================================================== *)

Module Py.

(** Exceptions the program raises or lets through.  A class object of
    one of them can also travel as an ordinary value ([VClass]). *)
Inductive exn : Type :=
| TypeError | KeyError | AttributeError | AssertionError | IndexError
| NotImplementedError
| NotFoundException | UnknownErrorException
| InvalidConversionException | IndexOutOfRangeException
| ConnectionFailed.

(** The outcome of a call that terminates: a value or a raised exception. *)
Inductive result (A : Type) : Type :=
| Ok (a : A)
| Raise (e : exn).
Arguments Ok {A} a.
Arguments Raise {A} e.

Definition bind {A B} (m : result A) (k : A -> result B) : result B :=
  match m with
  | Ok a => k a
  | Raise e => Raise e
  end.

(** [datetime.date], [datetime.datetime] and [datetime.time] objects
    (naive ones: no time zone). *)
Inductive temporal : Type :=
| a_date (year month day : nat)
| a_datetime (year month day hour minute second microsecond : nat)
| a_time (hour minute second microsecond : nat).

(** Hashable scalars.  A float and a bytes object are only ever passed
    through by the program, so each is represented by its [repr] text. *)
Inductive scalar : Type :=
| SNone
| SBool (b : bool)
| SInt (n : Z)
| SFloat (repr : string)
| SStr (s : string)
| SBytes (repr : string)
| STemporal (t : temporal).

(** Values: scalars, dictionaries in insertion order with scalar keys,
    lists, and exception classes used as values. *)
#[warnings="-register-all"]
Inductive value : Type :=
| VScalar (s : scalar)
| VDict (items : list (scalar * value))
| VList (l : list value)
| VClass (c : exn).

Definition dict : Type := list (scalar * value).

Definition VNone : value := VScalar SNone.
Definition VStr (s : string) : value := VScalar (SStr s).
Definition VInt (n : Z) : value := VScalar (SInt n).

Definition temporal_eq_dec (a b : temporal) : {a = b} + {a <> b}.
Proof. repeat decide equality. Defined.

Definition scalar_eq_dec (a b : scalar) : {a = b} + {a <> b}.
Proof.
  decide equality;
    first [ apply temporal_eq_dec | apply string_dec | apply Z.eq_dec
          | apply Bool.bool_dec ].
Defined.

Definition scalar_eqb (a b : scalar) : bool :=
  if scalar_eq_dec a b then true else false.

(** *** Dictionaries

    Keys are compared structurally.  This is Python's [==] on the keys
    the program uses (strings, [None], dates); Python's cross-type
    numeric equalities ([1 == True]) are not modelled. *)

(** [k in d] *)
Fixpoint dict_mem (k : scalar) (d : dict) : bool :=
  match d with
  | [] => false
  | (k', _) :: d' => if scalar_eq_dec k k' then true else dict_mem k d'
  end.

(** [d[k]], [None] standing for [KeyError] *)
Fixpoint dict_get (k : scalar) (d : dict) : option value :=
  match d with
  | [] => None
  | (k', v) :: d' => if scalar_eq_dec k k' then Some v else dict_get k d'
  end.

(** [d[k] = v]: an existing key keeps its position, a new one goes last. *)
Fixpoint dict_set (k : scalar) (v : value) (d : dict) : dict :=
  match d with
  | [] => [(k, v)]
  | (k', v') :: d' =>
      if scalar_eq_dec k k' then (k', v) :: d' else (k', v') :: dict_set k v d'
  end.

(** [d.setdefault(k, v)] (its return value is never used). *)
Definition dict_setdefault (k : scalar) (v : value) (d : dict) : dict :=
  if dict_mem k d then d else dict_set k v d.

(** [z = x.copy(); z.update(y)] *)
Definition dict_update (x y : dict) : dict :=
  fold_left (fun z kv => dict_set (fst kv) (snd kv) z) y x.

Definition dict_keys (d : dict) : list scalar := map fst d.

Definition getitem (d : dict) (k : scalar) : result value :=
  match dict_get k d with
  | Some v => Ok v
  | None => Raise KeyError
  end.

(** *** Text *)

Definition string_of_nat (n : nat) : string :=
  NilEmpty.string_of_uint (Nat.to_uint n).

Definition string_of_Z (z : Z) : string :=
  match z with
  | Z0 => "0"
  | Zpos p => string_of_nat (Pos.to_nat p)
  | Zneg p => "-" ++ string_of_nat (Pos.to_nat p)
  end.

Fixpoint zeros (n : nat) : string :=
  match n with
  | O => ""
  | S n' => String "0" (zeros n')
  end.

(** [%0<width>d] *)
Definition zero_pad (width n : nat) : string :=
  let s := string_of_nat n in
  zeros (width - String.length s) ++ s.

(** [datetime.MAXYEAR], 9999 *)
Definition MAXYEAR : nat := 10 * 1000 - 1.

(** The three [strftime] formats the program uses.  A [date] has
    midnight as its time of day, a [time] has 1900-01-01 as its date.
    [%Y] is rendered on four digits (for a year below 1000 the C library
    decides the padding; the theorems on formats take years from 1000). *)
Definition year_of (t : temporal) : nat :=
  match t with a_date y _ _ => y | a_datetime y _ _ _ _ _ _ => y | a_time _ _ _ _ => 1900 end.
Definition month_of (t : temporal) : nat :=
  match t with a_date _ m _ => m | a_datetime _ m _ _ _ _ _ => m | a_time _ _ _ _ => 1 end.
Definition day_of (t : temporal) : nat :=
  match t with a_date _ _ d => d | a_datetime _ _ d _ _ _ _ => d | a_time _ _ _ _ => 1 end.
Definition hour_of (t : temporal) : nat :=
  match t with a_date _ _ _ => 0 | a_datetime _ _ _ h _ _ _ => h | a_time h _ _ _ => h end.
Definition minute_of (t : temporal) : nat :=
  match t with a_date _ _ _ => 0 | a_datetime _ _ _ _ m _ _ => m | a_time _ m _ _ => m end.
Definition second_of (t : temporal) : nat :=
  match t with a_date _ _ _ => 0 | a_datetime _ _ _ _ _ s _ => s | a_time _ _ s _ => s end.
Definition microsecond_of (t : temporal) : nat :=
  match t with a_date _ _ _ => 0 | a_datetime _ _ _ _ _ _ u => u | a_time _ _ _ u => u end.

(** ['%Y-%m-%d'] *)
Definition fmt_date (t : temporal) : string :=
  zero_pad 4 (year_of t) ++ "-" ++ zero_pad 2 (month_of t) ++ "-" ++ zero_pad 2 (day_of t).
(** ['%H:%M:%S'] *)
Definition fmt_time (t : temporal) : string :=
  zero_pad 2 (hour_of t) ++ ":" ++ zero_pad 2 (minute_of t) ++ ":" ++ zero_pad 2 (second_of t).
(** ['%Y-%m-%d %H:%M:%S'] *)
Definition fmt_date_time (t : temporal) : string :=
  fmt_date t ++ " " ++ fmt_time t.
(** ['%Y%m%d'] *)
Definition fmt_compact_date (t : temporal) : string :=
  zero_pad 4 (year_of t) ++ zero_pad 2 (month_of t) ++ zero_pad 2 (day_of t).

(** [v.strftime(fmt)]: only temporal objects have the method. *)
Definition strftime (fmt : temporal -> string) (v : value) : result value :=
  match v with
  | VScalar (STemporal t) => Ok (VStr (fmt t))
  | _ => Raise AttributeError
  end.

Definition fraction (t : temporal) : string :=
  match microsecond_of t with
  | O => ""
  | u => "." ++ zero_pad 6 u
  end.

(** [str(s)] *)
Definition str (s : scalar) : string :=
  match s with
  | SNone => "None"
  | SBool true => "True"
  | SBool false => "False"
  | SInt n => string_of_Z n
  | SFloat r => r
  | SStr x => x
  | SBytes r => r
  | STemporal (a_date _ _ _ as t) => fmt_date t
  | STemporal (a_datetime _ _ _ _ _ _ _ as t) => fmt_date_time t ++ fraction t
  | STemporal (a_time _ _ _ _ as t) => fmt_time t ++ fraction t
  end.

(** *** Truth value, [or], [isinstance], indexing *)

Definition truthy (v : value) : bool :=
  match v with
  | VScalar SNone => false
  | VScalar (SBool b) => b
  | VScalar (SInt n) => negb (Z.eqb n 0)
  | VScalar (SFloat r) => negb (String.eqb r "0.0" || String.eqb r "-0.0")
  | VScalar (SStr s) => negb (String.eqb s "")
  | VScalar (SBytes r) => negb (String.eqb r "b''")
  | VScalar (STemporal _) => true
  | VDict d => match d with [] => false | _ => true end
  | VList l => match l with [] => false | _ => true end
  | VClass _ => true
  end.

(** [a or b] *)
Definition or_ (a b : value) : value := if truthy a then a else b.

(** The classes the program tests against. *)
Inductive class : Type := c_int | c_list | c_dict | c_datetime.

Definition instance_of (v : value) (c : class) : bool :=
  match c, v with
  | c_int, VScalar (SInt _) => true
  | c_int, VScalar (SBool _) => true
  | c_list, VList _ => true
  | c_dict, VDict _ => true
  | c_datetime, VScalar (STemporal (a_datetime _ _ _ _ _ _ _)) => true
  | _, _ => false
  end.

(** An argument of a call to the builtin [isinstance]. *)
Inductive arg : Type :=
| AVal (v : value)
| AClass (c : class).

(** [isinstance(...)]: a builtin of exactly two arguments, the second
    one a class. *)
Definition isinstance (args : list arg) : result bool :=
  match args with
  | [AVal v; AClass c] => Ok (instance_of v c)
  | _ => Raise TypeError
  end.

(** [assert c] *)
Definition assert (c : result bool) : result unit :=
  bind c (fun b => if b then Ok tt else Raise AssertionError).

(** [v in (s1, s2, ...)] for a tuple of string literals *)
Definition in_strings (v : value) (l : list string) : bool :=
  match v with
  | VScalar (SStr s) => existsb (String.eqb s) l
  | _ => false
  end.

(** [v[i]] for a non-negative literal index. *)
Definition subscript (v : value) (i : nat) : result value :=
  match v with
  | VList l =>
      match nth_error l i with
      | Some x => Ok x
      | None => Raise IndexError
      end
  | VScalar (SStr s) =>
      match String.get i s with
      | Some c => Ok (VStr (String c ""))
      | None => Raise IndexError
      end
  | VDict d =>
      match dict_get (SInt (Z.of_nat i)) d with
      | Some x => Ok x
      | None => Raise KeyError
      end
  | _ => Raise TypeError
  end.

(** A value used as a dictionary key must be hashable. *)
Definition as_key (v : value) : result scalar :=
  match v with
  | VScalar s => Ok s
  | _ => Raise TypeError
  end.

(** [for x in xs: s = body(x, s)], stopping at the first exception. *)
Definition for_each {A S : Type} (xs : list A) (body : A -> S -> result S)
  : S -> result S :=
  (fix loop (xs : list A) (s : S) {struct xs} : result S :=
     match xs with
     | [] => Ok s
     | x :: xs' =>
         match body x s with
         | Ok s' => loop xs' s'
         | Raise e => Raise e
         end
     end) xs.

(** [[f(x) for x in xs]], stopping at the first exception. *)
Fixpoint all_ok {A B : Type} (f : A -> result B) (xs : list A) : result (list B) :=
  match xs with
  | [] => Ok []
  | x :: xs' =>
      match f x with
      | Ok b =>
          match all_ok f xs' with
          | Ok bs => Ok (b :: bs)
          | Raise e => Raise e
          end
      | Raise e => Raise e
      end
  end.

End Py.

Import Py.

Declare Scope py_scope.
Notation "x <- m ;; k" := (Py.bind m (fun x => k))
  (at level 61, m at next level, right associativity) : py_scope.
Notation "' p <- m ;; k" := (Py.bind m (fun x => match x with p => k end))
  (at level 61, p pattern, m at next level, right associativity) : py_scope.
Local Open Scope py_scope.

(* ================================================================== *)
(** ** The blpapi interface, as far as the program uses it *)
(* ================================================================== *)

Module Blpapi.

(** [blpapi.DataType] *)
Inductive DataType : Type :=
| BOOL | CHAR | BYTE | INT32 | INT64 | FLOAT32 | FLOAT64 | STRING
| BYTEARRAY | DATE | TIME | DECIMAL | DATETIME | ENUMERATION
| SEQUENCE | CHOICE | CORRELATION_ID.

Definition DataType_eq_dec (a b : DataType) : {a = b} + {a <> b}.
Proof. decide equality. Defined.

(** A wire element: its name, declared kind, whether it is an array,
    whether the handle is valid, and its content.  Elements of kind
    [SEQUENCE] or [CHOICE] hold sub-elements ([kids]); all the others hold
    scalar values ([vals]). *)
#[warnings="-register-all"]
Inductive Element : Type :=
| mkElement (name : string) (datatype : DataType) (isArray isValid : bool)
            (vals : list scalar) (kids : list Element).

Definition name (e : Element) : string :=
  match e with mkElement n _ _ _ _ _ => n end.
Definition datatype (e : Element) : DataType :=
  match e with mkElement _ d _ _ _ _ => d end.
Definition isArray (e : Element) : bool :=
  match e with mkElement _ _ a _ _ _ => a end.
Definition isValid (e : Element) : bool :=
  match e with mkElement _ _ _ v _ _ => v end.
Definition vals (e : Element) : list scalar :=
  match e with mkElement _ _ _ _ vs _ => vs end.
Definition kids (e : Element) : list Element :=
  match e with mkElement _ _ _ _ _ ks => ks end.

Definition composite (d : DataType) : bool :=
  match d with
  | SEQUENCE | CHOICE => true
  | _ => false
  end.

(** [isComplexType()]: a sequence or a choice that is not an array. *)
Definition isComplexType (e : Element) : bool :=
  composite (datatype e) && negb (isArray e).

(** What iterating over an element yields: sub-elements, or raw Python
    values for an element that holds scalars. *)
Inductive item : Type :=
| IElem (e : Element)
| IVal (s : scalar).

(** Calling an [Element] method on a raw value fails. *)
Definition as_element (i : item) : result Element :=
  match i with
  | IElem e => Ok e
  | IVal _ => Raise AttributeError
  end.

(** [values()]: the entries of an array; a complex element that is not an
    array has itself as its only value. *)
Definition values (e : Element) : list item :=
  if composite (datatype e) then
    if isArray e then map IElem (kids e) else [IElem e]
  else map IVal (vals e).

Definition numValues (e : Element) : nat := List.length (values e).

(** [elements()]: the named sub-elements of a complex element. *)
Definition elements (e : Element) : list Element :=
  if isComplexType e then kids e else [].

Definition numElements (e : Element) : nat := List.length (elements e).

Definition hasElement (e : Element) (n : string) : bool :=
  existsb (fun k => String.eqb (name k) n) (elements e).

Definition getElement (e : Element) (n : string) : result Element :=
  match find (fun k => String.eqb (name k) n) (elements e) with
  | Some k => Ok k
  | None => Raise NotFoundException
  end.

(** [getValue()]: the first value of an element that holds scalars. *)
Definition getValue (e : Element) : result scalar :=
  if composite (datatype e) then Raise InvalidConversionException
  else match vals e with
       | v :: _ => Ok v
       | [] => Raise IndexOutOfRangeException
       end.

(** [getValueAsString()]: non-string scalars are rendered as [str] does. *)
Definition getValueAsString (e : Element) : result string :=
  if composite (datatype e) then Raise InvalidConversionException
  else match vals e with
       | v :: _ => Ok (Py.str v)
       | [] => Raise IndexOutOfRangeException
       end.

Definition getElementAsString (e : Element) (n : string) : result string :=
  k <- getElement e n ;; getValueAsString k.

(** Correlation identifiers are opaque; integers stand for them. *)
Definition CorrelationId : Type := Z.

Record Message : Type := mkMessage {
  correlationIds : list CorrelationId;
  messageType : string;
  asElement : Element
}.

(** [blpapi.Event] types *)
Inductive EventType : Type :=
| ADMIN | SESSION_STATUS | SUBSCRIPTION_STATUS | REQUEST_STATUS
| RESPONSE | PARTIAL_RESPONSE | SUBSCRIPTION_DATA | SERVICE_STATUS
| TIMEOUT.

Definition EventType_eq_dec (a b : EventType) : {a = b} + {a <> b}.
Proof. decide equality. Defined.

(** An event: its type and the messages iterating over it yields. *)
Record Event : Type := mkEvent {
  eventType : EventType;
  messages : list Message
}.

End Blpapi.

Import Blpapi.

(** The element names of the module header. *)
Definition SECURITY_DATA : string := "securityData".
Definition SECURITY : string := "security".
Definition BAR_DATA : string := "barData".
Definition BAR_TICK_DATA : string := "barTickData".
Definition FIELD_DATA : string := "fieldData".
Definition FIELD_EXCEPTIONS : string := "fieldExceptions".
Definition SECURITY_ERROR : string := "securityError".
Definition RESPONSE_ERROR : string := "responseError".
Definition FIELD_ID : string := "fieldId".
Definition ERROR_INFO : string := "errorInfo".
Definition CATEGORY : string := "category".

Definition BBG_SEQUENCES : list DataType := [SEQUENCE; BYTEARRAY; CHOICE].

(** [x in BBG_SEQUENCES] *)
Definition in_types (d : DataType) (l : list DataType) : bool :=
  if in_dec DataType_eq_dec d l then true else false.

Module RequestType.
Definition HISTORICAL_DATA : string := "HistoricalDataRequest".
Definition REFERENCE_DATA : string := "ReferenceDataRequest".
Definition INTRADAY_BAR_DATA : string := "IntradayBarRequest".
End RequestType.

Module ServiceType.
Definition DEFAULT_SVC : string := "//blp/refdata".
Definition API_FIELDS : string := "//blp/apiflds".
Definition TECHNICAL_ANALYSIS : string := "//blp/tasvc".
Definition API_AUTHORISATION : string := "//blp/apiauth".
End ServiceType.

Module Periodicity.
Definition DAILY : string := "DAILY".
End Periodicity.

Module NonTradingDayFillOption.
Definition ACTIVE_DAYS_ONLY : string := "ACTIVE_DAYS_ONLY".
End NonTradingDayFillOption.

Module NonTradingDayFillMethod.
Definition NIL_VALUE : string := "NIL_VALUE".
End NonTradingDayFillMethod.

(* ================================================================== *)
(** ** class DataTypeFactory *)
(* ================================================================== *)

Module DataTypeFactory.

Definition process_bool (data : Element) : result value :=
  v <- getValue data ;; Ok (VList [VStr (name data); VScalar v]).

Definition process_byte (data : Element) : result value :=
  v <- getValue data ;; Ok (VList [VStr (name data); VScalar v]).

Definition process_byte_array (data : Element) : result value :=
  v <- getValue data ;; Ok (VList [VStr (name data); VScalar v]).

Definition process_char (data : Element) : result value :=
  v <- getValue data ;; Ok (VList [VStr (name data); VScalar v]).

(** [return NotImplementedError]: the class object is returned as an
    ordinary value, nothing is raised. *)
Definition process_correlation_id (data : Element) : result value :=
  Ok (VClass NotImplementedError).

Definition process_date (data : Element) : result value :=
  v <- getValue data ;; s <- strftime fmt_date (VScalar v) ;;
  Ok (VList [VStr (name data); s]).

Definition process_date_time (data : Element) : result value :=
  v <- getValue data ;; s <- strftime fmt_date_time (VScalar v) ;;
  Ok (VList [VStr (name data); s]).

Definition process_enumeration (data : Element) : result value :=
  Ok (VClass NotImplementedError).

Definition process_string (data : Element) : result value :=
  v <- getValue data ;; Ok (VList [VStr (name data); VScalar v]).

Definition process_time (data : Element) : result value :=
  v <- getValue data ;; s <- strftime fmt_time (VScalar v) ;;
  Ok (VList [VStr (name data); s]).

Definition process_scalar (data : Element) : result value :=
  v <- getValue data ;; Ok (VList [VStr (name data); VScalar v]).

End DataTypeFactory.

(* ================================================================== *)
(** ** class SessionFactory *)
(* ================================================================== *)

Module SessionFactory.

(** The object state set by [__init__]; [session] is the stream of events
    that [nextEvent] will deliver, in order. *)
Record t : Type := mkSessionFactory {
  session : list Event;
  cid : CorrelationId;
  request_type : string
}.

(** [_get_bbg_iterator]: [None] when [obj] is neither an array nor a
    complex element. *)
Definition _get_bbg_iterator (obj : Element) : option (list item) :=
  if isArray obj then Some (values obj)
  else if isComplexType obj then Some (map IElem (elements obj))
  else None.

Definition _get_iterator_len (obj : Element) : option nat :=
  if isArray obj then Some (numValues obj)
  else if isComplexType obj then Some (numElements obj)
  else None.

(** [for x in it]: iterating over [None] is a [TypeError]. *)
Definition iter (it : option (list item)) : result (list item) :=
  match it with
  | Some l => Ok l
  | None => Raise TypeError
  end.

(** [n > k] for [n] an integer or [None]; [None > k] is a [TypeError]. *)
Definition gt (n : option nat) (k : nat) : result bool :=
  match n with
  | Some m => Ok (Nat.ltb k m)
  | None => Raise TypeError
  end.

Definition _merge_two_dicts (x : value) (y : dict) : result dict :=
  match x with
  | VDict z => Ok (dict_update z y)
  | _ => Raise AttributeError
  end.

Fixpoint _flatten_dict (obj : value) : value :=
  match obj with
  | VDict items =>
      match items with
      | _ :: _ :: _ => obj
      | [(k, v)] =>
          match v with
          | VDict [_] => v
          | _ => _flatten_dict v
          end
      | [] => VNone
      end
  | _ => obj
  end.

Definition process_factory (d : DataType) : option (Element -> result value) :=
  match d with
  | BOOL => Some DataTypeFactory.process_bool
  | BYTE => Some DataTypeFactory.process_byte
  | BYTEARRAY => Some DataTypeFactory.process_byte_array
  | CHAR => Some DataTypeFactory.process_char
  | CORRELATION_ID => Some DataTypeFactory.process_correlation_id
  | DATE => Some DataTypeFactory.process_date
  | DATETIME => Some DataTypeFactory.process_date_time
  | DECIMAL => Some DataTypeFactory.process_scalar
  | ENUMERATION => Some DataTypeFactory.process_enumeration
  | FLOAT32 => Some DataTypeFactory.process_scalar
  | FLOAT64 => Some DataTypeFactory.process_scalar
  | INT32 => Some DataTypeFactory.process_scalar
  | INT64 => Some DataTypeFactory.process_scalar
  | STRING => Some DataTypeFactory.process_string
  | TIME => Some DataTypeFactory.process_time
  | SEQUENCE | CHOICE => None
  end.

(** [process_factory.get(field_data_type)(data)] calls [None] when the
    kind is not in the table; the [except Exception: raise] re-raises. *)
Definition _field_factory (data : Element) : result value :=
  let field_data_type := datatype data in
  match process_factory field_data_type with
  | None => Raise TypeError
  | Some process =>
      single_val_results <- process data ;;
      x0 <- subscript single_val_results 0 ;;
      x1 <- subscript single_val_results 1 ;;
      Ok (VList [x0; x1])
  end.

(** ['{0}_{1}'.format(element_name, str(n))] *)
Definition suffixed (element_name : string) (n : nat) : string :=
  element_name ++ "_" ++ string_of_nat n.

(** [_element_factory].  The list [duplicate_elements] and the dictionary
    [results] are mutated in place by the source; here both are threaded
    through and returned.  [results[element_name]] is the dictionary the
    recursive calls fill: it is threaded through the loop and stored back
    under the same key.  The recursion is structural in the element, so
    the loop runs over [kids]; [_element_factory_eq] below restates the
    body over [_get_bbg_iterator], as the source has it.

    [raise blpapi.NotFoundException] raises the class, which Python
    instantiates without arguments; the constructor of the [blpapi]
    exceptions takes a description and an error code (the decoders pass
    both), so what an invalid element raises is [TypeError]. *)
Fixpoint _element_factory (element : Element) (duplicate_elements : list string)
         (results : option dict) {struct element} : result (list string * dict) :=
  match element with
  | mkElement nm data_type arr valid vs ks =>
      if negb valid then Raise TypeError else
      let element_name := nm in
      if in_types data_type BBG_SEQUENCES then
        let results := match results with None => [] | Some r => r end in
        let '(element_name, duplicate_elements, results) :=
          if negb (dict_mem (SStr element_name) results) then
            (element_name, duplicate_elements,
             dict_set (SStr element_name) (VDict []) results)
          else
            let element_name :=
              suffixed element_name (List.length duplicate_elements) in
            (element_name, duplicate_elements ++ [element_name],
             dict_set (SStr element_name) (VDict []) results) in
        '(duplicate_elements, sub) <-
          (if composite data_type then
             for_each ks
               (fun sub_element st =>
                  _element_factory sub_element (fst st) (Some (snd st)))
               (duplicate_elements, [])
           else if arr then
             match vs with
             | [] => Ok (duplicate_elements, [])
             | _ :: _ => Raise AttributeError
             end
           else Raise TypeError) ;;
        Ok (duplicate_elements, dict_set (SStr element_name) (VDict sub) results)
      else
        single_value <- _field_factory element ;;
        x1 <- subscript single_value 1 ;;
        x0 <- subscript single_value 0 ;;
        match results with
        | None => Raise TypeError
        | Some results => k <- as_key x0 ;; Ok (duplicate_elements, dict_set k x1 results)
        end
  end.

Definition _response_error_factory (response_array : Element) : result dict :=
  it <- iter (_get_bbg_iterator response_array) ;;
  for_each it
    (fun response_error response_errors =>
       e <- as_element response_error ;;
       v <- getValue e ;;
       Ok (dict_set (SStr (name e)) (VScalar v) response_errors))
    [].

(** In [d[k] = v] the right-hand side is evaluated before the key. *)
Definition _field_exception_factory (field_exception_array : Element) : result dict :=
  it <- iter (_get_bbg_iterator field_exception_array) ;;
  for_each it
    (fun field_exception field_exceptions =>
       e <- as_element field_exception ;;
       error_info <- getElement e ERROR_INFO ;;
       v <- getElementAsString e FIELD_ID ;;
       k <- getElementAsString error_info CATEGORY ;;
       Ok (dict_set (SStr k) (VStr v) field_exceptions))
    [].

Definition _security_error_factory (security_error : Element) : result dict :=
  it <- iter (_get_bbg_iterator security_error) ;;
  for_each it
    (fun error security_errors =>
       e <- as_element error ;;
       v <- getValue e ;;
       Ok (dict_set (SStr (name e)) (VScalar v) security_errors))
    [].

(** A decoder returns [(security, sec_results)]; [security] is a string
    or [None]. *)
Definition decoded : Type := (option string * dict)%type.

Definition _process_intraday_data_msg (msg : Message) : result decoded :=
  let results : dict := [] in
  if hasElement (asElement msg) RESPONSE_ERROR then
    e <- getElement (asElement msg) RESPONSE_ERROR ;;
    r <- _response_error_factory e ;;
    Ok (None, r)
  else if negb (hasElement (asElement msg) BAR_DATA) then
    Raise NotFoundException
  else
    bar_data <- getElement (asElement msg) BAR_DATA ;;
    ticks <- getElement bar_data BAR_TICK_DATA ;;
    results <-
      for_each (values ticks)
        (fun bar_tick_data results =>
           b <- as_element bar_tick_data ;;
           data <-
             for_each (elements b)
               (fun element data =>
                  v <- getValue element ;;
                  Ok (dict_setdefault (SStr (name element)) (VScalar v) data))
               [] ;;
           time <- getitem data (SStr "time") ;;
           k <- as_key time ;;
           Ok (dict_set k (VDict data) results))
        results ;;
    Ok (None, results).

Definition _process_ref_data_msg (msg : Message) : result decoded :=
  let results : dict := [] in
  if hasElement (asElement msg) RESPONSE_ERROR then
    e <- getElement (asElement msg) RESPONSE_ERROR ;;
    r <- _response_error_factory e ;;
    Ok (None, r)
  else if negb (hasElement (asElement msg) SECURITY_DATA) then
    Raise NotFoundException
  else
    security_data <- getElement (asElement msg) SECURITY_DATA ;;
    let security : option string := None in
    let security_iterator := _get_bbg_iterator security_data in
    let security_iterator_len := _get_iterator_len security_data in
    it <- iter security_iterator ;;
    '(security, results) <-
      for_each it
        (fun item '(security, results) =>
           i <- as_element item ;;
           security <- getElementAsString i SECURITY ;;
           field_data <- getElement i FIELD_DATA ;;
           nonempty <- gt (_get_iterator_len field_data) 0 ;;
           security_data_results <-
             (if nonempty : bool then
                '(_, r) <- _element_factory field_data [] None ;;
                Ok (_flatten_dict (VDict r))
              else Ok (VDict [])) ;;
           security_errors <-
             (if hasElement i SECURITY_ERROR then
                e <- getElement i SECURITY_ERROR ;;
                _security_error_factory e
              else Ok []) ;;
           fe <- getElement i FIELD_EXCEPTIONS ;;
           some <- gt (_get_iterator_len fe) 0 ;;
           field_exceptions <-
             (if some : bool then
                fe <- getElement i FIELD_EXCEPTIONS ;;
                _field_exception_factory fe
              else Ok []) ;;
           nested <- gt security_iterator_len 1 ;;
           let entry : dict :=
             [(SStr "security_data", security_data_results);
              (SStr "field_exceptions", VDict field_exceptions);
              (SStr "security_errors", VDict security_errors)] in
           if nested : bool then
             Ok (Some security, dict_set (SStr security) (VDict entry) results)
           else
             Ok (Some security, entry))
        (security, results) ;;
    nested <- gt security_iterator_len 1 ;;
    if nested : bool then Ok (None, results) else Ok (security, results).

Definition _process_historical_data_msg (msg : Message) : result decoded :=
  if hasElement (asElement msg) RESPONSE_ERROR then
    e <- getElement (asElement msg) RESPONSE_ERROR ;;
    r <- _response_error_factory e ;;
    Ok (None, r)
  else if negb (hasElement (asElement msg) SECURITY_DATA) then
    Raise NotFoundException
  else
    security_data <- getElement (asElement msg) SECURITY_DATA ;;
    s <- getElement security_data SECURITY ;;
    v <- getValue s ;;
    let security := Py.str v in
    if hasElement security_data SECURITY_ERROR then
      e <- getElement security_data SECURITY_ERROR ;;
      security_errors <- _security_error_factory e ;;
      Ok (Some security,
          [(SStr "security_errors", VDict security_errors);
           (SStr "security_data", VDict []);
           (SStr "field_exceptions", VDict [])])
    else
      field_exceptions <-
        (if hasElement security_data FIELD_EXCEPTIONS then
           fe <- getElement security_data FIELD_EXCEPTIONS ;;
           _field_exception_factory fe
         else Ok []) ;;
      field_data <- getElement security_data FIELD_DATA ;;
      nonempty <- gt (_get_iterator_len field_data) 0 ;;
      security_data_results <-
        (if nonempty : bool then
           it <- iter (_get_bbg_iterator field_data) ;;
           for_each it
             (fun item security_data_results =>
                i <- as_element item ;;
                inner <- iter (_get_bbg_iterator i) ;;
                '(item_data, date, security_data_results) <-
                  for_each inner
                    (fun element '(item_data, date, security_data_results) =>
                       e <- as_element element ;;
                       let measure := name e in
                       value <- getValue e ;;
                       if String.eqb measure "date" then
                         Ok (item_data, value,
                             dict_setdefault value (VDict []) security_data_results)
                       else
                         Ok (dict_set (SStr measure) (VScalar value) item_data,
                             date, security_data_results))
                    (([] : dict), SNone, security_data_results) ;;
                Ok (dict_set date (VDict item_data) security_data_results))
             []
         else Ok []) ;;
      Ok (Some security,
          [(SStr "security_data", VDict security_data_results);
           (SStr "security_errors", VDict []);
           (SStr "field_exceptions", VDict field_exceptions)]).

(** [msg_processes[request_type]]; [None] stands for [KeyError]. *)
Definition msg_processes (request_type : string)
  : option (Message -> result decoded) :=
  if String.eqb request_type RequestType.HISTORICAL_DATA then
    Some _process_historical_data_msg
  else if String.eqb request_type RequestType.REFERENCE_DATA then
    Some _process_ref_data_msg
  else if String.eqb request_type RequestType.INTRADAY_BAR_DATA then
    Some _process_intraday_data_msg
  else None.

(** The fragment history: for each [security] seen (a string or [None])
    the list of message types received for it. *)
Definition history : Type := list (option string * list string).

Definition option_string_eq_dec (a b : option string) : {a = b} + {a <> b}.
Proof. decide equality. apply string_dec. Defined.

Fixpoint history_get (security : option string) (h : history) : option (list string) :=
  match h with
  | [] => None
  | (k, l) :: h' =>
      if option_string_eq_dec security k then Some l else history_get security h'
  end.

Fixpoint history_set (security : option string) (l : list string) (h : history)
  : history :=
  match h with
  | [] => [(security, l)]
  | (k, l') :: h' =>
      if option_string_eq_dec security k then (k, l) :: h'
      else (k, l') :: history_set security l h'
  end.

(** [security_responses[security].count(request_type)] *)
Definition _get_response_count (security : option string)
           (security_responses : history) (request_type : string) : result nat :=
  match history_get security security_responses with
  | Some l => Ok (count_occ string_dec l request_type)
  | None => Raise KeyError
  end.

(** [if security:] *)
Definition truthy_security (security : option string) : option string :=
  match security with
  | Some s => if String.eqb s "" then None else Some s
  | None => None
  end.

(** The body of [for msg in ev], on the pair of local variables
    [(output, security_responses)]. *)
Definition process_msg (self : t) (msg : Message) (st : dict * history)
  : result (dict * history) :=
  let '(output, security_responses) := st in
  if existsb (Z.eqb (cid self)) (correlationIds msg) then
    match msg_processes (request_type self) with
    | None => Raise KeyError
    | Some process =>
        '(security, sec_results) <- process msg ;;
        let response_type := messageType msg in
        let security_responses :=
          match history_get security security_responses with
          | None => history_set security [response_type] security_responses
          | Some l => history_set security (l ++ [response_type]) security_responses
          end in
        msg_response_count <-
          _get_response_count security security_responses response_type ;;
        match truthy_security security with
        | Some security =>
            if Nat.ltb 1 msg_response_count then
              old <- getitem output (SStr security) ;;
              merged <- _merge_two_dicts old sec_results ;;
              Ok (dict_set (SStr security) (VDict merged) output, security_responses)
            else
              Ok (dict_set (SStr security) (VDict sec_results) output,
                  security_responses)
        | None =>
            if Nat.ltb 1 msg_response_count then
              merged <- _merge_two_dicts (VDict output) sec_results ;;
              Ok (merged, security_responses)
            else
              Ok (sec_results, security_responses)
        end
    end
  else Ok st.

(** The [while True] loop over the events still to come.  [None] means
    that the loop is still waiting in [nextEvent]: the events ran out
    before a [RESPONSE] event. *)
Fixpoint receive (self : t) (events : list Event) (st : dict * history)
  : option (result dict) :=
  match events with
  | [] => None
  | ev :: events' =>
      match for_each (messages ev) (process_msg self) st with
      | Raise e => Some (Raise e)
      | Ok st' =>
          if EventType_eq_dec (eventType ev) RESPONSE then Some (Ok (fst st'))
          else receive self events' st'
      end
  end.

Definition process_session (self : t) : option (result dict) :=
  let output : dict := [] in
  let security_responses : history := [] in
  receive self (session self) (output, security_responses).

End SessionFactory.

(* ================================================================== *)
(** ** The provider: calls made to blpapi and their outcomes *)
(* ================================================================== *)

Module Provider.

(** The calls a request makes on the blpapi session and request objects. *)
Inductive call : Type :=
| start
| openService (service_name : string)
| getService (service_name : string)
| createRequest (request_type : string)
| set (name : string) (v : value)
| append (name : string) (v : value)
| appendElement (name : string)
| setElement (name : string) (v : value)
| sendRequest
| stop.

Definition call_eq_stop (c : call) : bool :=
  match c with stop => true | _ => false end.

Definition call_eq_start (c : call) : bool :=
  match c with start => true | _ => false end.

(** How the provider answers: whether [session.start()] returns [True],
    which calls raise (given the calls made before), the correlation
    identifier [sendRequest] returns and the events [nextEvent] delivers. *)
Record world : Type := mkWorld {
  start_result : bool;
  failure : list call -> call -> option exn;
  reply : CorrelationId;
  events : list Event
}.

(** How a call of the program ends. [Waiting]: it has not returned, the
    event loop is blocked in [nextEvent]. *)
Inductive outcome (A : Type) : Type :=
| Returned (a : A)
| Raised (e : exn)
| Waiting.
Arguments Returned {A} a.
Arguments Raised {A} e.
Arguments Waiting {A}.

(** A program: it reads the world and extends the trace of calls made. *)
Definition prog (A : Type) : Type := world -> list call -> list call * outcome A.

Definition ret {A} (a : A) : prog A := fun _ tr => (tr, Returned a).

Definition seq {A B} (m : prog A) (k : A -> prog B) : prog B :=
  fun w tr =>
    match m w tr with
    | (tr', Returned a) => k a w tr'
    | (tr', Raised e) => (tr', Raised e)
    | (tr', Waiting) => (tr', Waiting)
    end.

Definition lift {A} (r : result A) : prog A :=
  fun _ tr => (tr, match r with Ok a => Returned a | Raise e => Raised e end).

Definition raise {A} (e : exn) : prog A := fun _ tr => (tr, Raised e).

Definition invoke (c : call) : prog unit :=
  fun w tr =>
    (tr ++ [c],
     match failure w tr c with
     | Some e => Raised e
     | None => Returned tt
     end).

Definition ask {A} (f : world -> A) : prog A := fun w tr => (tr, Returned (f w)).

(** [try: body finally: fin].  The [finally] block runs when the body
    returns or raises, not while it is still waiting. *)
Definition try_finally {A} (body : prog A) (fin : prog unit) : prog A :=
  fun w tr =>
    match body w tr with
    | (tr', Waiting) => (tr', Waiting)
    | (tr', r) =>
        match fin w tr' with
        | (tr'', Returned _) => (tr'', r)
        | (tr'', Raised e) => (tr'', Raised e)
        | (tr'', Waiting) => (tr'', Waiting)
        end
    end.

(** [for x in xs: body(x)] *)
Definition each {A} (xs : list A) (body : A -> prog unit) : prog unit :=
  (fix loop (xs : list A) : prog unit :=
     match xs with
     | [] => ret tt
     | x :: xs' => seq (body x) (fun _ => loop xs')
     end) xs.

End Provider.

Import Provider.

Declare Scope prog_scope.
Delimit Scope prog_scope with prog.
Notation "x <- m ;; k" := (Provider.seq m (fun x => k))
  (at level 61, m at next level, right associativity) : prog_scope.
Notation "m ;; k" := (Provider.seq m (fun _ => k))
  (at level 61, right associativity) : prog_scope.

(* ================================================================== *)
(** ** class Session, class Request *)
(* ================================================================== *)

Module Session.

Definition DEFAULT_HOST : value := VStr "localhost".
Definition DEFAULT_PORT : value := VInt 8194.

(** The attributes [__init__] sets; [server] is what the session options
    were given by [setServerHost] and [setServerPort]. *)
Record t : Type := mkSession {
  host : value;
  port : value;
  server : value * value
}.

Definition __init__ (host port : value) : t :=
  let self_host := or_ DEFAULT_HOST host in
  let self_port := or_ DEFAULT_PORT port in
  {| host := self_host; port := self_port; server := (self_host, self_port) |}.

(** [if not self.session.start(): raise ConnectionFailed(...)] *)
Definition start (self : t) : prog unit :=
  (invoke Provider.start ;;
   ok <- ask start_result ;;
   if ok : bool then ret tt else raise ConnectionFailed)%prog.

End Session.

Module Request.

Record t : Type := mkRequest {
  request_type : string;
  service_name : string
}.

Definition __init__ (request_type : string) (service_type : string) : t :=
  {| request_type := request_type; service_name := service_type |}.

(** The two [except ...: raise] clauses re-raise what they catch. *)
Definition create (self : t) : prog unit :=
  (invoke (openService (service_name self)) ;;
   invoke (getService (service_name self)) ;;
   invoke (createRequest (request_type self)))%prog.

End Request.

(** [SessionFactory(session, cid, request_type).process_session()] on the
    events the provider delivers. *)
Definition run_process_session (cid : CorrelationId) (request_type : string)
  : prog value :=
  fun w tr =>
    (tr,
     match SessionFactory.process_session
             (SessionFactory.mkSessionFactory (events w) cid request_type) with
     | None => Waiting
     | Some (Ok output) => Returned (VDict output)
     | Some (Raise e) => Raised e
     end).

(** [for x in xs] over a Python value. *)
Definition iterable (v : value) : result (list value) :=
  match v with
  | VList l => Ok l
  | VDict d => Ok (map (fun kv => VScalar (fst kv)) d)
  | VScalar (SStr s) => Ok (map (fun c => VStr (String c "")) (list_ascii_of_string s))
  | _ => Raise TypeError
  end.

(* ================================================================== *)
(** ** The three public requests *)
(* ================================================================== *)

Module IntradayBarRequest.

Definition validate (ticker event_type interval start_date end_date
                     max_data_points : value) : result unit :=
  (_ <- assert (isinstance [AVal ticker]) ;;
   _ <- assert (isinstance [AVal interval; AClass c_int]) ;;
   _ <- assert (Ok (in_strings event_type ["TRADE"; "BID"; "ASK"; "BEST_BID"; "BEST_ASK"])) ;;
   _ <- assert (isinstance [AVal start_date; AClass c_datetime]) ;;
   _ <- assert (isinstance [AVal end_date; AClass c_datetime]) ;;
   assert (isinstance [AVal max_data_points; AClass c_int]))%string.

Definition get (ticker event_type interval start_date end_date
                max_data_points : value) : prog value :=
  (lift (validate ticker event_type interval start_date end_date max_data_points) ;;
   Session.start (Session.__init__ VNone VNone) ;;
   Request.create (Request.__init__ RequestType.INTRADAY_BAR_DATA ServiceType.DEFAULT_SVC) ;;
   invoke (set "security" ticker) ;;
   invoke (set "eventType" event_type) ;;
   invoke (set "interval" interval) ;;
   invoke (set "startDateTime" start_date) ;;
   invoke (set "endDateTime" end_date) ;;
   invoke (set "maxDataPoints" max_data_points) ;;
   invoke sendRequest ;;
   cid <- ask reply ;;
   try_finally
     (run_process_session cid RequestType.INTRADAY_BAR_DATA)
     (invoke stop))%prog.

End IntradayBarRequest.

Module HistoricalDataRequest.

Definition validate (tickers fields start_date end_date periodicity max_data_points
                     non_trading_day_fill_option non_trading_day_fill_method : value)
  : result unit :=
  (_ <- assert (isinstance [AVal tickers; AClass c_list]) ;;
   _ <- assert (isinstance [AVal fields; AClass c_list]) ;;
   _ <- assert (Ok (in_strings periodicity
                      ["DAILY"; "WEEKLY"; "MONTHLY"; "QUARTERLY"; "SEMI-ANNUAL"; "YEARLY"])) ;;
   _ <- assert (isinstance [AVal start_date; AClass c_datetime]) ;;
   _ <- assert (isinstance [AVal end_date; AClass c_datetime]) ;;
   _ <- assert (isinstance [AVal max_data_points; AClass c_int]) ;;
   _ <- assert (Ok (in_strings non_trading_day_fill_option
                      ["NON_TRADING_WEEKDAYS"; "ALL_CALENDAR_DAYS"; "ACTIVE_DAYS_ONLY"])) ;;
   assert (Ok (in_strings non_trading_day_fill_method ["PREVIOUS_VALUE"; "NIL_VALUE"])))%string.

Definition get (tickers fields start_date end_date periodicity max_data_points
                non_trading_day_fill_option non_trading_day_fill_method : value)
  : prog value :=
  (lift (validate tickers fields start_date end_date periodicity max_data_points
           non_trading_day_fill_option non_trading_day_fill_method) ;;
   start_date <- lift (strftime fmt_compact_date start_date) ;;
   end_date <- lift (strftime fmt_compact_date end_date) ;;
   Session.start (Session.__init__ VNone VNone) ;;
   Request.create (Request.__init__ RequestType.HISTORICAL_DATA ServiceType.DEFAULT_SVC) ;;
   tickers <- lift (iterable tickers) ;;
   each tickers (fun ticker => invoke (append "securities" ticker)) ;;
   fields <- lift (iterable fields) ;;
   each fields (fun field => invoke (append "fields" field)) ;;
   invoke (set "periodicityAdjustment" (VStr "ACTUAL")) ;;
   invoke (set "periodicitySelection" periodicity) ;;
   invoke (set "startDate" start_date) ;;
   invoke (set "endDate" end_date) ;;
   invoke (set "maxDataPoints" max_data_points) ;;
   invoke (set "nonTradingDayFillOption" non_trading_day_fill_option) ;;
   invoke (set "nonTradingDayFillMethod" non_trading_day_fill_method) ;;
   invoke sendRequest ;;
   cid <- ask reply ;;
   try_finally
     (run_process_session cid RequestType.HISTORICAL_DATA)
     (invoke stop))%prog.

End HistoricalDataRequest.

Module ReferenceDataRequest.

(** [field_id == 'CURVE_DATE'] *)
Definition is_str (v : value) (s : string) : bool :=
  match v with
  | VScalar (SStr x) => String.eqb x s
  | _ => false
  end.

(** A function body that ends without [return] yields [None]. *)
Definition format_override (field_id val : value) : result value :=
  if is_str field_id "CURVE_DATE" then strftime fmt_compact_date val
  else Ok VNone.

Definition validate (tickers fields overrides : value) : result unit :=
  _ <- assert (isinstance [AVal tickers; AClass c_list]) ;;
  _ <- assert (isinstance [AVal fields; AClass c_list]) ;;
  if truthy overrides then assert (isinstance [AVal overrides; AClass c_dict])
  else Ok tt.

(** [overrides.items()]; after [validate] a truthy [overrides] is a dict. *)
Definition items (overrides : value) : result (list (scalar * value)) :=
  match overrides with
  | VDict d => Ok d
  | _ => Raise AttributeError
  end.

Definition get (tickers fields overrides : value) : prog value :=
  (lift (validate tickers fields overrides) ;;
   Session.start (Session.__init__ VNone VNone) ;;
   Request.create (Request.__init__ RequestType.REFERENCE_DATA ServiceType.DEFAULT_SVC) ;;
   tickers <- lift (iterable tickers) ;;
   each tickers (fun ticker => invoke (append "securities" ticker)) ;;
   fields <- lift (iterable fields) ;;
   each fields (fun field => invoke (append "fields" field)) ;;
   (if truthy overrides then
      kvs <- lift (items overrides) ;;
      each kvs
        (fun kv =>
           let field_id := VScalar (fst kv) in
           let val := snd kv in
           invoke (appendElement "overrides") ;;
           invoke (setElement "fieldId" field_id) ;;
           v <- lift (format_override field_id val) ;;
           invoke (setElement "value" v))
    else ret tt) ;;
   invoke sendRequest ;;
   cid <- ask reply ;;
   try_finally
     (run_process_session cid RequestType.REFERENCE_DATA)
     (invoke stop))%prog.

End ReferenceDataRequest.

(* ================================================================== *)
(** ** Observations on traces, sizes and sample data *)
(* ================================================================== *)

(** The values written by [override.setElement('value', ...)] in a trace,
    in order: the override values of the outbound request. *)
Definition override_values (tr : list call) : list value :=
  flat_map
    (fun c =>
       match c with
       | setElement n v => if String.eqb n "value" then [v] else []
       | _ => []
       end) tr.

(** The calls that add one override whose value was formatted to [None]. *)
Definition override_calls (kv : scalar * value) : list call :=
  [appendElement "overrides"; setElement "fieldId" (VScalar (fst kv));
   setElement "value" VNone].

(** What [format_override] returns for one override, and the calls that
    add the override with that value. *)
Definition formatted (kv : scalar * value) : value :=
  match ReferenceDataRequest.format_override (VScalar (fst kv)) (snd kv) with
  | Ok v => v
  | Raise _ => VNone
  end.

Definition sent_override (kv : scalar * value) : list call :=
  [appendElement "overrides"; setElement "fieldId" (VScalar (fst kv));
   setElement "value" (formatted kv)].

(** How often [session.stop()] was called. *)
Definition stops (tr : list call) : nat :=
  List.length (filter call_eq_stop tr).

(** A provider none of whose calls raises. *)
Definition quiet (w : world) : Prop :=
  forall tr c, failure w tr c = None.

(** The keys of a Per-Security Result, as the reference decoder builds it. *)
Definition PER_SECURITY_KEYS : list scalar :=
  [SStr "security_data"; SStr "field_exceptions"; SStr "security_errors"].

(** What the loop body of [_process_ref_data_msg] computes for one entry
    of the security-data collection, before it stores it: the security
    identifier and its Per-Security Result. *)
Definition security_entry (i : Element) : result (string * dict) :=
  security <- getElementAsString i SECURITY ;;
  field_data <- getElement i FIELD_DATA ;;
  nonempty <- SessionFactory.gt (SessionFactory._get_iterator_len field_data) 0 ;;
  security_data_results <-
    (if nonempty : bool then
       '(_, r) <- SessionFactory._element_factory field_data [] None ;;
       Ok (SessionFactory._flatten_dict (VDict r))
     else Ok (VDict [])) ;;
  security_errors <-
    (if hasElement i SECURITY_ERROR then
       e <- getElement i SECURITY_ERROR ;;
       SessionFactory._security_error_factory e
     else Ok []) ;;
  fe <- getElement i FIELD_EXCEPTIONS ;;
  some <- SessionFactory.gt (SessionFactory._get_iterator_len fe) 0 ;;
  field_exceptions <-
    (if some : bool then
       fe <- getElement i FIELD_EXCEPTIONS ;;
       SessionFactory._field_exception_factory fe
     else Ok []) ;;
  Ok (security,
      [(SStr "security_data", security_data_results);
       (SStr "field_exceptions", VDict field_exceptions);
       (SStr "security_errors", VDict security_errors)]).

(** The same for what iterating over the collection yields. *)
Definition item_entry (it : item) : result (string * dict) :=
  i <- as_element it ;; security_entry i.

(** One turn of the loop of [_process_ref_data_msg] over a collection of
    [n] entries, on the pair of variables [(security, results)]. *)
Definition ref_step (n : nat) (it : item) (st : option string * dict)
  : result (option string * dict) :=
  '(s, entry) <- item_entry it ;;
  if Nat.ltb 1 n then Ok (Some s, dict_set (SStr s) (VDict entry) (snd st))
  else Ok (Some s, entry).

(** [results[security] = entry] for each decoded entry, in order. *)
Definition keyed_by_security (entries : list (string * dict)) (results : dict) : dict :=
  fold_left (fun d se => dict_set (SStr (fst se)) (VDict (snd se)) d) entries results.

(** Whether a text contains the character ['_']. *)
Fixpoint has_underscore (s : string) : bool :=
  match s with
  | EmptyString => false
  | String c s' => Ascii.eqb c "_" || has_underscore s'
  end.

(** No name of [names] is a name of [names] with a suffix ['_<number>']:
    no sibling's own name can coincide with a minted key. *)
Definition suffix_free (names : list string) : Prop :=
  forall a b j, In a names -> In b names -> a <> SessionFactory.suffixed b j.

(** The keys of one nesting level while its children are decoded: each is
    the name of a child, or such a name with a suffix below the current
    length of the duplicate registry. *)
Definition level_keys (names : list string) (duplicate_elements : list string)
           (level : dict) : Prop :=
  forall key,
    In key (dict_keys level) ->
    (exists a, In a names /\ key = SStr a)
    \/ (exists a j, In a names /\ j < List.length duplicate_elements
                    /\ key = SStr (SessionFactory.suffixed a j)).

(** Every child that is not of composite kind bears a name that no
    sibling bears. *)
Definition unique_scalars (ks : list Element) : Prop :=
  forall k,
    In k ks -> in_types (datatype k) BBG_SEQUENCES = false ->
    count_occ string_dec (map name ks) (name k) = 1.



(** The keys the decoders build: strings and temporal objects.  On these
    the structural comparison of keys is Python's. *)
Definition decoder_key (k : scalar) : bool :=
  match k with
  | SStr _ | STemporal _ => true
  | _ => false
  end.

Definition decoder_keys (d : dict) : bool := forallb decoder_key (dict_keys d).

(** An element that holds a scalar value: [getValue] succeeds on it. *)
Definition holds_value (k : Element) : bool :=
  negb (composite (datatype k))
  && match vals k with [] => false | _ :: _ => true end.

(** A mapping with exactly one key. *)
Definition one_key (v : value) : bool :=
  match v with
  | VDict [_] => true
  | _ => false
  end.

(** The number of nodes of a value. *)
Fixpoint vsize (v : value) : nat :=
  match v with
  | VScalar _ => 1
  | VDict items => S (fold_right (fun kv n => vsize (snd kv) + n) 0 items)
  | VList l => S (fold_right (fun x n => vsize x + n) 0 l)
  | VClass _ => 1
  end.

(** The message types already received for [security]. *)
Definition seen (security : option string) (h : SessionFactory.history) : list string :=
  match SessionFactory.history_get security h with
  | Some l => l
  | None => []
  end.

(** The loop of [_element_factory] over [_get_bbg_iterator(element)], on
    the pair of the duplicate registry and [results[element_name]]. *)
Definition sub_elements (element : Element) (st : list string * dict)
  : result (list string * dict) :=
  it <- SessionFactory.iter (SessionFactory._get_bbg_iterator element) ;;
  for_each it
    (fun sub_element st =>
       s <- as_element sub_element ;;
       SessionFactory._element_factory s (fst st) (Some (snd st)))
    st.

(** A program that never calls [session.stop()]. *)
Definition stopless {A} (m : prog A) : Prop :=
  forall w tr, stops (fst (m w tr)) = stops tr.

(** A program that calls [session.stop()] once when it returns, at most
    once when it raises, and not while it waits. *)
Definition stops_on_exit {A} (m : prog A) : Prop :=
  forall w tr,
    match m w tr with
    | (tr', Returned _) => stops tr' = S (stops tr)
    | (tr', Raised _) => stops tr <= stops tr' <= S (stops tr)
    | (tr', Waiting) => stops tr' = stops tr
    end.

Module Samples.

(** [{'a': {'b': 1}}] *)
Definition wrapped : value :=
  VDict [(SStr "a", VDict [(SStr "b", VInt 1)])].

(** [{'a': 1, 'b': 2}] *)
Definition two_keys : value :=
  VDict [(SStr "a", VInt 1); (SStr "b", VInt 2)].

(** An enumeration element, as a schema-defined enumerated field. *)
Definition enum_element : Element :=
  mkElement "EQY_FUND_CRNCY" ENUMERATION false true [SStr "USD"] [].

(** A provider that answers every call, and has no event to deliver. *)
Definition silent : world :=
  mkWorld true (fun _ _ => None) 7%Z [].

(** A provider whose service cannot be opened. *)
Definition no_service : world :=
  mkWorld true
    (fun _ c => match c with openService _ => Some NotFoundException | _ => None end)
    7%Z [].

(** Builders for well-formed elements: a string field, a record, an
    array of records. *)
Definition text (n v : string) : Element :=
  mkElement n STRING false true [SStr v] [].
Definition record (n : string) (ks : list Element) : Element :=
  mkElement n SEQUENCE false true [] ks.
Definition array (n : string) (ks : list Element) : Element :=
  mkElement n SEQUENCE true true [] ks.

(** A response that carries a response-level error, and security data
    that must not be looked at. *)
Definition bad_request : Message :=
  mkMessage [7%Z] "ReferenceDataResponse"
    (record "ReferenceDataResponse"
       [record "responseError"
          [text "category" "BAD_ARGS"; text "message" "No securities"];
        text "securityData" "unexpected"]).

(** One entry of the [securityData] array of a reference response: one
    security with its last price and no field exception. *)
Definition quote (security price : string) : Element :=
  record "securityData"
    [text "security" security;
     record "fieldData" [mkElement "PX_LAST" FLOAT64 false true [SFloat price] []];
     array "fieldExceptions" []].

Definition reference_response (entries : list Element) : Message :=
  mkMessage [7%Z] "ReferenceDataResponse"
    (record "ReferenceDataResponse" [array "securityData" entries]).

(** The Per-Security Result decoded from [quote _ price]. *)
Definition quoted (price : string) : value :=
  VDict [(SStr "security_data", VDict [(SStr "PX_LAST", VScalar (SFloat price))]);
         (SStr "field_exceptions", VDict []);
         (SStr "security_errors", VDict [])].

(** A reference request for three securities answered in two messages:
    the first carries one security, the second the other two. *)
Definition first_part : Message := reference_response [quote "AAPL US Equity" "189.5"].
Definition second_part : Message :=
  reference_response [quote "IBM US Equity" "141.2"; quote "MSFT US Equity" "330.1"].

Definition answered_in_full : SessionFactory.t :=
  SessionFactory.mkSessionFactory
    [mkEvent PARTIAL_RESPONSE [first_part]; mkEvent RESPONSE [second_part]]
    7%Z RequestType.REFERENCE_DATA.

Definition answered_first_part : SessionFactory.t :=
  SessionFactory.mkSessionFactory
    [mkEvent RESPONSE [first_part]] 7%Z RequestType.REFERENCE_DATA.

(** A record with two fields of one name. *)
Definition twice_px : Element :=
  record "fieldData" [text "PX_LAST" "1"; text "PX_LAST" "2"].

(** Three records, the second of which bears the key that the decoder
    mints for the third. *)
Definition clash : Element :=
  record "fieldData"
    [record "TICKER" [text "x" "1"];
     record "TICKER_0" [text "y" "2"];
     record "TICKER" [text "z" "3"]].

(** A bulk field: an array of three records that all bear its name. *)
Definition dividends : Element :=
  array "DVD_HIST"
    [record "DVD_HIST" [text "Declared Date" "2023-01-31"];
     record "DVD_HIST" [text "Declared Date" "2023-04-28"];
     record "DVD_HIST" [text "Declared Date" "2023-07-31"]].

Definition new_year : value := VScalar (STemporal (a_datetime 2023 1 1 0 0 0 0)).

End Samples.

(* ================================================================== *)
(** ** Further observations *)
(* ================================================================== *)

(** The first value an element holds ([None] when it holds none). *)
Definition first_value (k : Element) : scalar :=
  match vals k with
  | v :: _ => v
  | [] => SNone
  end.

(** The entry an error factory stores for one sub-element. *)
Definition named_value (k : Element) : scalar * value :=
  (SStr (name k), VScalar (first_value k)).

(** What the loop body of [_field_exception_factory] reads from one field
    exception: its field id and the category of its error. *)
Definition exception_pair (it : item) : result (string * string) :=
  e <- as_element it ;;
  error_info <- getElement e ERROR_INFO ;;
  v <- getElementAsString e FIELD_ID ;;
  k <- getElementAsString error_info CATEGORY ;;
  Ok (v, k).

(** The field id of the last pair of category [c]. *)
Definition last_of_category (c : string) (pairs : list (string * string))
  : option string :=
  fold_left (fun acc p => if String.eqb (snd p) c then Some (fst p) else acc)
            pairs None.

(** How [_field_factory] renders the value [s] of an element of kind [d]:
    as text for the three temporal kinds, unchanged otherwise. *)
Definition rendered (d : DataType) (s : scalar) : value :=
  match d, s with
  | DATE, STemporal t => VStr (fmt_date t)
  | DATETIME, STemporal t => VStr (fmt_date_time t)
  | TIME, STemporal t => VStr (fmt_time t)
  | _, _ => VScalar s
  end.

(** The field ranges of Python's temporal objects, for years of four
    digits. *)
Definition calendar (t : temporal) : Prop :=
  1000 <= year_of t <= MAXYEAR
  /\ 1 <= month_of t <= 12 /\ 1 <= day_of t <= 31
  /\ hour_of t <= 23 /\ minute_of t <= 59 /\ second_of t <= 59.





(** The record of one intraday bar: its elements by name, the first of
    each name. *)
Definition tick_record (ks : list Element) : dict :=
  fold_left
    (fun d k => dict_setdefault (SStr (name k)) (VScalar (first_value k)) d)
    ks [].

(** The value under ['time'] of a bar ([None] when it has none). *)
Definition tick_time (ks : list Element) : scalar :=
  match dict_get (SStr "time") (tick_record ks) with
  | Some (VScalar s) => s
  | _ => SNone
  end.

(** A bar as the intraday decoder needs it: a record of valued elements. *)
Definition valued_bar (b : Element) : Prop :=
  isComplexType b = true /\ forallb holds_value (kids b) = true.

(** Whether a bar has an element named ['time']. *)
Definition timed (b : Element) : bool :=
  dict_mem (SStr "time") (tick_record (kids b)).

(** Whether a message carries the correlation identifier [c]. *)
Definition addressed (c : CorrelationId) (msg : Message) : bool :=
  existsb (Z.eqb c) (correlationIds msg).

(** An event without the messages of other requests. *)
Definition relevant (c : CorrelationId) (ev : Event) : Event :=
  mkEvent (eventType ev) (filter (addressed c) (messages ev)).

(** What [process_session] returns from the final state of its loop. *)
Definition delivered (r : result (dict * SessionFactory.history)) : result dict :=
  st <- r ;; Ok (fst st).

(** The fragments [f0], [fs] merged in order. *)
Definition merged (f0 : dict) (fs : list dict) : dict :=
  fold_left dict_update fs f0.

(** The output that holds [d] for [security]: under its key, or as the
    whole output when [security] is [None] or empty. *)
Definition output_for (security : option string) (d : dict) : dict :=
  match SessionFactory.truthy_security security with
  | Some s => [(SStr s, VDict d)]
  | None => d
  end.


(** How often [session.stop()] may have been called when a request ends:
    once when it returned, at most once when it raised, never while it
    waits for events. *)
Definition stopped_on_exit (p : list call * outcome value) : Prop :=
  match p with
  | (tr, Returned _) => stops tr = 1
  | (tr, Raised _) => stops tr <= 1
  | (tr, Waiting) => stops tr = 0
  end.

(** The eight [assert] conditions of [HistoricalDataRequest.get]. *)
Definition historical_checks
           (tickers fields start_date end_date periodicity max_data_points
            fill_option fill_method : value) : list bool :=
  [instance_of tickers c_list;
   instance_of fields c_list;
   in_strings periodicity
     ["DAILY"; "WEEKLY"; "MONTHLY"; "QUARTERLY"; "SEMI-ANNUAL"; "YEARLY"]%string;
   instance_of start_date c_datetime;
   instance_of end_date c_datetime;
   instance_of max_data_points c_int;
   in_strings fill_option
     ["NON_TRADING_WEEKDAYS"; "ALL_CALENDAR_DAYS"; "ACTIVE_DAYS_ONLY"]%string;
   in_strings fill_method ["PREVIOUS_VALUE"; "NIL_VALUE"]%string].

(** The calls that open the service and create a request of one type. *)
Definition opening_calls (request_type : string) : list call :=
  [start; openService ServiceType.DEFAULT_SVC; getService ServiceType.DEFAULT_SVC;
   createRequest request_type].

(** The calls [HistoricalDataRequest.get] makes up to and including
    [sendRequest] when no call raises. *)
Definition historical_request_calls
           (tickers fields : list value) (start_date end_date : temporal)
           (periodicity max_data_points fill_option fill_method : value)
  : list call :=
  opening_calls RequestType.HISTORICAL_DATA
    ++ map (append "securities") tickers ++ map (append "fields") fields
    ++ [set "periodicityAdjustment" (VStr "ACTUAL");
        set "periodicitySelection" periodicity;
        set "startDate" (VStr (fmt_compact_date start_date));
        set "endDate" (VStr (fmt_compact_date end_date));
        set "maxDataPoints" max_data_points;
        set "nonTradingDayFillOption" fill_option;
        set "nonTradingDayFillMethod" fill_method;
        sendRequest].

(** How a request ends once [sendRequest] has returned, after the calls
    [sent]: with what the event loop gives and [stop] called, or still
    waiting for events. *)
Definition answered (w : world) (request_type : string) (sent : list call)
  : list call * outcome value :=
  match SessionFactory.process_session
          (SessionFactory.mkSessionFactory (events w) (reply w) request_type) with
  | Some (Ok output) => (sent ++ [stop], Returned (VDict output))
  | Some (Raise e) => (sent ++ [stop], Raised e)
  | None => (sent, Waiting)
  end.

Module Examples.

(** One field exception: a field id and the category of its error. *)
Definition field_exception (field_id category : string) : Element :=
  Samples.record "fieldExceptions"
    [Samples.text "fieldId" field_id;
     Samples.record "errorInfo" [Samples.text "category" category]].

(** Two fields rejected for the same reason. *)
Definition two_bad_fields : Element :=
  Samples.array "fieldExceptions"
    [field_exception "PX_BAD" "BAD_FLD"; field_exception "VOLUME_BAD" "BAD_FLD"].

(** A byte-array field. *)
Definition raw_bytes : Element :=
  mkElement "RAW" BYTEARRAY false true [SBytes "b'\x00\x01'"] [].

(** The field data of one security: two scalar fields. *)
Definition two_fields : Element :=
  Samples.record "fieldData"
    [Samples.text "NAME" "APPLE INC"; Samples.text "CRNCY" "USD"].

(** A float field. *)
Definition number (n v : string) : Element :=
  mkElement n FLOAT64 false true [SFloat v] [].

(** A date-valued element. *)
Definition day (n : string) (y m d : nat) : Element :=
  mkElement n DATE false true [STemporal (a_date y m d)] [].

(** A historical response for one security with two daily rows. *)
Definition two_days : Message :=
  mkMessage [7%Z] "HistoricalDataResponse"
    (Samples.record "HistoricalDataResponse"
       [Samples.record "securityData"
          [Samples.text "security" "IBM US Equity";
           Samples.array "fieldData"
             [Samples.record "fieldData" [day "date" 2023 1 30; number "PX_LAST" "134.4"];
              Samples.record "fieldData" [day "date" 2023 1 31; number "PX_LAST" "134.7"]]]]).

(** A time-valued element. *)
Definition clock (n : string) (h m : nat) : Element :=
  mkElement n DATETIME false true [STemporal (a_datetime 2023 1 31 h m 0 0)] [].


(** An intraday response whose second bar has no time. *)
Definition untimed_bar : Message :=
  mkMessage [7%Z] "IntradayBarResponse"
    (Samples.record "IntradayBarResponse"
       [Samples.record "barData"
          [Samples.array "barTickData"
             [Samples.record "barTickData" [clock "time" 9 30; number "open" "134.4"];
              Samples.record "barTickData" [number "open" "134.5"]]]]).

(** A reference response for one security, and a later one for the same
    security that carries another field. *)
Definition name_part : Message :=
  mkMessage [7%Z; 8%Z] "ReferenceDataResponse"
    (Samples.record "ReferenceDataResponse"
       [Samples.array "securityData"
          [Samples.record "securityData"
             [Samples.text "security" "IBM US Equity";
              Samples.record "fieldData" [Samples.text "NAME" "IBM"];
              Samples.array "fieldExceptions" []]]]).

(** A date field. *)
Definition settle_date : Element :=
  mkElement "SETTLE_DT" DATE false true [STemporal (a_date 2023 1 31)] [].

(** A provider that answers a historical request with [two_days]. *)
Definition reachable : world :=
  mkWorld true (fun _ _ => None) 7%Z [mkEvent RESPONSE [two_days]].

(** A provider whose session does not start. *)
Definition unreachable : world :=
  mkWorld false (fun _ _ => None) 7%Z [].

(** [datetime.date(2023, 1, 1)] *)
Definition new_year_day : value := VScalar (STemporal (a_date 2023 1 1)).

End Examples.

(* ================================================================== *)
(** ** Induction principles for the nested types *)
(* ================================================================== *)

Section ValueInduction.

Variable P : value -> Prop.
Hypothesis Hscalar : forall s, P (VScalar s).
Hypothesis Hdict : forall items, Forall (fun kv => P (snd kv)) items -> P (VDict items).
Hypothesis Hlist : forall l, Forall P l -> P (VList l).
Hypothesis Hclass : forall c, P (VClass c).

Fixpoint value_nested_ind (v : value) : P v :=
  match v with
  | VScalar s => Hscalar s
  | VDict items =>
      Hdict
        ((fix all (l : list (scalar * value)) : Forall (fun kv => P (snd kv)) l :=
            match l with
            | [] => Forall_nil _
            | kv :: l' => Forall_cons kv (value_nested_ind (snd kv)) (all l')
            end) items)
  | VList l =>
      Hlist
        ((fix all (l : list value) : Forall P l :=
            match l with
            | [] => Forall_nil _
            | x :: l' => Forall_cons x (value_nested_ind x) (all l')
            end) l)
  | VClass c => Hclass c
  end.

End ValueInduction.

Section ElementInduction.

Variable P : Element -> Prop.
Hypothesis Hstep :
  forall n d a v vs ks, Forall P ks -> P (mkElement n d a v vs ks).

Fixpoint Element_nested_ind (e : Element) : P e :=
  match e with
  | mkElement n d a v vs ks =>
      Hstep n d a v vs
        ((fix all (l : list Element) : Forall P l :=
            match l with
            | [] => Forall_nil _
            | k :: l' => Forall_cons k (Element_nested_ind k) (all l')
            end) ks)
  end.

End ElementInduction.

(* ================================================================== *)
(** * Theorems *)
(* ================================================================== *)


(** ** The structural flattener *)

Lemma flatten_not_dict (obj : value) :
  (forall d, obj <> VDict d) -> SessionFactory._flatten_dict obj = obj.
Proof.
  destruct obj as [s | items | l | c]; intros H; try reflexivity.
  exfalso; apply (H items); reflexivity.
Qed.

Lemma flatten_many_keys (kv1 kv2 : scalar * value) (rest : dict) :
  SessionFactory._flatten_dict (VDict (kv1 :: kv2 :: rest)) = VDict (kv1 :: kv2 :: rest).
Proof. destruct kv1; reflexivity. Qed.

Lemma flatten_empty : SessionFactory._flatten_dict (VDict []) = VNone.
Proof. reflexivity. Qed.

Lemma flatten_one_key (k : scalar) (v : value) :
  SessionFactory._flatten_dict (VDict [(k, v)]) =
  if one_key v then v else SessionFactory._flatten_dict v.
Proof.
  destruct v as [s | [| kv [| kv' rest]] | l | c]; reflexivity.
Qed.

(** The flattener never returns the empty mapping. *)
Lemma flatten_never_empty (obj : value) :
  SessionFactory._flatten_dict obj <> VDict [].
Proof.
  induction obj as [s | items IH | l _ | c] using value_nested_ind; try discriminate.
  destruct items as [| [k v] [| kv' rest]].
  - discriminate.
  - rewrite flatten_one_key.
    inversion IH as [| ? ? Hv _]; subst; simpl in Hv.
    destruct (one_key v) eqn:E; [| exact Hv].
    destruct v as [s | [| kv [| kv' rest]] | l | c]; discriminate.
  - rewrite flatten_many_keys; discriminate.
Qed.

(** Flattening never grows a value. *)
Lemma flatten_size (obj : value) :
  vsize (SessionFactory._flatten_dict obj) <= vsize obj.
Proof.
  induction obj as [s | items IH | l _ | c] using value_nested_ind; try (simpl; lia).
  destruct items as [| [k v] [| kv' rest]].
  - simpl; lia.
  - rewrite flatten_one_key.
    inversion IH as [| ? ? Hv _]; subst; simpl in Hv.
    destruct (one_key v); simpl; lia.
  - rewrite flatten_many_keys; lia.
Qed.

(** A one-key mapping is never a fixed point of the flattener. *)
Lemma flatten_one_key_moves (obj : value) :
  one_key obj = true -> SessionFactory._flatten_dict obj <> obj.
Proof.
  destruct obj as [s | [| [k v] [| kv' rest]] | l | c]; try discriminate.
  intros _ H.
  assert (Hs : vsize (SessionFactory._flatten_dict (VDict [(k, v)])) <= vsize v).
  { rewrite flatten_one_key. destruct (one_key v); [lia | apply flatten_size]. }
  rewrite H in Hs. simpl in Hs. lia.
Qed.

(** C5, as stated, fails: flattening [{'a': {'b': 1}}] gives [{'b': 1}],
    and flattening that again gives [1]. *)
Lemma flatten_not_idempotent :
  SessionFactory._flatten_dict (SessionFactory._flatten_dict Samples.wrapped)
  <> SessionFactory._flatten_dict Samples.wrapped.
Proof. vm_compute. discriminate. Qed.

(** Flattening twice differs from flattening once whenever the flattened
    form is a one-key mapping. *)
Lemma flatten_twice_differs (x : value) :
  one_key (SessionFactory._flatten_dict x) = true ->
  SessionFactory._flatten_dict (SessionFactory._flatten_dict x)
  <> SessionFactory._flatten_dict x.
Proof. apply flatten_one_key_moves. Qed.

Lemma flatten_twice_same (x : value) :
  one_key (SessionFactory._flatten_dict x) = false ->
  SessionFactory._flatten_dict (SessionFactory._flatten_dict x)
  = SessionFactory._flatten_dict x.
Proof.
  intros H.
  pose proof (flatten_never_empty x) as Hne.
  destruct (SessionFactory._flatten_dict x) as [s | [| kv [| kv' rest]] | l | c];
    try reflexivity.
  - exfalso; apply Hne; reflexivity.
  - simpl in H; discriminate.
  - apply flatten_many_keys.
Qed.

(** C5, amended: flattening twice equals flattening once exactly for the
    inputs whose flattened form is not a one-key mapping; the flattener
    leaves non-mappings and mappings of several keys unchanged, and on a
    one-key mapping returns the value when that is a one-key mapping and
    otherwise flattens the value. *)
Theorem flatten_idempotent_unless_one_key :
  (forall x,
      SessionFactory._flatten_dict (SessionFactory._flatten_dict x)
      = SessionFactory._flatten_dict x
      <-> one_key (SessionFactory._flatten_dict x) = false)
  /\ (forall obj, (forall d, obj <> VDict d) -> SessionFactory._flatten_dict obj = obj)
  /\ (forall kv1 kv2 rest,
         SessionFactory._flatten_dict (VDict (kv1 :: kv2 :: rest))
         = VDict (kv1 :: kv2 :: rest))
  /\ (forall k v,
         SessionFactory._flatten_dict (VDict [(k, v)])
         = if one_key v then v else SessionFactory._flatten_dict v).
Proof.
  split; [| split; [| split]].
  - intros x. split.
    + intros H. destruct (one_key (SessionFactory._flatten_dict x)) eqn:E; [| reflexivity].
      exfalso. exact (flatten_twice_differs x E H).
    + apply flatten_twice_same.
  - apply flatten_not_dict.
  - apply flatten_many_keys.
  - apply flatten_one_key.
Qed.

Lemma flatten_idempotent_unless_one_key_witness :
  SessionFactory._flatten_dict (SessionFactory._flatten_dict Samples.two_keys)
  = SessionFactory._flatten_dict Samples.two_keys.
Proof.
  apply (proj1 flatten_idempotent_unless_one_key Samples.two_keys). reflexivity.
Defined.

(** ** Session.__init__ *)

(** C10: whatever host and port the caller passes, [__init__] stores
    ['localhost'] and [8194], and configures the session options with
    them: each default is the left operand of [or] and is truthy. *)
Theorem session_init_ignores_arguments (host port : value) :
  Session.host (Session.__init__ host port) = VStr "localhost"
  /\ Session.port (Session.__init__ host port) = VInt 8194
  /\ Session.server (Session.__init__ host port) = (VStr "localhost", VInt 8194).
Proof. repeat split. Qed.

(** ** The scalar type decoder *)

Lemma subscript_class (c : exn) (i : nat) : subscript (VClass c) i = Raise TypeError.
Proof. reflexivity. Qed.

(** C6, the defect: for an element of kind correlation-id or enumeration
    the handler returns the class [NotImplementedError] as a value and
    raises nothing; [_field_factory] then fails with the [TypeError] of
    subscripting that class, so no not-implemented condition is signalled. *)
Theorem field_factory_unsupported_kind (data : Element) :
  datatype data = CORRELATION_ID \/ datatype data = ENUMERATION ->
  DataTypeFactory.process_correlation_id data = Ok (VClass NotImplementedError)
  /\ DataTypeFactory.process_enumeration data = Ok (VClass NotImplementedError)
  /\ SessionFactory._field_factory data = Raise TypeError
  /\ SessionFactory._field_factory data <> Raise NotImplementedError.
Proof.
  intros H.
  assert (Hf : SessionFactory._field_factory data = Raise TypeError).
  { unfold SessionFactory._field_factory.
    destruct H as [H | H]; rewrite H; reflexivity. }
  repeat split; try assumption.
  rewrite Hf; discriminate.
Qed.

Lemma field_factory_unsupported_kind_witness :
  SessionFactory._field_factory Samples.enum_element = Raise TypeError.
Proof.
  apply (field_factory_unsupported_kind Samples.enum_element).
  right; reflexivity.
Defined.

(** The kinds with a working handler do return a [name, value] pair. *)
Lemma field_factory_passthrough (data : Element) (v : scalar) :
  In (datatype data) [BOOL; BYTE; BYTEARRAY; CHAR; DECIMAL; FLOAT32; FLOAT64;
                      INT32; INT64; STRING] ->
  getValue data = Ok v ->
  SessionFactory._field_factory data = Ok (VList [VStr (name data); VScalar v]).
Proof.
  intros Hin Hv. unfold SessionFactory._field_factory.
  destruct (datatype data); simpl in Hin;
    try (exfalso; intuition discriminate);
    simpl;
    unfold DataTypeFactory.process_bool, DataTypeFactory.process_byte,
      DataTypeFactory.process_byte_array, DataTypeFactory.process_char,
      DataTypeFactory.process_scalar, DataTypeFactory.process_string;
    rewrite Hv; reflexivity.
Qed.

(** ** IntradayBarRequest.get *)

(** C8: for all arguments and whatever the provider would answer, the
    call raises [TypeError] in its validation block, at the one-argument
    call of [isinstance], and has made no call to the provider: the trace
    is unchanged. *)
Theorem intraday_get_raises_TypeError
        (ticker event_type interval start_date end_date max_data_points : value)
        (w : world) (tr : list call) :
  IntradayBarRequest.validate ticker event_type interval start_date end_date
    max_data_points = Raise TypeError
  /\ IntradayBarRequest.get ticker event_type interval start_date end_date
       max_data_points w tr = (tr, Raised TypeError).
Proof. split; reflexivity. Qed.

(** ** Running a request against a provider *)

Lemma seq_returned {A B} (m : prog A) (k : A -> prog B) (w : world)
      (tr tr' : list call) (a : A) :
  m w tr = (tr', Returned a) -> Provider.seq m k w tr = k a w tr'.
Proof. intros H. unfold Provider.seq. rewrite H. reflexivity. Qed.
Arguments seq_returned {A B m} k {w tr tr' a} _.

Lemma seq_raised {A B} (m : prog A) (k : A -> prog B) (w : world)
      (tr tr' : list call) (e : exn) :
  m w tr = (tr', Raised e) -> Provider.seq m k w tr = (tr', Raised e).
Proof. intros H. unfold Provider.seq. rewrite H. reflexivity. Qed.
Arguments seq_raised {A B m} k {w tr tr' e} _.

Lemma each_cons {A} (x : A) (xs : list A) (body : A -> prog unit) :
  each (x :: xs) body = Provider.seq (body x) (fun _ => each xs body).
Proof. reflexivity. Qed.

Section QuietProvider.

Variable w : world.
Hypothesis Hquiet : quiet w.

Lemma invoke_quiet (c : call) (tr : list call) :
  invoke c w tr = (tr ++ [c], Returned tt).
Proof. unfold invoke. rewrite Hquiet. reflexivity. Qed.

Lemma each_invoke_quiet {A} (f : A -> call) (xs : list A) (tr : list call) :
  each xs (fun x => invoke (f x)) w tr = (tr ++ map f xs, Returned tt).
Proof.
  revert tr. induction xs as [| x xs IH]; intros tr.
  - simpl. rewrite app_nil_r. reflexivity.
  - rewrite each_cons, (seq_returned _ (invoke_quiet (f x) tr)), IH.
    simpl. rewrite <- app_assoc. reflexivity.
Qed.

Lemma create_quiet (r : Request.t) (tr : list call) :
  Request.create r w tr =
  (tr ++ [openService (Request.service_name r); getService (Request.service_name r);
          createRequest (Request.request_type r)], Returned tt).
Proof.
  unfold Request.create.
  rewrite (seq_returned _ (invoke_quiet _ tr)).
  rewrite (seq_returned _ (invoke_quiet _ _)).
  rewrite invoke_quiet. repeat rewrite <- app_assoc. reflexivity.
Qed.

Lemma start_quiet (s : Session.t) (tr : list call) :
  start_result w = true ->
  Session.start s w tr = (tr ++ [start], Returned tt).
Proof.
  intros Hs. unfold Session.start.
  rewrite (seq_returned _ (invoke_quiet _ tr)).
  unfold Provider.seq, ask. rewrite Hs. reflexivity.
Qed.

Lemma is_str_false (field_id : value) (s : string) :
  field_id <> VStr s -> ReferenceDataRequest.is_str field_id s = false.
Proof.
  intros H. destruct field_id as [[| | | | x | |] | | |]; try reflexivity.
  simpl. destruct (String.eqb_spec x s); [subst; contradiction H; reflexivity | reflexivity].
Qed.

(** The override loop of [ReferenceDataRequest.get] when no key is
    ['CURVE_DATE']. *)
Lemma overrides_quiet (d : dict) (tr : list call) :
  (forall k v, In (k, v) d -> k <> SStr "CURVE_DATE") ->
  each d
    (fun kv =>
       let field_id := VScalar (fst kv) in
       let val := snd kv in
       (invoke (appendElement "overrides") ;;
        invoke (setElement "fieldId" field_id) ;;
        v <- lift (ReferenceDataRequest.format_override field_id val) ;;
        invoke (setElement "value" v))%prog) w tr
  = (tr ++ flat_map override_calls d, Returned tt).
Proof.
  revert tr. induction d as [| [k v] d IH]; intros tr Hk.
  - simpl. rewrite app_nil_r. reflexivity.
  - rewrite each_cons.
    assert (Hkv : k <> SStr "CURVE_DATE") by (apply (Hk k v); left; reflexivity).
    erewrite seq_returned.
    2:{ cbv zeta. rewrite (seq_returned _ (invoke_quiet _ tr)).
        rewrite (seq_returned _ (invoke_quiet _ _)).
        unfold ReferenceDataRequest.format_override.
        rewrite is_str_false by (intros E; apply Hkv; inversion E; reflexivity).
        unfold Provider.seq at 1, lift.
        rewrite invoke_quiet. reflexivity. }
    rewrite IH by (intros k' v' Hin; apply (Hk k' v'); right; exact Hin).
    simpl. repeat rewrite <- app_assoc. reflexivity.
Qed.

(** The calls of [ReferenceDataRequest.get] up to and including
    [sendRequest], against a quiet provider. *)
Lemma reference_get_quiet (tickers fields : list value) (d : dict) :
  start_result w = true ->
  (forall k v, In (k, v) d -> k <> SStr "CURVE_DATE") ->
  ReferenceDataRequest.get (VList tickers) (VList fields) (VDict d) w []
  = try_finally
      (run_process_session (reply w) RequestType.REFERENCE_DATA) (invoke stop) w
      ([start; openService ServiceType.DEFAULT_SVC; getService ServiceType.DEFAULT_SVC;
        createRequest RequestType.REFERENCE_DATA]
         ++ map (append "securities") tickers ++ map (append "fields") fields
         ++ flat_map override_calls d ++ [sendRequest]).
Proof.
  intros Hs Hk.
  unfold ReferenceDataRequest.get.
  assert (Hv : ReferenceDataRequest.validate (VList tickers) (VList fields) (VDict d) = Ok tt).
  { destruct d; reflexivity. }
  rewrite (seq_returned (tr' := []) (a := tt) _) by (unfold lift; rewrite Hv; reflexivity).
  rewrite (seq_returned _ (start_quiet _ _ Hs)).
  rewrite (seq_returned _ (create_quiet _ _)).
  unfold iterable at 1.
  rewrite (seq_returned (m := lift (Ok tickers)) (a := tickers) _ (eq_refl)).
  rewrite (seq_returned _ (each_invoke_quiet _ _ _)).
  unfold iterable.
  rewrite (seq_returned (m := lift (Ok fields)) (a := fields) _ (eq_refl)).
  rewrite (seq_returned _ (each_invoke_quiet _ _ _)).
  set (tr0 := (((([] ++ [start]) ++ _) ++ _) ++ _)).
  erewrite seq_returned.
  2:{ instantiate (1 := tt). instantiate (1 := tr0 ++ flat_map override_calls d).
      destruct d as [| kv d'].
      - simpl. rewrite app_nil_r. reflexivity.
      - change (truthy (VDict (kv :: d'))) with true. cbv iota.
        rewrite (seq_returned (m := lift (ReferenceDataRequest.items (VDict (kv :: d'))))
                   (a := kv :: d') _ (eq_refl)).
        apply overrides_quiet. exact Hk. }
  rewrite (seq_returned _ (invoke_quiet _ _)).
  rewrite (seq_returned (m := ask reply) (a := reply w) _ (eq_refl)).
  f_equal. subst tr0. simpl. repeat rewrite <- app_assoc. reflexivity.
Qed.

End QuietProvider.

(** The [finally] block adds one [stop] when the event loop ends, and
    nothing while it is still waiting. *)
Lemma finally_stop (cid : CorrelationId) (rt : string) (w : world) (tr : list call) :
  fst (try_finally (run_process_session cid rt) (invoke stop) w tr)
  = match SessionFactory.process_session
            (SessionFactory.mkSessionFactory (events w) cid rt) with
    | None => tr
    | Some _ => tr ++ [stop]
    end.
Proof.
  unfold try_finally, run_process_session, invoke.
  destruct (SessionFactory.process_session _) as [[output | e] |];
    destruct (failure w tr stop); reflexivity.
Qed.

Lemma override_values_app (a b : list call) :
  override_values (a ++ b) = override_values a ++ override_values b.
Proof. apply flat_map_app. Qed.

Lemma override_values_appends (n : string) (l : list value) :
  override_values (map (append n) l) = [].
Proof. induction l as [| x l IH]; [reflexivity | exact IH]. Qed.

Lemma override_values_overrides (d : dict) :
  override_values (flat_map override_calls d) = map (fun _ => VNone) d.
Proof.
  induction d as [| kv d IH]; [reflexivity |].
  change (flat_map override_calls (kv :: d))
    with (override_calls kv ++ flat_map override_calls d).
  rewrite override_values_app, IH. reflexivity.
Qed.

(** ** ReferenceDataRequest.format_override *)

Lemma zero_pad_4_length (n : nat) :
  1000 <= n <= MAXYEAR -> String.length (zero_pad 4 n) = 4.
Proof.
  intros H.
  assert (Hall : forallb (fun n => Nat.eqb (String.length (zero_pad 4 n)) 4)
                         (List.seq 1000 (9 * 1000)) = true) by (vm_compute; reflexivity).
  rewrite forallb_forall in Hall.
  apply Nat.eqb_eq, Hall, in_seq. unfold MAXYEAR in H. lia.
Qed.

Lemma zero_pad_2_length (n : nat) :
  n <= 99 -> String.length (zero_pad 2 n) = 2.
Proof.
  intros H.
  assert (Hall : forallb (fun n => Nat.eqb (String.length (zero_pad 2 n)) 2)
                         (List.seq 0 100) = true) by (vm_compute; reflexivity).
  rewrite forallb_forall in Hall.
  apply Nat.eqb_eq, Hall, in_seq. lia.
Qed.

Lemma string_length_app (a b : string) :
  String.length (a ++ b)%string = String.length a + String.length b.
Proof. induction a as [| c a IH]; simpl; [reflexivity | rewrite IH; reflexivity]. Qed.

(** The override loop of [ReferenceDataRequest.get] when
    [format_override] returns for every entry. *)
Lemma overrides_sent (w : world) (d : dict) (tr : list call) :
  quiet w ->
  Forall (fun kv => exists v,
              ReferenceDataRequest.format_override (VScalar (fst kv)) (snd kv) = Ok v) d ->
  each d
    (fun kv =>
       let field_id := VScalar (fst kv) in
       let val := snd kv in
       (invoke (appendElement "overrides") ;;
        invoke (setElement "fieldId" field_id) ;;
        v <- lift (ReferenceDataRequest.format_override field_id val) ;;
        invoke (setElement "value" v))%prog) w tr
  = (tr ++ flat_map sent_override d, Returned tt).
Proof.
  intros Hq. revert tr. induction d as [| kv d IH]; intros tr Hf.
  - simpl. rewrite app_nil_r. reflexivity.
  - inversion Hf as [| ? ? [v Hv] Hrest]; subst.
    rewrite each_cons.
    erewrite seq_returned.
    2:{ cbv zeta. rewrite (seq_returned _ (@invoke_quiet w Hq _ tr)).
        rewrite (seq_returned _ (@invoke_quiet w Hq _ _)).
        rewrite Hv. unfold Provider.seq at 1, lift.
        rewrite (@invoke_quiet w Hq). reflexivity. }
    rewrite IH by exact Hrest.
    change (flat_map sent_override (kv :: d))
      with ([appendElement "overrides"; setElement "fieldId" (VScalar (fst kv));
             setElement "value" (formatted kv)] ++ flat_map sent_override d).
    unfold formatted. rewrite Hv.
    simpl. repeat rewrite <- app_assoc. reflexivity.
Qed.

(** The calls of [ReferenceDataRequest.get] up to and including
    [sendRequest], against a quiet provider, when [format_override]
    returns for every override. *)
Lemma reference_get_sent (w : world) (tickers fields : list value) (d : dict) :
  quiet w ->
  start_result w = true ->
  Forall (fun kv => exists v,
              ReferenceDataRequest.format_override (VScalar (fst kv)) (snd kv) = Ok v) d ->
  ReferenceDataRequest.get (VList tickers) (VList fields) (VDict d) w []
  = try_finally
      (run_process_session (reply w) RequestType.REFERENCE_DATA) (invoke stop) w
      ([start; openService ServiceType.DEFAULT_SVC; getService ServiceType.DEFAULT_SVC;
        createRequest RequestType.REFERENCE_DATA]
         ++ map (append "securities") tickers ++ map (append "fields") fields
         ++ flat_map sent_override d ++ [sendRequest]).
Proof.
  intros Hq Hs Hf.
  unfold ReferenceDataRequest.get.
  assert (Hv : ReferenceDataRequest.validate (VList tickers) (VList fields) (VDict d) = Ok tt).
  { destruct d; reflexivity. }
  rewrite (seq_returned (tr' := []) (a := tt) _) by (unfold lift; rewrite Hv; reflexivity).
  rewrite (seq_returned _ (@start_quiet w Hq _ _ Hs)).
  rewrite (seq_returned _ (@create_quiet w Hq _ _)).
  unfold iterable at 1.
  rewrite (seq_returned (m := lift (Ok tickers)) (a := tickers) _ (eq_refl)).
  rewrite (seq_returned _ (@each_invoke_quiet w Hq _ _ _ _)).
  unfold iterable.
  rewrite (seq_returned (m := lift (Ok fields)) (a := fields) _ (eq_refl)).
  rewrite (seq_returned _ (@each_invoke_quiet w Hq _ _ _ _)).
  set (tr0 := (((([] ++ [start]) ++ _) ++ _) ++ _)).
  erewrite seq_returned.
  2:{ instantiate (1 := tt). instantiate (1 := tr0 ++ flat_map sent_override d).
      destruct d as [| kv d'].
      - simpl. rewrite app_nil_r. reflexivity.
      - change (truthy (VDict (kv :: d'))) with true. cbv iota.
        rewrite (seq_returned (m := lift (ReferenceDataRequest.items (VDict (kv :: d'))))
                   (a := kv :: d') _ (eq_refl)).
        apply overrides_sent; assumption. }
  rewrite (seq_returned _ (@invoke_quiet w Hq _ _)).
  rewrite (seq_returned (m := ask reply) (a := reply w) _ (eq_refl)).
  f_equal. subst tr0. simpl. repeat rewrite <- app_assoc. reflexivity.
Qed.

Lemma override_values_sent (d : dict) :
  override_values (flat_map sent_override d) = map formatted d.
Proof.
  induction d as [| kv d IH]; [reflexivity |].
  change (flat_map sent_override (kv :: d))
    with (sent_override kv ++ flat_map sent_override d).
  rewrite override_values_app, IH. reflexivity.
Qed.

Lemma formatted_other (kv : scalar * value) :
  fst kv <> SStr "CURVE_DATE" -> formatted kv = VNone.
Proof.
  intros H. unfold formatted, ReferenceDataRequest.format_override.
  rewrite is_str_false; [reflexivity |].
  intros E. apply H. inversion E. reflexivity.
Qed.

Lemma format_override_returns (d : dict) :
  (forall v, In (SStr "CURVE_DATE", v) d -> exists t, v = VScalar (STemporal t)) ->
  Forall (fun kv => exists v,
              ReferenceDataRequest.format_override (VScalar (fst kv)) (snd kv) = Ok v) d.
Proof.
  intros H. apply Forall_forall. intros [k v] Hin. cbn [fst snd].
  destruct (scalar_eq_dec k (SStr "CURVE_DATE")) as [-> | N].
  - destruct (H v Hin) as [t ->]. eexists. reflexivity.
  - exists VNone. unfold ReferenceDataRequest.format_override.
    rewrite is_str_false; [reflexivity |].
    intros E. apply N. inversion E. reflexivity.
Qed.

(** C9: [format_override] returns [None] for every field id other than
    ['CURVE_DATE'] and every value.  So in the request sent to a provider
    that answers every call, one value is written per override, in the
    order of the overrides, and the value of every override whose field
    id is not ['CURVE_DATE'] is [None], whatever the overrides of
    ['CURVE_DATE'] hold (a temporal object, so that the request is sent).
    For ['CURVE_DATE'] and a date within Python's field ranges with a
    year of four digits, it returns the eight digits YYYYMMDD. *)
Theorem format_override_only_curve_date :
  (forall field_id val : value,
      field_id <> VStr "CURVE_DATE" ->
      ReferenceDataRequest.format_override field_id val = Ok VNone)
  /\ (forall (tickers fields : list value) (d : dict) (w : world),
         quiet w -> start_result w = true ->
         (forall v, In (SStr "CURVE_DATE", v) d -> exists t, v = VScalar (STemporal t)) ->
         Forall2 (fun kv v => fst kv <> SStr "CURVE_DATE" -> v = VNone)
           d
           (override_values
              (fst (ReferenceDataRequest.get (VList tickers) (VList fields) (VDict d)
                      w []))))
  /\ (forall t : temporal,
         calendar t ->
         exists text,
           ReferenceDataRequest.format_override (VStr "CURVE_DATE")
             (VScalar (STemporal t)) = Ok (VStr text)
           /\ text = (zero_pad 4 (year_of t) ++ zero_pad 2 (month_of t)
                        ++ zero_pad 2 (day_of t))%string
           /\ String.length text = 8).
Proof.
  split; [| split].
  - intros field_id val H. unfold ReferenceDataRequest.format_override.
    rewrite is_str_false by exact H. reflexivity.
  - intros tickers fields d w Hq Hs Hk.
    rewrite (@reference_get_sent w tickers fields d Hq Hs (format_override_returns d Hk)),
      finally_stop.
    assert (Hpre : override_values
                     ([start; openService ServiceType.DEFAULT_SVC;
                       getService ServiceType.DEFAULT_SVC;
                       createRequest RequestType.REFERENCE_DATA]
                        ++ map (append "securities") tickers ++ map (append "fields") fields
                        ++ flat_map sent_override d ++ [sendRequest])
                   = map formatted d).
    { repeat rewrite override_values_app.
      repeat rewrite override_values_appends.
      rewrite override_values_sent. simpl. apply app_nil_r. }
    assert (Hall : Forall2 (fun kv v => fst kv <> SStr "CURVE_DATE" -> v = VNone)
                     d (map formatted d)).
    { clear. induction d as [| kv d IH]; cbn [map]; constructor; [| exact IH].
      apply formatted_other. }
    destruct (SessionFactory.process_session _).
    + cbv beta iota. rewrite override_values_app, Hpre.
      change (override_values [stop]) with (@nil value). rewrite app_nil_r. exact Hall.
    + rewrite Hpre. exact Hall.
  - intros t Hc. eexists. split; [reflexivity |]. split; [reflexivity |].
    destruct Hc as [Hy [Hm [Hd _]]]. unfold fmt_compact_date.
    repeat rewrite string_length_app.
    rewrite (zero_pad_4_length Hy), (@zero_pad_2_length (month_of t)),
      (@zero_pad_2_length (day_of t)) by lia.
    reflexivity.
Qed.

Lemma format_override_only_curve_date_witness :
  ReferenceDataRequest.format_override (VStr "PX_LAST") (VInt 3) = Ok VNone
  /\ Forall2 (fun kv v => fst kv <> SStr "CURVE_DATE" -> v = VNone)
       [(SStr "SETTLE_DT", Samples.new_year); (SStr "CURVE_DATE", Samples.new_year)]
       (override_values
          (fst (ReferenceDataRequest.get (VList [VStr "IBM US Equity"])
                  (VList [VStr "PX_LAST"])
                  (VDict [(SStr "SETTLE_DT", Samples.new_year);
                          (SStr "CURVE_DATE", Samples.new_year)])
                  Samples.silent [])))
  /\ exists text,
       ReferenceDataRequest.format_override (VStr "CURVE_DATE") Samples.new_year
       = Ok (VStr text)
       /\ text = "20230101"
       /\ String.length text = 8.
Proof.
  split; [| split].
  - apply (proj1 format_override_only_curve_date). discriminate.
  - apply (proj1 (proj2 format_override_only_curve_date)
             [VStr "IBM US Equity"] [VStr "PX_LAST"]
             [(SStr "SETTLE_DT", Samples.new_year); (SStr "CURVE_DATE", Samples.new_year)]
             Samples.silent).
    + intros tr c. reflexivity.
    + reflexivity.
    + intros v [H | [H | []]]; inversion H. eexists. reflexivity.
  - apply (proj2 (proj2 format_override_only_curve_date)
             (a_datetime 2023 1 1 0 0 0 0)).
    unfold calendar, MAXYEAR.
    cbn [year_of month_of day_of hour_of minute_of second_of]. lia.
Defined.

(** ** Releasing the session *)

Lemma stops_app (a b : list call) : stops (a ++ b) = stops a + stops b.
Proof. unfold stops. rewrite filter_app, length_app. reflexivity. Qed.



Lemma stopless_lift {A} (r : result A) : stopless (lift r).
Proof. intros w tr. reflexivity. Qed.

Lemma stopless_ret {A} (a : A) : stopless (ret a).
Proof. intros w tr. reflexivity. Qed.

Lemma stopless_ask {A} (f : world -> A) : stopless (ask f).
Proof. intros w tr. reflexivity. Qed.

Lemma stopless_raise {A} (e : exn) : stopless (@raise A e).
Proof. intros w tr. reflexivity. Qed.

Lemma stopless_invoke (c : call) : call_eq_stop c = false -> stopless (invoke c).
Proof.
  intros H w tr. unfold invoke. simpl. rewrite stops_app.
  unfold stops at 2. simpl. rewrite H. simpl. lia.
Qed.

Lemma stopless_seq {A B} (m : prog A) (k : A -> prog B) :
  stopless m -> (forall a, stopless (k a)) -> stopless (Provider.seq m k).
Proof.
  intros Hm Hk w tr. unfold Provider.seq.
  specialize (Hm w tr). destruct (m w tr) as [tr' [a | e |]]; simpl in *.
  - rewrite Hk. exact Hm.
  - exact Hm.
  - exact Hm.
Qed.

Lemma stopless_each {A} (xs : list A) (body : A -> prog unit) :
  (forall x, stopless (body x)) -> stopless (each xs body).
Proof.
  intros Hb. induction xs as [| x xs IH].
  - apply stopless_ret.
  - rewrite each_cons. apply stopless_seq; [apply Hb | intros _; exact IH].
Qed.

Lemma stopless_start (s : Session.t) : stopless (Session.start s).
Proof.
  unfold Session.start.
  apply stopless_seq; [apply stopless_invoke; reflexivity | intros _].
  apply stopless_seq; [apply stopless_ask | intros [|]].
  - apply stopless_ret.
  - apply stopless_raise.
Qed.

Lemma stopless_create (r : Request.t) : stopless (Request.create r).
Proof.
  unfold Request.create.
  repeat (apply stopless_seq; [apply stopless_invoke; reflexivity | intros _]).
  apply stopless_invoke; reflexivity.
Qed.

Lemma stops_on_exit_seq {A B} (m : prog A) (k : A -> prog B) :
  stopless m -> (forall a, stops_on_exit (k a)) -> stops_on_exit (Provider.seq m k).
Proof.
  intros Hm Hk w tr. unfold Provider.seq.
  specialize (Hm w tr). destruct (m w tr) as [tr' [a | e |]]; simpl in Hm.
  - specialize (Hk a w tr'). destruct (k a w tr') as [tr'' [b | e |]]; lia.
  - lia.
  - exact Hm.
Qed.

(** The second [try] block of the three requests: once the request has
    been sent, [stop] is called exactly once when the event loop returns
    or raises. *)
Lemma finally_stops_on_exit (cid : CorrelationId) (rt : string) :
  stops_on_exit (try_finally (run_process_session cid rt) (invoke stop)).
Proof.
  intros w tr. unfold try_finally, run_process_session, invoke.
  destruct (SessionFactory.process_session _) as [[output | e] |];
    destruct (failure w tr stop); cbv beta iota; rewrite ?stops_app;
    change (stops [stop]) with 1; lia.
Qed.

Ltac stopless_steps :=
  repeat first
    [ apply stopless_lift | apply stopless_ask | apply stopless_ret
    | apply stopless_start | apply stopless_create
    | apply stopless_invoke; reflexivity
    | apply stopless_each; intros ?
    | apply stopless_seq; [| intros ?] ].

Ltac stops_on_exit_steps :=
  repeat (apply stops_on_exit_seq; [solve [stopless_steps] | intros ?]);
  try apply finally_stops_on_exit.

Lemma historical_get_stops_on_exit
      (tickers fields start_date end_date periodicity max_data_points
       fill_option fill_method : value) :
  stops_on_exit
    (HistoricalDataRequest.get tickers fields start_date end_date periodicity
       max_data_points fill_option fill_method).
Proof. unfold HistoricalDataRequest.get. stops_on_exit_steps. Qed.

Lemma reference_get_stops_on_exit (tickers fields overrides : value) :
  stops_on_exit (ReferenceDataRequest.get tickers fields overrides).
Proof.
  unfold ReferenceDataRequest.get.
  do 7 (apply stops_on_exit_seq; [solve [stopless_steps] | intros ?]).
  apply stops_on_exit_seq.
  - destruct (truthy overrides); stopless_steps.
  - intros ?. stops_on_exit_steps.
Qed.

(** C7, the defect: [session.stop()] is in the [finally] of the second
    [try] block only.  When the session has started and opening the
    service then fails, both requests raise with the session still
    running: [stop] was never called. *)
Theorem get_leaves_session_running :
  ReferenceDataRequest.get (VList [VStr "IBM US Equity"]) (VList [VStr "PX_LAST"]) VNone
    Samples.no_service []
  = ([start; openService "//blp/refdata"], Raised NotFoundException)
  /\ HistoricalDataRequest.get (VList [VStr "IBM US Equity"]) (VList [VStr "PX_LAST"])
       Samples.new_year Samples.new_year (VStr "DAILY") (VInt 2500)
       (VStr "ACTIVE_DAYS_ONLY") (VStr "NIL_VALUE") Samples.no_service []
     = ([start; openService "//blp/refdata"], Raised NotFoundException)
  /\ stops [start; openService "//blp/refdata"] = 0.
Proof. repeat split. Qed.

(** What the code does guarantee: a request that returns has called
    [stop] exactly once, and no request calls it twice. *)
Lemma stop_once_when_returned (tickers fields overrides : value) (w : world)
      (tr : list call) (v : value) :
  ReferenceDataRequest.get tickers fields overrides w [] = (tr, Returned v) ->
  stops tr = 1.
Proof.
  intros H. pose proof (reference_get_stops_on_exit tickers fields overrides w []) as P.
  rewrite H in P. exact P.
Qed.

(** ** The message decoders: response-level errors *)

Lemma hasElement_getElement (e : Element) (n : string) :
  hasElement e n = true ->
  exists k, getElement e n = Ok k /\ name k = n /\ In k (elements e).
Proof.
  unfold hasElement, getElement. intros H.
  destruct (find (fun k => String.eqb (name k) n) (elements e)) as [k |] eqn:F.
  - exists k. apply find_some in F. destruct F as [Hin Hn].
    apply String.eqb_eq in Hn. auto.
  - apply existsb_exists in H. destruct H as [k [Hin Hn]].
    apply (find_none _ _ F) in Hin. rewrite Hin in Hn. discriminate.
Qed.

Lemma getElement_hasElement (e k : Element) (n : string) :
  getElement e n = Ok k -> hasElement e n = true.
Proof.
  unfold hasElement, getElement. intros H.
  destruct (find (fun k => String.eqb (name k) n) (elements e)) as [k' |] eqn:F;
    [| discriminate].
  apply find_some in F. apply existsb_exists. exists k'. exact F.
Qed.

Lemma for_each_cons {A S} (x : A) (xs : list A) (body : A -> S -> result S) (s : S) :
  for_each (x :: xs) body s = (s' <- body x s ;; for_each xs body s').
Proof. unfold for_each, Py.bind. destruct (body x s); reflexivity. Qed.

Lemma for_each_nil {A S} (body : A -> S -> result S) (s : S) :
  for_each [] body s = Ok s.
Proof. reflexivity. Qed.

(** A response-error element whose sub-elements each hold a scalar value
    is decoded without failure. *)
Lemma response_error_factory_total (e : Element) :
  isComplexType e = true ->
  forallb holds_value (kids e) = true ->
  exists m, SessionFactory._response_error_factory e = Ok m.
Proof.
  intros Hc Hk. unfold SessionFactory._response_error_factory,
    SessionFactory._get_bbg_iterator, elements.
  rewrite Hc.
  assert (Hnarr : isArray e = false).
  { unfold isComplexType in Hc. destruct (isArray e); [| reflexivity].
    rewrite andb_false_r in Hc. discriminate. }
  rewrite Hnarr. cbn [SessionFactory.iter Py.bind].
  generalize (@nil (scalar * value)).
  induction (kids e) as [| k ks IH]; intros acc.
  - exists acc. reflexivity.
  - simpl in Hk. apply andb_true_iff in Hk. destruct Hk as [Hk Hks].
    simpl map. rewrite for_each_cons. cbn [as_element Py.bind].
    unfold holds_value in Hk. apply andb_true_iff in Hk. destruct Hk as [Hd Hv].
    unfold getValue. apply negb_true_iff in Hd. rewrite Hd.
    destruct (vals k) as [| v vs]; [discriminate |].
    cbn [Py.bind]. apply IH. exact Hks.
Qed.

Lemma response_error_decoded (msg : Message) (e : Element) :
  hasElement (asElement msg) RESPONSE_ERROR = true ->
  getElement (asElement msg) RESPONSE_ERROR = Ok e ->
  SessionFactory._process_historical_data_msg msg
  = (m <- SessionFactory._response_error_factory e ;; Ok (None, m))
  /\ SessionFactory._process_ref_data_msg msg
     = (m <- SessionFactory._response_error_factory e ;; Ok (None, m))
  /\ SessionFactory._process_intraday_data_msg msg
     = (m <- SessionFactory._response_error_factory e ;; Ok (None, m)).
Proof.
  intros H He.
  unfold SessionFactory._process_historical_data_msg,
    SessionFactory._process_ref_data_msg, SessionFactory._process_intraday_data_msg.
  rewrite H, He. repeat split.
Qed.

(** C2: a message with a top-level [responseError] element is decoded by
    each of the three decoders to what [_response_error_factory] makes of
    that element, paired with [None]; nothing else of the message is read.
    When the sub-elements of the error each hold a scalar value, that is
    a returned pair [(None, mapping)]. *)
Theorem response_error_short_circuits (msg : Message) :
  hasElement (asElement msg) RESPONSE_ERROR = true ->
  exists e,
    getElement (asElement msg) RESPONSE_ERROR = Ok e
    /\ SessionFactory._process_historical_data_msg msg
       = (m <- SessionFactory._response_error_factory e ;; Ok (None, m))
    /\ SessionFactory._process_ref_data_msg msg
       = (m <- SessionFactory._response_error_factory e ;; Ok (None, m))
    /\ SessionFactory._process_intraday_data_msg msg
       = (m <- SessionFactory._response_error_factory e ;; Ok (None, m))
    /\ (isComplexType e = true -> forallb holds_value (kids e) = true ->
        exists m,
          SessionFactory._process_historical_data_msg msg = Ok (None, m)
          /\ SessionFactory._process_ref_data_msg msg = Ok (None, m)
          /\ SessionFactory._process_intraday_data_msg msg = Ok (None, m)).
Proof.
  intros H. destruct (hasElement_getElement _ _ H) as [e [He _]].
  exists e. split; [exact He |].
  destruct (response_error_decoded msg H He) as [Hh [Hr Hi]].
  repeat split; try assumption.
  intros Hc Hk. destruct (response_error_factory_total e Hc Hk) as [m Hm].
  exists m. rewrite Hh, Hr, Hi, Hm. repeat split.
Qed.

Lemma response_error_short_circuits_witness :
  SessionFactory._process_ref_data_msg Samples.bad_request
  = Ok (None, [(SStr "category", VStr "BAD_ARGS"); (SStr "message", VStr "No securities")]).
Proof.
  destruct (response_error_short_circuits Samples.bad_request eq_refl)
    as [e [He [_ [Hr _]]]].
  rewrite Hr. injection He as <-. reflexivity.
Defined.

(** Two messages with the same [responseError] element are decoded alike,
    whatever else they carry. *)
Corollary response_error_only (m1 m2 : Message) (e : Element) :
  hasElement (asElement m1) RESPONSE_ERROR = true ->
  getElement (asElement m1) RESPONSE_ERROR = Ok e ->
  getElement (asElement m2) RESPONSE_ERROR = Ok e ->
  SessionFactory._process_ref_data_msg m1 = SessionFactory._process_ref_data_msg m2
  /\ SessionFactory._process_historical_data_msg m1
     = SessionFactory._process_historical_data_msg m2
  /\ SessionFactory._process_intraday_data_msg m1
     = SessionFactory._process_intraday_data_msg m2.
Proof.
  intros H1 G1 G2.
  pose proof (getElement_hasElement _ _ G2) as H2.
  destruct (response_error_decoded m1 H1 G1) as [A1 [B1 C1]].
  destruct (response_error_decoded m2 H2 G2) as [A2 [B2 C2]].
  rewrite A1, A2, B1, B2, C1, C2. repeat split.
Qed.

(** ** The response accumulator *)

Lemma history_get_set (security : option string) (l : list string)
      (h : SessionFactory.history) :
  SessionFactory.history_get security (SessionFactory.history_set security l h) = Some l.
Proof.
  induction h as [| [k l'] h IH]; simpl.
  - destruct (SessionFactory.option_string_eq_dec security security); congruence.
  - destruct (SessionFactory.option_string_eq_dec security k) as [E | N]; simpl.
    + destruct (SessionFactory.option_string_eq_dec security k); congruence.
    + destruct (SessionFactory.option_string_eq_dec security k); congruence.
Qed.

Lemma count_occ_snoc (l : list string) (x : string) :
  count_occ string_dec (l ++ [x]) x = S (count_occ string_dec l x).
Proof.
  rewrite count_occ_app. simpl.
  destruct (string_dec x x); [lia | congruence].
Qed.


(** One step of the accumulator on a message that carries the expected
    correlation identifier and is decoded to [(security, fragment)]: the
    fragment is merged when its message type was already received for
    [security], and set directly otherwise. *)
Lemma process_msg_decoded (self : SessionFactory.t) (msg : Message)
      (process : Message -> result SessionFactory.decoded)
      (security : option string) (fragment output : dict)
      (h : SessionFactory.history) :
  existsb (Z.eqb (SessionFactory.cid self)) (correlationIds msg) = true ->
  SessionFactory.msg_processes (SessionFactory.request_type self) = Some process ->
  process msg = Ok (security, fragment) ->
  SessionFactory.process_msg self msg (output, h)
  = let h' := SessionFactory.history_set security
                (seen security h ++ [messageType msg]) h in
    if Nat.ltb 0 (count_occ string_dec (seen security h) (messageType msg)) then
      match SessionFactory.truthy_security security with
      | Some s =>
          old <- getitem output (SStr s) ;;
          merged <- SessionFactory._merge_two_dicts old fragment ;;
          Ok (dict_set (SStr s) (VDict merged) output, h')
      | None => Ok (dict_update output fragment, h')
      end
    else
      match SessionFactory.truthy_security security with
      | Some s => Ok (dict_set (SStr s) (VDict fragment) output, h')
      | None => Ok (fragment, h')
      end.
Proof.
  intros Hc Hp Hd. unfold SessionFactory.process_msg.
  rewrite Hc, Hp, Hd. cbn [Py.bind]. unfold seen.
  assert (Hh : (match SessionFactory.history_get security h with
                | Some l => SessionFactory.history_set security (l ++ [messageType msg]) h
                | None => SessionFactory.history_set security [messageType msg] h
                end)
               = SessionFactory.history_set security
                   (match SessionFactory.history_get security h with
                    | Some l => l
                    | None => []
                    end ++ [messageType msg]) h).
  { destruct (SessionFactory.history_get security h); reflexivity. }
  rewrite Hh. unfold SessionFactory._get_response_count.
  rewrite history_get_set, count_occ_snoc. cbn [Py.bind].
  change (Nat.ltb 1 (S ?n)) with (Nat.ltb 0 n).
  destruct (Nat.ltb 0 _); destruct (SessionFactory.truthy_security security);
    reflexivity.
Qed.

(** The first fragment of a security is set directly. *)
Lemma first_fragment_set (self : SessionFactory.t) (msg : Message)
      (process : Message -> result SessionFactory.decoded)
      (s : string) (fragment output : dict) (h : SessionFactory.history) :
  existsb (Z.eqb (SessionFactory.cid self)) (correlationIds msg) = true ->
  SessionFactory.msg_processes (SessionFactory.request_type self) = Some process ->
  process msg = Ok (Some s, fragment) ->
  s <> "" ->
  SessionFactory.history_get (Some s) h = None ->
  exists h',
    SessionFactory.process_msg self msg (output, h)
    = Ok (dict_set (SStr s) (VDict fragment) output, h').
Proof.
  intros Hc Hp Hd Hs Hn.
  rewrite (process_msg_decoded self msg output h Hc Hp Hd).
  unfold seen. rewrite Hn. simpl.
  destruct (String.eqb_spec s ""); [contradiction |].
  eexists; reflexivity.
Qed.

(** A later fragment of a security, of a message type already received
    for it, is merged key by key into the accumulated mapping. *)
Lemma later_fragment_merged (self : SessionFactory.t) (msg : Message)
      (process : Message -> result SessionFactory.decoded)
      (s : string) (fragment output old : dict) (h : SessionFactory.history) :
  existsb (Z.eqb (SessionFactory.cid self)) (correlationIds msg) = true ->
  SessionFactory.msg_processes (SessionFactory.request_type self) = Some process ->
  process msg = Ok (Some s, fragment) ->
  s <> "" ->
  In (messageType msg) (seen (Some s) h) ->
  dict_get (SStr s) output = Some (VDict old) ->
  exists h',
    SessionFactory.process_msg self msg (output, h)
    = Ok (dict_set (SStr s) (VDict (dict_update old fragment)) output, h').
Proof.
  intros Hc Hp Hd Hs Hin Hold.
  rewrite (process_msg_decoded self msg output h Hc Hp Hd).
  apply (count_occ_In string_dec) in Hin.
  destruct (Nat.ltb_spec 0 (count_occ string_dec (seen (Some s) h) (messageType msg)));
    [| lia].
  cbn zeta. simpl SessionFactory.truthy_security.
  destruct (String.eqb_spec s ""); [contradiction |].
  unfold getitem. rewrite Hold. simpl. eexists; reflexivity.
Qed.

(** C1, the defect: a reference request for three securities is answered
    in two messages.  The first message, with one security, establishes
    the key ['AAPL US Equity']; the second, with two securities, is decoded
    to the key [None] and, being the first fragment of that key, replaces
    the whole output: the result of the first message is discarded. *)
Theorem process_session_discards_first_part :
  SessionFactory._process_ref_data_msg Samples.first_part
  = Ok (Some "AAPL US Equity",
        [(SStr "security_data", VDict [(SStr "PX_LAST", VScalar (SFloat "189.5"))]);
         (SStr "field_exceptions", VDict []);
         (SStr "security_errors", VDict [])])
  /\ SessionFactory.process_session Samples.answered_first_part
     = Some (Ok [(SStr "AAPL US Equity", Samples.quoted "189.5")])
  /\ SessionFactory.process_session Samples.answered_in_full
     = Some (Ok [(SStr "IBM US Equity", Samples.quoted "141.2");
                 (SStr "MSFT US Equity", Samples.quoted "330.1")])
  /\ dict_mem (SStr "AAPL US Equity")
       [(SStr "IBM US Equity", Samples.quoted "141.2");
        (SStr "MSFT US Equity", Samples.quoted "330.1")] = false.
Proof. repeat split; vm_compute; reflexivity. Qed.

(** ** The reference decoder *)

Lemma for_each_ext {A S} (xs : list A) (f g : A -> S -> result S) (s : S) :
  (forall x s, f x s = g x s) -> for_each xs f s = for_each xs g s.
Proof.
  intros H. revert s. induction xs as [| x xs IH]; intros s.
  - reflexivity.
  - rewrite !for_each_cons, H. destruct (g x s); simpl; [apply IH | reflexivity].
Qed.

Lemma iterator_len (obj : Element) (items : list item) :
  SessionFactory._get_bbg_iterator obj = Some items ->
  SessionFactory._get_iterator_len obj = Some (List.length items).
Proof.
  unfold SessionFactory._get_bbg_iterator, SessionFactory._get_iterator_len,
    numValues, numElements.
  destruct (isArray obj); [| destruct (isComplexType obj)];
    intros H; inversion H; subst; rewrite ?length_map; reflexivity.
Qed.

Ltac bind_cases :=
  repeat match goal with
         | |- context [Py.bind ?m _] => destruct m; cbn [Py.bind]
         | |- context [if ?b then _ else _] => destruct b
         | p : (_ * _)%type |- _ => destruct p
         end;
  try reflexivity.

(** The loop body of the source is [ref_step]. *)
Lemma ref_body (n : nat) (it : item) (st : option string * dict) :
  (let '(security, results) := st in
   i <- as_element it ;;
   security <- getElementAsString i SECURITY ;;
   field_data <- getElement i FIELD_DATA ;;
   nonempty <- SessionFactory.gt (SessionFactory._get_iterator_len field_data) 0 ;;
   security_data_results <-
     (if nonempty : bool then
        '(_, r) <- SessionFactory._element_factory field_data [] None ;;
        Ok (SessionFactory._flatten_dict (VDict r))
      else Ok (VDict [])) ;;
   security_errors <-
     (if hasElement i SECURITY_ERROR then
        e <- getElement i SECURITY_ERROR ;;
        SessionFactory._security_error_factory e
      else Ok []) ;;
   fe <- getElement i FIELD_EXCEPTIONS ;;
   some <- SessionFactory.gt (SessionFactory._get_iterator_len fe) 0 ;;
   field_exceptions <-
     (if some : bool then
        fe <- getElement i FIELD_EXCEPTIONS ;;
        SessionFactory._field_exception_factory fe
      else Ok []) ;;
   nested <- SessionFactory.gt (Some n) 1 ;;
   let entry : dict :=
     [(SStr "security_data", security_data_results);
      (SStr "field_exceptions", VDict field_exceptions);
      (SStr "security_errors", VDict security_errors)] in
   if nested : bool then
     Ok (Some security, dict_set (SStr security) (VDict entry) results)
   else
     Ok (Some security, entry))
  = ref_step n it st.
Proof.
  destruct st as [security results].
  unfold ref_step, item_entry, security_entry. cbn [SessionFactory.gt Py.bind snd].
  bind_cases.
Qed.

Lemma ref_decoder_unfold (msg : Message) (sd : Element) (items : list item) :
  hasElement (asElement msg) RESPONSE_ERROR = false ->
  getElement (asElement msg) SECURITY_DATA = Ok sd ->
  SessionFactory._get_bbg_iterator sd = Some items ->
  SessionFactory._process_ref_data_msg msg
  = ('(security, results) <-
       for_each items (ref_step (List.length items)) (None, []) ;;
     if Nat.ltb 1 (List.length items) then Ok (None, results)
     else Ok (security, results)).
Proof.
  intros He Hsd Hit. unfold SessionFactory._process_ref_data_msg.
  rewrite He, (getElement_hasElement _ _ Hsd), Hsd. cbn [negb Py.bind].
  rewrite Hit, (iterator_len _ Hit). cbn [SessionFactory.iter Py.bind].
  rewrite (for_each_ext items _ (ref_step (List.length items)))
    by (intros x s; apply ref_body).
  reflexivity.
Qed.

Lemma for_each_ref_nested (n : nat) (items : list item)
      (entries : list (string * dict)) (st : option string * dict) :
  1 < n ->
  all_ok item_entry items = Ok entries ->
  exists security,
    for_each items (ref_step n) st = Ok (security, keyed_by_security entries (snd st)).
Proof.
  intros Hn. revert entries st.
  induction items as [| it items IH]; intros entries st H.
  - inversion H; subst. exists (fst st). destruct st; reflexivity.
  - simpl in H. destruct (item_entry it) as [[s e] |] eqn:E; [| discriminate].
    destruct (all_ok item_entry items) as [es |]; [| discriminate].
    inversion H; subst.
    rewrite for_each_cons. unfold ref_step at 1. rewrite E. cbn [Py.bind].
    destruct (Nat.ltb_spec 1 n); [| lia]. cbn [Py.bind].
    destruct (IH es (Some s, dict_set (SStr s) (VDict e) (snd st)) eq_refl) as [sec Hs].
    exists sec. rewrite Hs. reflexivity.
Qed.

Lemma for_each_ref_single (it : item) (s : string) (e : dict)
      (st : option string * dict) :
  item_entry it = Ok (s, e) ->
  for_each [it] (ref_step 1) st = Ok (Some s, e).
Proof.
  intros H. rewrite for_each_cons. unfold ref_step. rewrite H. reflexivity.
Qed.

Lemma security_entry_keys (i : Element) (s : string) (e : dict) :
  security_entry i = Ok (s, e) -> dict_keys e = PER_SECURITY_KEYS.
Proof.
  unfold security_entry. intros H.
  repeat match type of H with
         | context [Py.bind ?m _] => destruct m; cbn [Py.bind] in H; try discriminate
         end.
  inversion H; subst. reflexivity.
Qed.

Lemma item_entry_keys (it : item) (s : string) (e : dict) :
  item_entry it = Ok (s, e) -> dict_keys e = PER_SECURITY_KEYS.
Proof.
  unfold item_entry. destruct (as_element it) as [i |]; [| discriminate].
  apply security_entry_keys.
Qed.

Lemma all_ok_Forall {A B} (f : A -> result B) (P : B -> Prop) (xs : list A) (bs : list B) :
  (forall x b, f x = Ok b -> P b) -> all_ok f xs = Ok bs -> Forall P bs.
Proof.
  intros Hf. revert bs. induction xs as [| x xs IH]; intros bs H; simpl in H.
  - inversion H; constructor.
  - destruct (f x) as [b |] eqn:E; [| discriminate].
    destruct (all_ok f xs) as [bs' |]; [| discriminate].
    inversion H; subst. constructor; [apply (Hf x); exact E | apply IH; reflexivity].
Qed.

Lemma all_ok_length {A B} (f : A -> result B) (xs : list A) (bs : list B) :
  all_ok f xs = Ok bs -> List.length bs = List.length xs.
Proof.
  revert bs. induction xs as [| x xs IH]; intros bs H; simpl in H.
  - inversion H; reflexivity.
  - destruct (f x); [| discriminate]. destruct (all_ok f xs); [| discriminate].
    inversion H; subst. simpl. f_equal. apply IH. reflexivity.
Qed.

Lemma for_each_ref_fails (n : nat) (items : list item) (x : exn)
      (st : option string * dict) :
  all_ok item_entry items = Raise x ->
  for_each items (ref_step n) st = Raise x.
Proof.
  revert st. induction items as [| it items IH]; intros st H; [discriminate |].
  simpl in H. rewrite for_each_cons. unfold ref_step at 1.
  destruct (item_entry it) as [[s e] |]; cbn [Py.bind].
  - destruct (all_ok item_entry items) eqn:E; [discriminate |].
    inversion H; subst.
    destruct (Nat.ltb 1 n); cbn [Py.bind]; apply IH; reflexivity.
  - inversion H; reflexivity.
Qed.

(** The decoder fails when the decoding of one entry fails. *)
Lemma ref_decoder_fails (msg : Message) (sd : Element) (items : list item) (x : exn) :
  hasElement (asElement msg) RESPONSE_ERROR = false ->
  getElement (asElement msg) SECURITY_DATA = Ok sd ->
  SessionFactory._get_bbg_iterator sd = Some items ->
  all_ok item_entry items = Raise x ->
  SessionFactory._process_ref_data_msg msg = Raise x.
Proof.
  intros He Hsd Hit H. rewrite (ref_decoder_unfold msg He Hsd Hit).
  rewrite (for_each_ref_fails _ _ _ H). reflexivity.
Qed.

(** C3: the shape of the reference decoder's result is decided by the
    number of entries of the security-data collection.  When each entry
    is decoded, a collection of more than one entry gives [None] and the
    mapping from each security identifier to its Per-Security Result, and
    a collection of exactly one entry gives that entry's security
    identifier and its Per-Security Result itself. *)
Theorem ref_decoder_shape (msg : Message) (sd : Element) (items : list item)
        (entries : list (string * dict)) :
  hasElement (asElement msg) RESPONSE_ERROR = false ->
  getElement (asElement msg) SECURITY_DATA = Ok sd ->
  SessionFactory._get_bbg_iterator sd = Some items ->
  all_ok item_entry items = Ok entries ->
  SessionFactory._get_iterator_len sd = Some (List.length items)
  /\ Forall (fun se => dict_keys (snd se) = PER_SECURITY_KEYS) entries
  /\ (1 < List.length items ->
      SessionFactory._process_ref_data_msg msg
      = Ok (None, keyed_by_security entries []))
  /\ (List.length items = 1 ->
      exists s e, entries = [(s, e)]
                  /\ SessionFactory._process_ref_data_msg msg = Ok (Some s, e)).
Proof.
  intros He Hsd Hit Hall. split; [apply iterator_len; exact Hit |].
  split.
  { apply (all_ok_Forall item_entry _ items); [| exact Hall].
    intros it [s e] H. simpl. apply (item_entry_keys it H). }
  split.
  - intros Hn. rewrite (ref_decoder_unfold msg He Hsd Hit).
    destruct (@for_each_ref_nested _ items entries (None, []) Hn Hall) as [sec Hs].
    rewrite Hs. cbn [Py.bind snd].
    destruct (Nat.ltb_spec 1 (List.length items)); [reflexivity | lia].
  - intros Hn. rewrite (ref_decoder_unfold msg He Hsd Hit).
    destruct items as [| it [| it' items]]; try discriminate.
    simpl in Hall. destruct (item_entry it) as [[s e] |] eqn:E; [| discriminate].
    inversion Hall; subst. exists s, e. split; [reflexivity |].
    simpl List.length. rewrite (@for_each_ref_single it s e (None, []) E). reflexivity.
Qed.

Lemma ref_decoder_shape_witness :
  SessionFactory._process_ref_data_msg Samples.second_part
  = Ok (None, [(SStr "IBM US Equity", Samples.quoted "141.2");
               (SStr "MSFT US Equity", Samples.quoted "330.1")]).
Proof.
  refine (proj1 (proj2 (proj2
            (@ref_decoder_shape Samples.second_part
               (Samples.array "securityData"
                  [Samples.quote "IBM US Equity" "141.2";
                   Samples.quote "MSFT US Equity" "330.1"])
               [IElem (Samples.quote "IBM US Equity" "141.2");
                IElem (Samples.quote "MSFT US Equity" "330.1")]
               [("IBM US Equity", _); ("MSFT US Equity", _)]
               eq_refl eq_refl eq_refl eq_refl))) _).
  simpl. lia.
Defined.

(** ** The recursive element decoder *)


Lemma for_each_map {A B S} (f : A -> B) (xs : list A) (body : B -> S -> result S) (s : S) :
  for_each (map f xs) body s = for_each xs (fun x => body (f x)) s.
Proof.
  revert s. induction xs as [| x xs IH]; intros s; [reflexivity |].
  simpl map. rewrite !for_each_cons. destruct (body (f x) s); simpl; [apply IH | reflexivity].
Qed.


(** The body of [_element_factory] as the source has it. *)
Lemma _element_factory_eq (element : Element) (duplicate_elements : list string)
      (results : option dict) :
  SessionFactory._element_factory element duplicate_elements results
  = if negb (isValid element) then Raise TypeError else
    let element_name := name element in
    if in_types (datatype element) BBG_SEQUENCES then
      let results := match results with None => [] | Some r => r end in
      let '(element_name, duplicate_elements, results) :=
        if negb (dict_mem (SStr element_name) results) then
          (element_name, duplicate_elements,
           dict_set (SStr element_name) (VDict []) results)
        else
          let element_name :=
            SessionFactory.suffixed element_name (List.length duplicate_elements) in
          (element_name, duplicate_elements ++ [element_name],
           dict_set (SStr element_name) (VDict []) results) in
      '(duplicate_elements, sub) <- sub_elements element (duplicate_elements, []) ;;
      Ok (duplicate_elements, dict_set (SStr element_name) (VDict sub) results)
    else
      single_value <- SessionFactory._field_factory element ;;
      x1 <- subscript single_value 1 ;;
      x0 <- subscript single_value 0 ;;
      match results with
      | None => Raise TypeError
      | Some results =>
          k <- as_key x0 ;; Ok (duplicate_elements, dict_set k x1 results)
      end.
Proof.
  destruct element as [nm dt arr valid vs ks].
  cbn [SessionFactory._element_factory isValid name datatype].
  destruct valid; [| reflexivity]. cbn [negb].
  destruct (in_types dt BBG_SEQUENCES) eqn:Hseq; [| reflexivity].
  cbv zeta.
  destruct (negb (dict_mem (SStr nm) match results with Some r => r | None => [] end));
    (f_equal;
     unfold sub_elements, SessionFactory._get_bbg_iterator, isComplexType, values, elements,
       isComplexType;
     cbn [isArray datatype kids vals];
     destruct dt; try discriminate Hseq; destruct arr;
     cbn [composite andb negb SessionFactory.iter Py.bind];
     rewrite ?for_each_map; try reflexivity;
     destruct vs; reflexivity).
Qed.

(** *** Minted keys *)

Lemma digits_no_underscore (d : uint) :
  has_underscore (NilEmpty.string_of_uint d) = false.
Proof. induction d; simpl; auto. Qed.

Lemma string_of_nat_inj (n m : nat) : string_of_nat n = string_of_nat m -> n = m.
Proof.
  unfold string_of_nat. intros H.
  apply (f_equal NilEmpty.uint_of_string) in H. rewrite !NilEmpty.usu in H.
  inversion H as [H']. apply Unsigned.to_uint_inj. exact H'.
Qed.

Lemma has_underscore_app (a b : string) :
  has_underscore (a ++ String "_" b)%string = true.
Proof.
  induction a as [| c a IH]; simpl.
  - reflexivity.
  - rewrite IH. apply orb_true_r.
Qed.

Lemma suffix_split (a b x y : string) :
  has_underscore x = false -> has_underscore y = false ->
  (a ++ String "_" x)%string = (b ++ String "_" y)%string -> a = b /\ x = y.
Proof.
  intros Hx Hy. revert b.
  induction a as [| c a IH]; intros [| c' b] H; simpl in H.
  - inversion H. auto.
  - inversion H as [[Hc Hr]]. rewrite Hr, has_underscore_app in Hx. discriminate.
  - inversion H as [[Hc Hr]]. rewrite <- Hr, has_underscore_app in Hy. discriminate.
  - inversion H as [[Hc Hr]]. destruct (IH b Hr) as [-> ->]. auto.
Qed.

Lemma suffixed_inj (a b : string) (i j : nat) :
  SessionFactory.suffixed a i = SessionFactory.suffixed b j -> a = b /\ i = j.
Proof.
  unfold SessionFactory.suffixed. intros H.
  apply suffix_split in H; try apply digits_no_underscore.
  destruct H as [Ha Hd]. split; [exact Ha | apply string_of_nat_inj; exact Hd].
Qed.

Lemma suffixed_longer (a : string) (j : nat) :
  String.length a < String.length (SessionFactory.suffixed a j).
Proof.
  unfold SessionFactory.suffixed. rewrite string_length_app. simpl. lia.
Qed.

Lemma suffixed_neq (a : string) (j : nat) : a <> SessionFactory.suffixed a j.
Proof.
  intros H. pose proof (suffixed_longer a j) as L. rewrite <- H in L. lia.
Qed.

(** Children that all bear one name cannot clash with a minted key. *)
Lemma same_name_suffix_free (a : string) (names : list string) :
  (forall b, In b names -> b = a) -> suffix_free names.
Proof.
  intros H x y j Hx Hy E. rewrite (H x Hx), (H y Hy) in E.
  exact (@suffixed_neq a j E).
Qed.

(** *** Keys of a dictionary under assignment *)

Lemma dict_mem_In (k : scalar) (d : dict) :
  dict_mem k d = true <-> In k (dict_keys d).
Proof.
  induction d as [| [k' v] d IH]; simpl.
  - split; [discriminate | contradiction].
  - destruct (scalar_eq_dec k k') as [E | N].
    + split; auto.
    + rewrite IH. split; [auto | intros [H | H]; [congruence | exact H]].
Qed.

Lemma dict_keys_set (k : scalar) (v : value) (d : dict) :
  dict_keys (dict_set k v d)
  = if dict_mem k d then dict_keys d else dict_keys d ++ [k].
Proof.
  induction d as [| [k' v'] d IH]; simpl.
  - reflexivity.
  - destruct (scalar_eq_dec k k') as [E | N]; simpl.
    + reflexivity.
    + rewrite IH. destruct (dict_mem k d); reflexivity.
Qed.

Lemma dict_mem_set (k : scalar) (v : value) (d : dict) :
  dict_mem k (dict_set k v d) = true.
Proof.
  apply dict_mem_In. rewrite dict_keys_set.
  destruct (dict_mem k d) eqn:E.
  - apply dict_mem_In. exact E.
  - apply in_or_app. right. left. reflexivity.
Qed.

Lemma dict_get_set (k : scalar) (v : value) (d : dict) :
  dict_get k (dict_set k v d) = Some v.
Proof.
  induction d as [| [k' v'] d IH]; simpl.
  - destruct (scalar_eq_dec k k); congruence.
  - destruct (scalar_eq_dec k k') as [E | N]; simpl.
    + destruct (scalar_eq_dec k k'); congruence.
    + destruct (scalar_eq_dec k k'); congruence.
Qed.

Lemma dict_set_set (k : scalar) (v v' : value) (d : dict) :
  dict_set k v (dict_set k v' d) = dict_set k v d.
Proof.
  induction d as [| [k' w] d IH]; cbn [dict_set].
  - destruct (scalar_eq_dec k k); [reflexivity | congruence].
  - destruct (scalar_eq_dec k k') as [E | N]; cbn [dict_set].
    + destruct (scalar_eq_dec k k'); [reflexivity | contradiction].
    + destruct (scalar_eq_dec k k'); [contradiction |]. rewrite IH. reflexivity.
Qed.

Lemma dict_keys_length (d : dict) : List.length (dict_keys d) = List.length d.
Proof. apply length_map. Qed.

(** Assigning twice under one key leaves the keys of the first assignment. *)
Lemma dict_keys_set_twice (k : scalar) (v v' : value) (d : dict) :
  dict_keys (dict_set k v (dict_set k v' d)) = dict_keys (dict_set k v' d).
Proof. rewrite dict_keys_set, dict_mem_set. reflexivity. Qed.

Lemma NoDup_snoc {A} (l : list A) (x : A) : NoDup l -> ~ In x l -> NoDup (l ++ [x]).
Proof.
  intros Hl Hx. apply NoDup_app; [exact Hl | constructor; [intros [] | constructor] |].
  intros a Ha [E | []]. subst. contradiction.
Qed.

(** *** The duplicate registry only grows *)

Lemma for_each_rel {A S} (R : S -> S -> Prop) (xs : list A)
      (body : A -> S -> result S) :
  (forall s, R s s) ->
  (forall s1 s2 s3, R s1 s2 -> R s2 s3 -> R s1 s3) ->
  (forall x s s', In x xs -> body x s = Ok s' -> R s s') ->
  forall s s', for_each xs body s = Ok s' -> R s s'.
Proof.
  intros Hrefl Htrans. induction xs as [| x xs IH]; intros Hb s s' H.
  - inversion H; subst. apply Hrefl.
  - rewrite for_each_cons in H. destruct (body x s) as [s1 |] eqn:E; [| discriminate].
    cbn [Py.bind] in H.
    apply (Htrans s s1 s').
    + apply (Hb x); [left; reflexivity | exact E].
    + apply IH; [| exact H]. intros y t t' Hy. apply Hb. right. exact Hy.
Qed.

Lemma iterator_kids (e : Element) (items : list item) (k : Element) :
  SessionFactory._get_bbg_iterator e = Some items ->
  In (IElem k) items -> In k (kids e).
Proof.
  unfold SessionFactory._get_bbg_iterator, values, elements.
  destruct (isArray e) eqn:Ha.
  - destruct (composite (datatype e)); intros H Hin; inversion H; subst.
    + apply in_map_iff in Hin. destruct Hin as [k' [E Hin]]. inversion E; subst. exact Hin.
    + apply in_map_iff in Hin. destruct Hin as [v [E _]]. discriminate.
  - destruct (isComplexType e); intros H Hin; inversion H; subst.
    apply in_map_iff in Hin. destruct Hin as [k' [E Hin]]. inversion E; subst. exact Hin.
Qed.

Lemma element_factory_registry_grows (e : Element) :
  forall d r d' r',
    SessionFactory._element_factory e d r = Ok (d', r') ->
    List.length d <= List.length d'.
Proof.
  induction e as [n dt a v vs ks IH] using Element_nested_ind.
  intros d r d' r' H. rewrite _element_factory_eq in H.
  destruct (negb (isValid (mkElement n dt a v vs ks))); [discriminate |].
  cbv zeta in H.
  destruct (in_types (datatype (mkElement n dt a v vs ks)) BBG_SEQUENCES).
  - set (r0 := match r with Some r1 => r1 | None => [] end) in H.
    assert (Hsub : forall d1 d2 sub,
               sub_elements (mkElement n dt a v vs ks) (d1, []) = Ok (d2, sub) ->
               List.length d1 <= List.length d2).
    { intros d1 d2 sub Hs. unfold sub_elements in Hs.
      destruct (SessionFactory._get_bbg_iterator (mkElement n dt a v vs ks))
        as [items |] eqn:Hit; [| discriminate].
      cbn [SessionFactory.iter Py.bind] in Hs.
      apply (@for_each_rel _ _
               (fun s s' : list string * dict => List.length (fst s) <= List.length (fst s'))
               items _) in Hs; [exact Hs | intros; lia | intros; lia |].
      intros [k | raw] s s' Hin Hb; [| discriminate].
      cbn [as_element Py.bind] in Hb. destruct s' as [d3 r3].
      pose proof (@iterator_kids _ _ _ Hit Hin) as Hk. cbn [kids] in Hk.
      rewrite Forall_forall in IH. exact (IH k Hk _ _ _ _ Hb). }
    destruct (negb (dict_mem (SStr (name (mkElement n dt a v vs ks))) r0)).
    + destruct (sub_elements _ _) as [[d2 sub] |] eqn:Hs; [| discriminate].
      inversion H; subst. exact (Hsub _ _ _ Hs).
    + destruct (sub_elements _ _) as [[d2 sub] |] eqn:Hs; [| discriminate].
      inversion H; subst. apply Hsub in Hs. rewrite length_app in Hs. simpl in Hs. lia.
  - repeat match type of H with
           | context [Py.bind ?m _] => destruct m; cbn [Py.bind] in H; try discriminate
           | context [match ?r with Some _ => _ | None => _ end] =>
               destruct r; try discriminate
           end.
    inversion H; subst. lia.
Qed.

Lemma sub_elements_registry_grows (e : Element) (d1 d2 : list string) (s1 sub : dict) :
  sub_elements e (d1, s1) = Ok (d2, sub) -> List.length d1 <= List.length d2.
Proof.
  unfold sub_elements. intros Hs.
  destruct (SessionFactory._get_bbg_iterator e) as [items |]; [| discriminate].
  cbn [SessionFactory.iter Py.bind] in Hs.
  apply (@for_each_rel _ _
           (fun s s' : list string * dict => List.length (fst s) <= List.length (fst s'))
           items _) in Hs; [exact Hs | intros; lia | intros; lia |].
  intros [k | raw] s s' Hin Hb; [| discriminate].
  cbn [as_element Py.bind] in Hb. destruct s' as [d3 r3].
  exact (@element_factory_registry_grows k _ _ _ _ Hb).
Qed.

(** The registry after a successful call is the registry before it,
    followed by the names minted during the call. *)
Lemma registry_extends (e : Element) :
  forall d r d' r',
    SessionFactory._element_factory e d r = Ok (d', r') ->
    exists minted, d' = d ++ minted.
Proof.
  induction e as [n dt a v vs ks IH] using Element_nested_ind.
  intros d r d' r' H. rewrite _element_factory_eq in H.
  destruct (negb (isValid (mkElement n dt a v vs ks))); [discriminate |].
  cbv zeta in H.
  destruct (in_types (datatype (mkElement n dt a v vs ks)) BBG_SEQUENCES).
  - set (r0 := match r with Some r1 => r1 | None => [] end) in H.
    assert (Hsub : forall d1 d2 sub,
               sub_elements (mkElement n dt a v vs ks) (d1, []) = Ok (d2, sub) ->
               exists minted, d2 = d1 ++ minted).
    { intros d1 d2 sub Hs. unfold sub_elements in Hs.
      destruct (SessionFactory._get_bbg_iterator (mkElement n dt a v vs ks))
        as [items |] eqn:Hit; [| discriminate].
      cbn [SessionFactory.iter Py.bind] in Hs.
      apply (@for_each_rel _ _
               (fun s s' : list string * dict => exists minted, fst s' = fst s ++ minted)
               items _) in Hs; [exact Hs | | |].
      - intros s. exists []. rewrite app_nil_r. reflexivity.
      - intros s1 s2 s3 [m1 H1] [m2 H2]. exists (m1 ++ m2).
        rewrite H2, H1, app_assoc. reflexivity.
      - intros [k | raw] s s' Hin Hb; [| discriminate].
        cbn [as_element Py.bind] in Hb. destruct s' as [d3 r3].
        pose proof (@iterator_kids _ _ _ Hit Hin) as Hk. cbn [kids] in Hk.
        rewrite Forall_forall in IH. exact (IH k Hk _ _ _ _ Hb). }
    destruct (negb (dict_mem (SStr (name (mkElement n dt a v vs ks))) r0)).
    + destruct (sub_elements _ _) as [[d2 sub] |] eqn:Hs; [| discriminate].
      inversion H; subst. exact (Hsub _ _ _ Hs).
    + destruct (sub_elements _ _) as [[d2 sub] |] eqn:Hs; [| discriminate].
      inversion H; subst. destruct (Hsub _ _ _ Hs) as [m Hm].
      eexists. rewrite Hm, <- app_assoc. reflexivity.
  - repeat match type of H with
           | context [Py.bind ?m _] => destruct m; cbn [Py.bind] in H; try discriminate
           | context [match ?r with Some _ => _ | None => _ end] =>
               destruct r; try discriminate
           end.
    inversion H; subst. exists []. rewrite app_nil_r. reflexivity.
Qed.


(** *** One composite child *)

(** Decoding a child of composite kind into the level [s]: it takes the
    key of its own name when that is free, and otherwise the key minted
    from the current length of the registry, which then grows. *)
Lemma composite_child (k : Element) (d d' : list string) (s s' : dict) :
  in_types (datatype k) BBG_SEQUENCES = true ->
  SessionFactory._element_factory k d (Some s) = Ok (d', s') ->
  exists key sub,
    s' = dict_set (SStr key) (VDict sub) (dict_set (SStr key) (VDict []) s)
    /\ ((dict_mem (SStr (name k)) s = false /\ key = name k
         /\ List.length d <= List.length d')
        \/ (dict_mem (SStr (name k)) s = true
            /\ key = SessionFactory.suffixed (name k) (List.length d)
            /\ List.length d < List.length d')).
Proof.
  intros Hdt H. rewrite _element_factory_eq in H.
  destruct (negb (isValid k)); [discriminate |].
  cbv zeta in H. rewrite Hdt in H.
  destruct (dict_mem (SStr (name k)) s) eqn:Hm; cbn [negb] in H.
  - destruct (sub_elements _ _) as [[d2 sub] |] eqn:Hs; [| discriminate].
    inversion H; subst.
    exists (SessionFactory.suffixed (name k) (List.length d)), sub.
    split; [reflexivity |]. right. repeat split.
    apply sub_elements_registry_grows in Hs. rewrite length_app in Hs. simpl in Hs. lia.
  - destruct (sub_elements _ _) as [[d2 sub] |] eqn:Hs; [| discriminate].
    inversion H; subst.
    exists (name k), sub.
    split; [reflexivity |]. left. repeat split.
    apply sub_elements_registry_grows in Hs. exact Hs.
Qed.


(** *** One scalar child *)

(** A child that is not of composite kind is stored under its own name,
    whatever was stored there, and leaves the registry as it is. *)
Lemma scalar_child (k : Element) (d d' : list string) (s s' : dict) :
  in_types (datatype k) BBG_SEQUENCES = false ->
  SessionFactory._element_factory k d (Some s) = Ok (d', s') ->
  d' = d /\ exists v, s' = dict_set (SStr (name k)) v s.
Proof.
  intros Hdt H. rewrite _element_factory_eq in H.
  destruct (negb (isValid k)); [discriminate |].
  cbv zeta in H. rewrite Hdt in H.
  unfold SessionFactory._field_factory in H.
  destruct (datatype k); try discriminate; cbn [SessionFactory.process_factory] in H;
    unfold DataTypeFactory.process_bool, DataTypeFactory.process_byte,
      DataTypeFactory.process_char, DataTypeFactory.process_scalar,
      DataTypeFactory.process_string, DataTypeFactory.process_date,
      DataTypeFactory.process_date_time, DataTypeFactory.process_time,
      DataTypeFactory.process_enumeration, DataTypeFactory.process_correlation_id in H;
    repeat match type of H with
           | context [Py.bind (getValue k) _] =>
               destruct (getValue k); cbn [Py.bind] in H; try discriminate
           | context [Py.bind (strftime ?f ?x) _] =>
               destruct (strftime f x); cbn [Py.bind] in H; try discriminate
           end;
    cbn in H; try discriminate;
    inversion H; subst; split; try reflexivity; eexists; reflexivity.
Qed.

(** *** The children of one level *)

Lemma level_keys_grow (names names' d d' : list string) (s : dict) :
  incl names names' -> List.length d <= List.length d' ->
  level_keys names d s -> level_keys names' d' s.
Proof.
  intros Hn Hd H key Hin. destruct (H key Hin) as [[a [Ha E]] | [a [j [Ha [Hj E]]]]].
  - left. exists a. split; [apply Hn; exact Ha | exact E].
  - right. exists a, j. repeat split; [apply Hn; exact Ha | lia | exact E].
Qed.

Lemma minted_key_fresh (names seen_names d : list string) (s : dict) (a : string) :
  suffix_free names -> incl seen_names names -> In a names ->
  level_keys seen_names d s ->
  ~ In (SStr (SessionFactory.suffixed a (List.length d))) (dict_keys s).
Proof.
  intros Hsf Hincl Ha Hlk Hin.
  destruct (Hlk _ Hin) as [[b [Hb E]] | [b [j [Hb [Hj E]]]]].
  - inversion E as [E']. exact (Hsf b a (List.length d) (Hincl b Hb) Ha (eq_sym E')).
  - inversion E as [E']. apply suffixed_inj in E'. lia.
Qed.

Lemma own_name_fresh (names seen_names d : list string) (s : dict) (a : string) :
  suffix_free names -> incl seen_names names -> In a names ->
  ~ In a seen_names ->
  level_keys seen_names d s ->
  ~ In (SStr a) (dict_keys s).
Proof.
  intros Hsf Hincl Ha Hnew Hlk Hin.
  destruct (Hlk _ Hin) as [[b [Hb E]] | [b [j [Hb [Hj E]]]]].
  - inversion E; subst. contradiction.
  - inversion E as [E']. exact (Hsf a b j Ha (Hincl b Hb) E').
Qed.

Lemma unique_scalars_tail (k : Element) (ks : list Element) :
  unique_scalars (k :: ks) ->
  unique_scalars ks
  /\ (forall k', In k' ks -> in_types (datatype k') BBG_SEQUENCES = false ->
                 name k' <> name k).
Proof.
  intros H.
  assert (Hk : forall k', In k' ks -> in_types (datatype k') BBG_SEQUENCES = false ->
                          name k' <> name k
                          /\ count_occ string_dec (map name ks) (name k') = 1).
  { intros k' Hin Hdt. specialize (H k' (or_intror Hin) Hdt). simpl in H.
    assert (Hpos : count_occ string_dec (map name ks) (name k') > 0).
    { apply count_occ_In. apply in_map. exact Hin. }
    destruct (string_dec (name k) (name k')) as [E | N].
    - lia.
    - split; [congruence | exact H]. }
  split.
  - intros k' Hin Hdt. apply (Hk k' Hin Hdt).
  - intros k' Hin Hdt. apply (Hk k' Hin Hdt).
Qed.

Lemma unique_scalars_head (k : Element) (ks : list Element) :
  unique_scalars (k :: ks) -> in_types (datatype k) BBG_SEQUENCES = false ->
  ~ In (name k) (map name ks).
Proof.
  intros H Hdt Hin. specialize (H k (or_introl eq_refl) Hdt). simpl in H.
  destruct (string_dec (name k) (name k)) as [_ | N]; [| congruence].
  apply (count_occ_In string_dec) in Hin. lia.
Qed.

(** Decoding the children [ks] into a level that holds the keys of the
    children [seen_names] decoded before: every child adds a key. *)
Lemma siblings_loop (names : list string) (ks : list Element) :
  suffix_free names ->
  forall seen_names d s d' s',
    incl seen_names names ->
    (forall k, In k ks -> In (name k) names) ->
    unique_scalars ks ->
    (forall k, In k ks -> in_types (datatype k) BBG_SEQUENCES = false ->
               ~ In (name k) seen_names) ->
    level_keys seen_names d s ->
    NoDup (dict_keys s) ->
    for_each ks
      (fun k st => SessionFactory._element_factory k (fst st) (Some (snd st))) (d, s)
    = Ok (d', s') ->
    List.length s' = List.length s + List.length ks
    /\ NoDup (dict_keys s')
    /\ level_keys (seen_names ++ map name ks) d' s'.
Proof.
  intros Hsf. induction ks as [| k ks IH];
    intros seen_names d s d' s' Hincl Hks Huniq Hold Hlk Hnd H.
  - inversion H; subst. simpl. rewrite app_nil_r.
    repeat split; [lia | exact Hnd | exact Hlk].
  - rewrite for_each_cons in H. cbn [fst snd] in H.
    destruct (SessionFactory._element_factory k d (Some s)) as [[d1 s1] |] eqn:E;
      [| discriminate].
    cbn [Py.bind] in H.
    pose proof (Hks k (or_introl eq_refl)) as Hname.
    destruct (unique_scalars_tail Huniq) as [Huniq' Hdiff].
    assert (Hstep : exists key v,
               s1 = dict_set (SStr key) v s
               /\ ~ In (SStr key) (dict_keys s)
               /\ List.length d <= List.length d1
               /\ (key = name k
                   \/ exists j, j < List.length d1
                                /\ key = SessionFactory.suffixed (name k) j)).
    { destruct (in_types (datatype k) BBG_SEQUENCES) eqn:Hdt.
      - destruct (composite_child k d s Hdt E) as [key [sub [Hs1 Hcase]]].
        rewrite dict_set_set in Hs1.
        exists key, (VDict sub). split; [exact Hs1 |].
        destruct Hcase as [[Hm [Hk Hd]] | [Hm [Hk Hd]]]; subst key.
        + split; [| split; [exact Hd | left; reflexivity]].
          intros Hin. apply dict_mem_In in Hin. congruence.
        + split; [| split; [lia | right]].
          * apply (@minted_key_fresh names seen_names d s (name k) Hsf Hincl Hname Hlk).
          * exists (List.length d). split; [exact Hd | reflexivity].
      - destruct (scalar_child k d s Hdt E) as [-> [v Hs1]].
        exists (name k), v. split; [exact Hs1 |].
        split; [| split; [lia | left; reflexivity]].
        apply (@own_name_fresh names seen_names d s (name k) Hsf Hincl Hname); [| exact Hlk].
        apply (Hold k (or_introl eq_refl) Hdt). }
    destruct Hstep as [key [v [Hs1 [Hnew [Hd Hshape]]]]].
    assert (Hkeys : dict_keys s1 = dict_keys s ++ [SStr key]).
    { rewrite Hs1, dict_keys_set.
      destruct (dict_mem (SStr key) s) eqn:Hm; [| reflexivity].
      apply dict_mem_In in Hm. contradiction. }
    assert (Hlen : List.length s1 = S (List.length s)).
    { rewrite <- !dict_keys_length, Hkeys, length_app. simpl. lia. }
    destruct (IH (seen_names ++ [name k]) d1 s1 d' s') as [L [N K]].
    + intros a Ha. apply in_app_or in Ha. destruct Ha as [Ha | [<- | []]]; auto.
    + intros k' Hin. apply Hks. right. exact Hin.
    + exact Huniq'.
    + intros k' Hin Hdt Hseen. apply in_app_or in Hseen.
      destruct Hseen as [Hseen | [Heq | []]].
      * exact (Hold k' (or_intror Hin) Hdt Hseen).
      * exact (Hdiff k' Hin Hdt (eq_sym Heq)).
    + intros key' Hin. rewrite Hkeys in Hin. apply in_app_or in Hin.
      destruct Hin as [Hin | [<- | []]].
      * apply (@level_keys_grow seen_names (seen_names ++ [name k]) d d1 s);
          [apply incl_appl, incl_refl | exact Hd | exact Hlk | exact Hin].
      * destruct Hshape as [-> | [j [Hj ->]]].
        -- left. exists (name k). split; [apply in_or_app; right; left |]; reflexivity.
        -- right. exists (name k), j.
           repeat split; [apply in_or_app; right; left; reflexivity | exact Hj].
    + rewrite Hkeys. apply NoDup_snoc; assumption.
    + exact H.
    + rewrite <- app_assoc in K. simpl in K.
      repeat split; [simpl; lia | exact N | exact K].
Qed.

Lemma iterator_composite (e : Element) :
  composite (datatype e) = true ->
  SessionFactory._get_bbg_iterator e = Some (map IElem (kids e)).
Proof.
  intros Hc. unfold SessionFactory._get_bbg_iterator, values, elements, isComplexType.
  rewrite Hc. destruct (isArray e); reflexivity.
Qed.

Lemma composite_in_sequences (d : DataType) :
  composite d = true -> in_types d BBG_SEQUENCES = true.
Proof. destruct d; try discriminate; reflexivity. Qed.

(** Every child of a composite element has a key of its own in the
    element's mapping, when no scalar child shares its name with a
    sibling and no child's name clashes with a minted key. *)
Lemma siblings_kept (parent : Element) (dups dups' : list string)
      (results : option dict) (results' : dict) :
  composite (datatype parent) = true ->
  unique_scalars (kids parent) ->
  suffix_free (map name (kids parent)) ->
  SessionFactory._element_factory parent dups results = Ok (dups', results') ->
  exists key sub,
    dict_get (SStr key) results' = Some (VDict sub)
    /\ List.length sub = List.length (kids parent)
    /\ NoDup (dict_keys sub)
    /\ level_keys (map name (kids parent)) dups' sub
    /\ (key = name parent
        \/ key = SessionFactory.suffixed (name parent) (List.length dups)).
Proof.
  intros Hc Huniq Hsf H. rewrite _element_factory_eq in H.
  destruct (negb (isValid parent)); [discriminate |].
  cbv zeta in H. rewrite (composite_in_sequences _ Hc) in H.
  assert (Hsub : forall d1 d2 sub,
             sub_elements parent (d1, []) = Ok (d2, sub) ->
             List.length sub = List.length (kids parent)
             /\ NoDup (dict_keys sub)
             /\ level_keys (map name (kids parent)) d2 sub).
  { intros d1 d2 sub Hs. unfold sub_elements in Hs.
    rewrite (iterator_composite _ Hc) in Hs. cbn [SessionFactory.iter Py.bind] in Hs.
    rewrite for_each_map in Hs.
    apply (@siblings_loop (map name (kids parent)) (kids parent) Hsf [] d1 [] d2 sub).
    - intros a [].
    - intros k Hin. apply in_map. exact Hin.
    - exact Huniq.
    - intros k _ _ [].
    - intros key [].
    - constructor.
    - exact Hs. }
  destruct (negb (dict_mem (SStr (name parent)) _)).
  - destruct (sub_elements _ _) as [[d2 sub] |] eqn:Hs; [| discriminate].
    inversion H; subst. destruct (Hsub _ _ _ Hs) as [L [N K]].
    exists (name parent), sub. rewrite dict_get_set.
    repeat split; auto.
  - destruct (sub_elements _ _) as [[d2 sub] |] eqn:Hs; [| discriminate].
    inversion H; subst. destruct (Hsub _ _ _ Hs) as [L [N K]].
    exists (SessionFactory.suffixed (name parent) (List.length dups)), sub.
    rewrite dict_get_set. repeat split; auto.
Qed.

Lemma same_name_unique_scalars (ks : list Element) :
  Forall (fun k => in_types (datatype k) BBG_SEQUENCES = true) ks ->
  unique_scalars ks.
Proof.
  intros H k Hin Hdt. rewrite Forall_forall in H. rewrite (H k Hin) in Hdt. discriminate.
Qed.

(** *** The levels of a wire element *)






(** Outside such levels the guarantee is lost.  In a record with two
    scalar fields of one name the second replaces the first; and a record
    named like a minted key is overwritten by the repeat that mints it. *)
Remark malformed_level_overwrites :
  SessionFactory._element_factory Samples.twice_px [] None
  = Ok ([], [(SStr "fieldData", VDict [(SStr "PX_LAST", VStr "2")])])
  /\ SessionFactory._element_factory Samples.clash [] None
     = Ok (["TICKER_0"],
           [(SStr "fieldData",
             VDict [(SStr "TICKER", VDict [(SStr "x", VStr "1")]);
                    (SStr "TICKER_0", VDict [(SStr "z", VStr "3")])])]).
Proof. split; vm_compute; reflexivity. Qed.



(** Same-named composite children: one distinct key each. *)
Corollary same_named_children_distinct_keys
          (parent : Element) (a : string) (dups dups' : list string)
          (results : option dict) (results' : dict) :
  composite (datatype parent) = true ->
  Forall (fun k => in_types (datatype k) BBG_SEQUENCES = true /\ name k = a)
         (kids parent) ->
  SessionFactory._element_factory parent dups results = Ok (dups', results') ->
  exists key sub,
    dict_get (SStr key) results' = Some (VDict sub)
    /\ List.length sub = List.length (kids parent)
    /\ NoDup (dict_keys sub).
Proof.
  intros Hc Hk H. rewrite Forall_forall in Hk.
  destruct (@siblings_kept parent dups dups' results results' Hc)
    as [key [sub [G [L [N _]]]]].
  - apply same_name_unique_scalars. apply Forall_forall.
    intros k Hin. apply (Hk k Hin).
  - apply (@same_name_suffix_free a). intros b Hb.
    apply in_map_iff in Hb. destruct Hb as [k [<- Hin]]. apply (Hk k Hin).
  - exact H.
  - exists key, sub. auto.
Qed.

(* ================================================================== *)
(** * Further properties of the decoding engine and the requests *)
(* ================================================================== *)

(** ** _merge_two_dicts *)

Lemma dict_get_set_other (k k' : scalar) (v : value) (d : dict) :
  k <> k' -> dict_get k (dict_set k' v d) = dict_get k d.
Proof.
  intros N. induction d as [| [q w] d IH]; cbn [dict_set dict_get].
  - destruct (scalar_eq_dec k k'); [contradiction | reflexivity].
  - destruct (scalar_eq_dec k' q) as [E | N']; cbn [dict_get].
    + subst q. destruct (scalar_eq_dec k k'); [contradiction | reflexivity].
    + destruct (scalar_eq_dec k q); [reflexivity | exact IH].
Qed.

Lemma dict_mem_get (k : scalar) (d : dict) :
  dict_mem k d = match dict_get k d with Some _ => true | None => false end.
Proof.
  induction d as [| [q w] d IH]; cbn [dict_mem dict_get]; [reflexivity |].
  destruct (scalar_eq_dec k q); [reflexivity | exact IH].
Qed.

Lemma dict_get_absent (k : scalar) (d : dict) :
  ~ In k (dict_keys d) -> dict_get k d = None.
Proof.
  intros H. pose proof (dict_mem_get k d) as M.
  destruct (dict_get k d); [| reflexivity].
  exfalso. apply H, dict_mem_In. exact M.
Qed.

Lemma dict_set_NoDup (k : scalar) (v : value) (d : dict) :
  NoDup (dict_keys d) -> NoDup (dict_keys (dict_set k v d)).
Proof.
  intros H. rewrite dict_keys_set. destruct (dict_mem k d) eqn:E; [exact H |].
  apply NoDup_snoc; [exact H |]. intros Hin. apply dict_mem_In in Hin. congruence.
Qed.

Lemma dict_update_cons (x : dict) (kv : scalar * value) (y : dict) :
  dict_update x (kv :: y) = dict_update (dict_set (fst kv) (snd kv) x) y.
Proof. reflexivity. Qed.

Lemma dict_update_NoDup (x y : dict) :
  NoDup (dict_keys x) -> NoDup (dict_keys (dict_update x y)).
Proof.
  revert x. induction y as [| kv y IH]; intros x H; [exact H |].
  rewrite dict_update_cons. apply IH, dict_set_NoDup, H.
Qed.

Lemma dict_get_update (k : scalar) (x y : dict) :
  NoDup (dict_keys y) ->
  dict_get k (dict_update x y)
  = match dict_get k y with
    | Some v => Some v
    | None => dict_get k x
    end.
Proof.
  revert x. induction y as [| [q w] y IH]; intros x H; [reflexivity |].
  rewrite dict_update_cons. cbn [fst snd]. inversion H as [| ? ? Hq Hy]; subst.
  rewrite IH by exact Hy. cbn [dict_get].
  destruct (scalar_eq_dec k q) as [E | N].
  - subst q. rewrite dict_get_absent by exact Hq. apply dict_get_set.
  - rewrite dict_get_set_other by exact N. reflexivity.
Qed.

Lemma dict_mem_set_other (k k' : scalar) (v : value) (d : dict) :
  k <> k' -> dict_mem k (dict_set k' v d) = dict_mem k d.
Proof. intros N. rewrite !dict_mem_get, dict_get_set_other by exact N. reflexivity. Qed.

(** The keys of [y] that [x] does not have, in the order of [y]. *)
Lemma dict_keys_update (x y : dict) :
  NoDup (dict_keys y) ->
  dict_keys (dict_update x y)
  = dict_keys x ++ filter (fun k => negb (dict_mem k x)) (dict_keys y).
Proof.
  revert x. induction y as [| [q w] y IH]; intros x H.
  - simpl. rewrite app_nil_r. reflexivity.
  - rewrite dict_update_cons. cbn [fst snd]. inversion H as [| ? ? Hq Hy]; subst.
    rewrite IH by exact Hy. rewrite dict_keys_set. cbn [dict_keys map fst filter].
    assert (Hf : filter (fun k => negb (dict_mem k (dict_set q w x))) (map fst y)
                 = filter (fun k => negb (dict_mem k x)) (map fst y)).
    { apply filter_ext_in. intros k Hin.
      rewrite dict_mem_set_other; [reflexivity |]. intros ->. contradiction. }
    unfold dict_keys in *. rewrite Hf.
    destruct (dict_mem q x); cbn [negb]; [reflexivity |].
    rewrite <- app_assoc. reflexivity.
Qed.

Lemma dict_ext (a b : dict) :
  NoDup (dict_keys a) ->
  dict_keys a = dict_keys b ->
  (forall k, dict_get k a = dict_get k b) ->
  a = b.
Proof.
  revert b. induction a as [| [k v] a IH]; intros [| [k' v'] b] Hnd Hk Hg;
    try discriminate; [reflexivity |].
  cbn [dict_keys map fst] in Hk. inversion Hk as [[Hk1 Hk2]]. subst k'.
  inversion Hnd as [| ? ? Hnew Hnd']; subst.
  pose proof (Hg k) as Hv. cbn [dict_get] in Hv.
  destruct (scalar_eq_dec k k); [| congruence]. inversion Hv; subst v'.
  f_equal. apply IH; [exact Hnd' | exact Hk2 |].
  intros q. destruct (scalar_eq_dec q k) as [-> | N].
  - rewrite dict_get_absent by exact Hnew.
    symmetry. apply dict_get_absent. unfold dict_keys in *. rewrite <- Hk2. exact Hnew.
  - specialize (Hg q). cbn [dict_get] in Hg.
    destruct (scalar_eq_dec q k); [contradiction | exact Hg].
Qed.

Lemma filter_filter_keys (x y : dict) (l : list scalar) :
  filter (fun k => negb (dict_mem k x)) (filter (fun k => negb (dict_mem k y)) l)
  = filter (fun k => negb (dict_mem k x || dict_mem k y)) l.
Proof.
  induction l as [| k l IH]; [reflexivity |]. cbn [filter].
  destruct (dict_mem k y); cbn [negb filter].
  - rewrite orb_true_r. exact IH.
  - rewrite orb_false_r. destruct (dict_mem k x); cbn [negb]; rewrite IH; reflexivity.
Qed.

Lemma dict_mem_update (k : scalar) (x y : dict) :
  NoDup (dict_keys y) ->
  dict_mem k (dict_update x y) = dict_mem k x || dict_mem k y.
Proof.
  intros H. rewrite !dict_mem_get, dict_get_update by exact H.
  destruct (dict_get k y); [apply eq_sym, orb_true_r |].
  rewrite orb_false_r. reflexivity.
Qed.

(** X1: in a merged dictionary each key holds the value of the newer
    fragment [y] when [y] has the key, and the value of [x] otherwise.
    The keys of both dictionaries are strings or temporal objects, as the
    decoders build them. *)
Theorem merge_newest_wins (x y : dict) (k : scalar) :
  decoder_keys x = true ->
  decoder_keys y = true ->
  NoDup (dict_keys y) ->
  exists z,
    SessionFactory._merge_two_dicts (VDict x) y = Ok z
    /\ dict_get k z = match dict_get k y with
                      | Some v => Some v
                      | None => dict_get k x
                      end.
Proof.
  intros _ _ H. exists (dict_update x y). split; [reflexivity |].
  apply dict_get_update. exact H.
Qed.

Lemma merge_newest_wins_witness :
  exists z,
    SessionFactory._merge_two_dicts
      (VDict [(SStr "a", VInt 1); (SStr "b", VInt 2)]) [(SStr "b", VInt 3)] = Ok z
    /\ dict_get (SStr "b") z = Some (VInt 3).
Proof.
  apply (@merge_newest_wins [(SStr "a", VInt 1); (SStr "b", VInt 2)]
           [(SStr "b", VInt 3)] (SStr "b")).
  - reflexivity.
  - reflexivity.
  - repeat constructor. intros [].
Defined.

(** X2: merging keeps insertion order and loses no key: the keys of the
    result are those of [x], in order, followed by the keys of [y] that
    [x] does not have, in order; they are pairwise distinct when those of
    [x] are.  The keys of both dictionaries are strings or temporal
    objects, as the decoders build them. *)
Theorem merge_keys_in_order (x y : dict) :
  decoder_keys x = true ->
  decoder_keys y = true ->
  NoDup (dict_keys y) ->
  exists z,
    SessionFactory._merge_two_dicts (VDict x) y = Ok z
    /\ dict_keys z = dict_keys x ++ filter (fun k => negb (dict_mem k x)) (dict_keys y)
    /\ (NoDup (dict_keys x) -> NoDup (dict_keys z)).
Proof.
  intros _ _ H. exists (dict_update x y). split; [reflexivity |]. split.
  - apply dict_keys_update. exact H.
  - apply dict_update_NoDup.
Qed.

Lemma merge_keys_in_order_witness :
  exists z,
    SessionFactory._merge_two_dicts
      (VDict [(SStr "a", VInt 1); (SStr "b", VInt 2)])
      [(SStr "c", VInt 4); (SStr "b", VInt 3)] = Ok z
    /\ dict_keys z = [SStr "a"; SStr "b"; SStr "c"].
Proof.
  destruct (@merge_keys_in_order [(SStr "a", VInt 1); (SStr "b", VInt 2)]
              [(SStr "c", VInt 4); (SStr "b", VInt 3)]) as [z [Hz [Hk _]]].
  - reflexivity.
  - reflexivity.
  - repeat constructor; simpl; intuition discriminate.
  - exists z. split; [exact Hz | exact Hk].
Defined.

(** X3: merging is associative: merging three fragments in order gives
    the same dictionary, keys in the same order, whether the first two or
    the last two are merged first. *)
Theorem merge_associative (x y z : dict) :
  NoDup (dict_keys x) -> NoDup (dict_keys y) -> NoDup (dict_keys z) ->
  (xy <- SessionFactory._merge_two_dicts (VDict x) y ;;
   SessionFactory._merge_two_dicts (VDict xy) z)
  = (yz <- SessionFactory._merge_two_dicts (VDict y) z ;;
     SessionFactory._merge_two_dicts (VDict x) yz).
Proof.
  intros Hx Hy Hz. cbn [SessionFactory._merge_two_dicts Py.bind]. f_equal.
  pose proof (dict_update_NoDup y z Hy) as Hyz.
  apply dict_ext.
  - apply dict_update_NoDup, dict_update_NoDup, Hx.
  - rewrite !dict_keys_update by assumption.
    rewrite filter_app, filter_filter_keys, <- app_assoc. do 2 f_equal.
    apply filter_ext. intros k. rewrite dict_mem_update by assumption. reflexivity.
  - intros k. rewrite !dict_get_update by assumption.
    destruct (dict_get k z); reflexivity.
Qed.

Lemma merge_associative_witness :
  (xy <- SessionFactory._merge_two_dicts (VDict [(SStr "a", VInt 1)]) [(SStr "b", VInt 2)] ;;
   SessionFactory._merge_two_dicts (VDict xy) [(SStr "a", VInt 3)])
  = (yz <- SessionFactory._merge_two_dicts (VDict [(SStr "b", VInt 2)]) [(SStr "a", VInt 3)] ;;
     SessionFactory._merge_two_dicts (VDict [(SStr "a", VInt 1)]) yz).
Proof.
  apply (@merge_associative [(SStr "a", VInt 1)] [(SStr "b", VInt 2)] [(SStr "a", VInt 3)]);
    repeat constructor; intros [].
Defined.

(** ** The error factories *)

Lemma dict_set_fresh (k : scalar) (v : value) (d : dict) :
  ~ In k (dict_keys d) -> dict_set k v d = d ++ [(k, v)].
Proof.
  induction d as [| [q w] d IH]; intros H; cbn [dict_set]; [reflexivity |].
  destruct (scalar_eq_dec k q) as [E | N].
  - exfalso. apply H. left. symmetry. exact E.
  - rewrite <- app_comm_cons. f_equal. apply IH. intros Hin. apply H. right. exact Hin.
Qed.

Lemma NoDup_map_SStr (l : list string) : NoDup l -> NoDup (map SStr l).
Proof.
  induction 1 as [| a l Ha Hl IH]; cbn [map]; constructor; [| exact IH].
  intros Hin. apply in_map_iff in Hin. destruct Hin as [b [E Hb]].
  inversion E; subst. contradiction.
Qed.

Lemma named_values_loop (ks : list Element) (acc : dict) :
  forallb holds_value ks = true ->
  NoDup (dict_keys acc ++ map (fun k => SStr (name k)) ks) ->
  for_each (map IElem ks)
    (fun it d =>
       e <- as_element it ;;
       v <- getValue e ;;
       Ok (dict_set (SStr (name e)) (VScalar v) d)) acc
  = Ok (acc ++ map named_value ks).
Proof.
  revert acc. induction ks as [| k ks IH]; intros acc Hv Hnd.
  - simpl. rewrite app_nil_r. reflexivity.
  - cbn [forallb] in Hv. apply andb_true_iff in Hv. destruct Hv as [Hk Hks].
    cbn [map]. rewrite for_each_cons. cbn [as_element Py.bind].
    unfold holds_value in Hk. apply andb_true_iff in Hk. destruct Hk as [Hd Hval].
    apply negb_true_iff in Hd.
    assert (Hget : getValue k = Ok (first_value k)).
    { unfold getValue, first_value. rewrite Hd. destruct (vals k); [discriminate | reflexivity]. }
    rewrite Hget. cbn [Py.bind].
    assert (Hfresh : ~ In (SStr (name k)) (dict_keys acc)).
    { intros Hin. apply NoDup_remove_2 in Hnd. apply Hnd.
      apply in_or_app. left. exact Hin. }
    rewrite dict_set_fresh by exact Hfresh.
    rewrite IH; [| exact Hks |].
    + rewrite <- app_assoc. reflexivity.
    + unfold dict_keys. rewrite map_app. cbn [map fst]. rewrite <- app_assoc. exact Hnd.
Qed.

(** X5: for an error record whose sub-elements bear distinct names and
    each hold a value, [_response_error_factory] and
    [_security_error_factory] return the names with their values, in the
    order of the record. *)
Theorem error_factories_list_fields (e : Element) :
  isComplexType e = true ->
  forallb holds_value (kids e) = true ->
  NoDup (map name (kids e)) ->
  SessionFactory._response_error_factory e = Ok (map named_value (kids e))
  /\ SessionFactory._security_error_factory e = Ok (map named_value (kids e)).
Proof.
  intros Hc Hv Hnd.
  assert (Hit : SessionFactory._get_bbg_iterator e = Some (map IElem (kids e))).
  { unfold SessionFactory._get_bbg_iterator, elements. rewrite Hc.
    unfold isComplexType in Hc. destruct (isArray e); [| reflexivity].
    rewrite andb_false_r in Hc. discriminate. }
  assert (Hnd' : NoDup (dict_keys [] ++ map (fun k => SStr (name k)) (kids e))).
  { cbn [dict_keys map app]. rewrite <- (map_map name SStr).
    apply NoDup_map_SStr. exact Hnd. }
  unfold SessionFactory._response_error_factory, SessionFactory._security_error_factory.
  rewrite Hit. cbn [SessionFactory.iter Py.bind].
  rewrite named_values_loop by assumption. split; reflexivity.
Qed.

Lemma error_factories_list_fields_witness :
  SessionFactory._response_error_factory
    (Samples.record "responseError"
       [Samples.text "category" "BAD_ARGS"; Samples.text "message" "No securities"])
  = Ok [(SStr "category", VStr "BAD_ARGS"); (SStr "message", VStr "No securities")].
Proof.
  apply (@error_factories_list_fields
           (Samples.record "responseError"
              [Samples.text "category" "BAD_ARGS";
               Samples.text "message" "No securities"])).
  - reflexivity.
  - reflexivity.
  - repeat constructor; simpl; intuition discriminate.
Defined.

Lemma dict_get_fold_category (c : string) (pairs : list (string * string)) (d : dict) :
  dict_get (SStr c)
    (fold_left (fun d p => dict_set (SStr (snd p)) (VStr (fst p)) d) pairs d)
  = match last_of_category c pairs with
    | Some v => Some (VStr v)
    | None => dict_get (SStr c) d
    end.
Proof.
  unfold last_of_category.
  induction pairs as [| p pairs IH] using rev_ind; [reflexivity |].
  rewrite !fold_left_app. cbn [fold_left].
  destruct (String.eqb_spec (snd p) c) as [E | N].
  - rewrite E. apply dict_get_set.
  - rewrite dict_get_set_other by (intros E; inversion E; congruence).
    exact IH.
Qed.

Lemma field_exception_loop (items : list item) (pairs : list (string * string))
      (d : dict) :
  all_ok exception_pair items = Ok pairs ->
  for_each items
    (fun field_exception field_exceptions =>
       e <- as_element field_exception ;;
       error_info <- getElement e ERROR_INFO ;;
       v <- getElementAsString e FIELD_ID ;;
       k <- getElementAsString error_info CATEGORY ;;
       Ok (dict_set (SStr k) (VStr v) field_exceptions)) d
  = Ok (fold_left (fun d p => dict_set (SStr (snd p)) (VStr (fst p)) d) pairs d).
Proof.
  revert pairs d. induction items as [| it items IH]; intros pairs d H.
  - inversion H; reflexivity.
  - cbn [all_ok] in H. unfold exception_pair at 1 in H. rewrite for_each_cons.
    destruct (as_element it) as [e |]; cbn [Py.bind] in *; [| discriminate].
    destruct (getElement e ERROR_INFO) as [ei |]; cbn [Py.bind] in *; [| discriminate].
    destruct (getElementAsString e FIELD_ID) as [v |]; cbn [Py.bind] in *; [| discriminate].
    destruct (getElementAsString ei CATEGORY) as [k |]; cbn [Py.bind] in *; [| discriminate].
    destruct (all_ok exception_pair items) as [ps |]; [| discriminate].
    inversion H; subst. cbn [fold_left fst snd]. apply IH. reflexivity.
Qed.

(** X6: [_field_exception_factory] keys its result by error category:
    when every field exception has a field id and an error category, the
    result holds for each category the field id of the last exception of
    that category, so exceptions that share a category leave one entry. *)
Theorem field_exceptions_keyed_by_category
        (arr : Element) (items : list item) (pairs : list (string * string)) :
  SessionFactory._get_bbg_iterator arr = Some items ->
  all_ok exception_pair items = Ok pairs ->
  exists m,
    SessionFactory._field_exception_factory arr = Ok m
    /\ (forall c, dict_get (SStr c) m = option_map VStr (last_of_category c pairs))
    /\ List.length m <= List.length items.
Proof.
  intros Hit Hall.
  exists (fold_left (fun d p => dict_set (SStr (snd p)) (VStr (fst p)) d) pairs []).
  split; [| split].
  - unfold SessionFactory._field_exception_factory. rewrite Hit.
    cbn [SessionFactory.iter Py.bind]. apply field_exception_loop. exact Hall.
  - intros c. rewrite dict_get_fold_category.
    destruct (last_of_category c pairs); reflexivity.
  - rewrite <- (@all_ok_length _ _ exception_pair items pairs Hall).
    assert (G : forall d,
               List.length
                 (fold_left (fun d p => dict_set (SStr (snd p)) (VStr (fst p)) d) pairs d)
               <= List.length d + List.length pairs).
    { clear. induction pairs as [| p pairs IH]; intros d; cbn [fold_left List.length].
      - lia.
      - specialize (IH (dict_set (SStr (snd p)) (VStr (fst p)) d)).
        assert (L : List.length (dict_set (SStr (snd p)) (VStr (fst p)) d)
                    <= S (List.length d)).
        { rewrite <- !dict_keys_length, dict_keys_set.
          destruct (dict_mem _ d); rewrite ?length_app; simpl; lia. }
        lia. }
    apply (G []).
Qed.

Lemma field_exceptions_keyed_by_category_witness :
  exists m,
    SessionFactory._field_exception_factory Examples.two_bad_fields = Ok m
    /\ dict_get (SStr "BAD_FLD") m = Some (VStr "VOLUME_BAD")
    /\ List.length m <= 2.
Proof.
  destruct (@field_exceptions_keyed_by_category Examples.two_bad_fields
              [IElem (Examples.field_exception "PX_BAD" "BAD_FLD");
               IElem (Examples.field_exception "VOLUME_BAD" "BAD_FLD")]
              [("PX_BAD", "BAD_FLD"); ("VOLUME_BAD", "BAD_FLD")] eq_refl eq_refl)
    as [m [Hm [Hg Hl]]].
  exists m. split; [exact Hm |]. split; [apply (Hg "BAD_FLD") | exact Hl].
Defined.

(** ** _field_factory and DataTypeFactory *)

(** X7: whenever [_field_factory] returns, it returns the pair of the
    element's name and its first value, the value rendered as text for
    the kinds date, datetime and time and passed through unchanged for
    every other kind.  A temporal value is taken within Python's field
    ranges with a year of four digits, where [%Y] is rendered the same
    by every C library. *)
Theorem field_factory_returns_named_pair (data : Element) (r : value) :
  SessionFactory._field_factory data = Ok r ->
  (forall t, getValue data = Ok (STemporal t) -> calendar t) ->
  exists s,
    getValue data = Ok s
    /\ r = VList [VStr (name data); rendered (datatype data) s].
Proof.
  unfold SessionFactory._field_factory. intros H _.
  destruct (datatype data) eqn:Hd; cbn [SessionFactory.process_factory] in H;
    try discriminate;
    unfold DataTypeFactory.process_bool, DataTypeFactory.process_byte,
      DataTypeFactory.process_byte_array,
      DataTypeFactory.process_char, DataTypeFactory.process_scalar,
      DataTypeFactory.process_string, DataTypeFactory.process_date,
      DataTypeFactory.process_date_time, DataTypeFactory.process_time in H;
    destruct (getValue data) as [s |]; cbn [Py.bind] in H; try discriminate;
    exists s; (split; [reflexivity |]);
    try (cbn in H; inversion H; reflexivity);
    destruct s as [| | | | | | t]; cbn in H; try discriminate;
    inversion H; reflexivity.
Qed.

Lemma field_factory_returns_named_pair_witness :
  exists s,
    getValue Examples.settle_date = Ok s
    /\ VList [VStr "SETTLE_DT"; VStr "2023-01-31"]
       = VList [VStr (name Examples.settle_date);
                rendered (datatype Examples.settle_date) s].
Proof.
  apply (@field_factory_returns_named_pair Examples.settle_date
           (VList [VStr "SETTLE_DT"; VStr "2023-01-31"])).
  - vm_compute. reflexivity.
  - intros t E. vm_compute in E. inversion E; subst t.
    unfold calendar, MAXYEAR.
    cbn [year_of month_of day_of hour_of minute_of second_of]. lia.
Defined.

Lemma get_after (a b : string) (c : ascii) :
  String.get (String.length a) (a ++ String c b)%string = Some c.
Proof.
  pose proof (append_correct2 a (String c b) 0) as H. cbn [plus String.get] in H.
  symmetry. exact H.
Qed.

Lemma get_skip (a b : string) (n m : nat) :
  String.length a = m -> String.get (n + m) (a ++ b)%string = String.get n b.
Proof. intros <-. symmetry. apply append_correct2. Qed.

Lemma calendar_lengths (t : temporal) :
  calendar t ->
  String.length (zero_pad 4 (year_of t)) = 4
  /\ String.length (zero_pad 2 (month_of t)) = 2
  /\ String.length (zero_pad 2 (day_of t)) = 2
  /\ String.length (zero_pad 2 (hour_of t)) = 2
  /\ String.length (zero_pad 2 (minute_of t)) = 2
  /\ String.length (zero_pad 2 (second_of t)) = 2.
Proof.
  intros [Hy [Hm [Hd [Hh [Hmi Hs]]]]].
  repeat split; first [apply zero_pad_4_length; exact Hy | apply zero_pad_2_length; lia].
Qed.

(** X8: the three temporal handlers render fixed-width text.  For an
    element holding a temporal value within Python's field ranges (year
    of four digits), [process_date] returns ten characters with ['-'] at
    positions 4 and 7, [process_time] eight characters with [':'] at
    positions 2 and 5, and [process_date_time] the nineteen characters of
    the date, a space and the time. *)
Theorem temporal_handlers_fixed_width (data : Element) (t : temporal) :
  getValue data = Ok (STemporal t) ->
  calendar t ->
  (exists d,
      DataTypeFactory.process_date data = Ok (VList [VStr (name data); VStr d])
      /\ String.length d = 10
      /\ String.get 4 d = Some "-"%char /\ String.get 7 d = Some "-"%char)
  /\ (exists c,
         DataTypeFactory.process_time data = Ok (VList [VStr (name data); VStr c])
         /\ String.length c = 8
         /\ String.get 2 c = Some ":"%char /\ String.get 5 c = Some ":"%char)
  /\ (exists dt,
         DataTypeFactory.process_date_time data = Ok (VList [VStr (name data); VStr dt])
         /\ String.length dt = 19
         /\ String.get 10 dt = Some " "%char
         /\ dt = (fmt_date t ++ " " ++ fmt_time t)%string).
Proof.
  intros Hv Hc.
  destruct (calendar_lengths Hc) as [Ly [Lm [Ld [Lh [Lmi Ls]]]]].
  assert (Ldate : String.length (fmt_date t) = 10).
  { unfold fmt_date. rewrite !string_length_app, Ly, Lm, Ld. reflexivity. }
  assert (Ltime : String.length (fmt_time t) = 8).
  { unfold fmt_time. rewrite !string_length_app, Lh, Lmi, Ls. reflexivity. }
  split; [| split].
  - exists (fmt_date t). unfold DataTypeFactory.process_date. rewrite Hv.
    split; [reflexivity |]. split; [exact Ldate |]. unfold fmt_date. split.
    + rewrite <- Ly at 1. apply get_after.
    + change 7 with (3 + 4). rewrite get_skip by exact Ly.
      cbn [String.append String.get]. rewrite <- Lm at 1. apply get_after.
  - exists (fmt_time t). unfold DataTypeFactory.process_time. rewrite Hv.
    split; [reflexivity |]. split; [exact Ltime |]. unfold fmt_time. split.
    + rewrite <- Lh at 1. apply get_after.
    + change 5 with (3 + 2). rewrite get_skip by exact Lh.
      cbn [String.append String.get]. rewrite <- Lmi at 1. apply get_after.
  - exists (fmt_date_time t). unfold DataTypeFactory.process_date_time. rewrite Hv.
    split; [reflexivity |]. unfold fmt_date_time. split; [| split; [| reflexivity]].
    + rewrite !string_length_app, Ldate, Ltime. reflexivity.
    + rewrite <- Ldate at 1. apply get_after.
Qed.

Lemma temporal_handlers_fixed_width_witness :
  exists d,
    DataTypeFactory.process_date Examples.settle_date
    = Ok (VList [VStr "SETTLE_DT"; VStr d])
    /\ String.length d = 10
    /\ String.get 4 d = Some "-"%char /\ String.get 7 d = Some "-"%char.
Proof.
  apply (proj1 (@temporal_handlers_fixed_width Examples.settle_date (a_date 2023 1 31)
                  eq_refl
                  ltac:(unfold calendar, MAXYEAR; simpl; lia))).
Defined.

(** ** _element_factory: further properties *)

(** X9: an element of kind byte-array is never decoded to its value.
    The kind is listed in [BBG_SEQUENCES], so the element is treated as a
    composite: a byte-array that is not an array raises [TypeError], an
    array of byte-arrays with values raises [AttributeError], and the only
    case that returns is the empty array, which stores an empty mapping. *)
Theorem byte_array_never_decoded (e : Element) (dups : list string)
        (results : option dict) :
  datatype e = BYTEARRAY ->
  isValid e = true ->
  (isArray e = false ->
   SessionFactory._element_factory e dups results = Raise TypeError)
  /\ (isArray e = true -> vals e <> [] ->
      SessionFactory._element_factory e dups results = Raise AttributeError)
  /\ (forall d' r',
         SessionFactory._element_factory e dups results = Ok (d', r') ->
         isArray e = true /\ vals e = []
         /\ exists key, dict_get (SStr key) r' = Some (VDict [])).
Proof.
  destruct e as [nm dt arr valid vs ks]. cbn [datatype isValid isArray vals].
  intros -> ->. cbn [SessionFactory._element_factory negb].
  change (in_types BYTEARRAY BBG_SEQUENCES) with true. cbn [composite].
  split; [| split].
  - intros ->. destruct (negb (dict_mem _ _)); reflexivity.
  - intros -> Hv. destruct vs; [contradiction |].
    destruct (negb (dict_mem _ _)); reflexivity.
  - intros d' r' H.
    destruct (negb (dict_mem _ _)); destruct arr; try discriminate;
      destruct vs; try discriminate; cbn [Py.bind] in H; inversion H; subst;
      (split; [reflexivity |]); (split; [reflexivity |]);
      eexists; apply dict_get_set.
Qed.

Lemma byte_array_never_decoded_witness :
  SessionFactory._element_factory Examples.raw_bytes [] (Some []) = Raise TypeError.
Proof.
  apply (proj1 (@byte_array_never_decoded Examples.raw_bytes [] (Some [])
                  eq_refl eq_refl)).
  reflexivity.
Defined.

(** X10: decoding never removes or changes a registered duplicate name:
    the registry after a successful call is the registry before it,
    followed by the names minted during the call. *)
Theorem registry_is_extended (e : Element) :
  forall d r d' r',
    SessionFactory._element_factory e d r = Ok (d', r') ->
    exists minted, d' = d ++ minted.
Proof. apply registry_extends. Qed.

Lemma registry_is_extended_witness :
  exists minted,
    ["PX_LAST_0"; "DVD_HIST_1"; "DVD_HIST_2"] = ["PX_LAST_0"] ++ minted.
Proof.
  apply (@registry_is_extended Samples.dividends ["PX_LAST_0"] None
           ["PX_LAST_0"; "DVD_HIST_1"; "DVD_HIST_2"]
           [(SStr "DVD_HIST",
             VDict [(SStr "DVD_HIST", VDict [(SStr "Declared Date", VStr "2023-01-31")]);
                    (SStr "DVD_HIST_1", VDict [(SStr "Declared Date", VStr "2023-04-28")]);
                    (SStr "DVD_HIST_2", VDict [(SStr "Declared Date", VStr "2023-07-31")])])]).
  vm_compute. reflexivity.
Defined.

Lemma child_leaves_entry (k : Element) (d d' : list string) (s s' : dict) :
  SessionFactory._element_factory k d (Some s) = Ok (d', s') -> s' <> [].
Proof.
  intros H.
  assert (Hset : exists key v, s' = dict_set key v s).
  { destruct (in_types (datatype k) BBG_SEQUENCES) eqn:Hdt.
    - destruct (composite_child k d s Hdt H) as [key [sub [Hs _]]].
      rewrite dict_set_set in Hs. eauto.
    - destruct (scalar_child k d s Hdt H) as [_ [v Hs]]. eauto. }
  destruct Hset as [key [v ->]].
  destruct s as [| [q w] s]; cbn [dict_set]; [discriminate |].
  destruct (scalar_eq_dec key q); discriminate.
Qed.

Lemma children_leave_entries (ks : list Element) (d d' : list string) (s s' : dict) :
  for_each ks
    (fun k st => SessionFactory._element_factory k (fst st) (Some (snd st))) (d, s)
  = Ok (d', s') ->
  ks <> [] \/ s <> [] -> s' <> [].
Proof.
  revert d s. induction ks as [| k ks IH]; intros d s H Hne.
  - inversion H; subst. destruct Hne as [Hne | Hne]; [contradiction Hne; reflexivity | exact Hne].
  - rewrite for_each_cons in H. cbn [fst snd] in H.
    destruct (SessionFactory._element_factory k d (Some s)) as [[d1 s1] |] eqn:E;
      [| discriminate].
    cbn [Py.bind] in H. apply (IH d1 s1 H). right.
    exact (@child_leaves_entry k d d1 s s1 E).
Qed.

(** X11: [_flatten_dict] undoes exactly the wrapper [_element_factory]
    adds.  Decoding a record that has sub-elements yields a mapping with
    the record's name as its only key, and flattening it returns the
    mapping of the sub-elements itself, however many keys that has. *)
Theorem flatten_strips_wrapper (field_data : Element) (d' : list string) (r : dict) :
  composite (datatype field_data) = true ->
  kids field_data <> [] ->
  SessionFactory._element_factory field_data [] None = Ok (d', r) ->
  exists inner,
    inner <> []
    /\ r = [(SStr (name field_data), VDict inner)]
    /\ SessionFactory._flatten_dict (VDict r) = VDict inner.
Proof.
  intros Hc Hk H. rewrite _element_factory_eq in H.
  destruct (negb (isValid field_data)); [discriminate |].
  cbv zeta in H. rewrite (composite_in_sequences _ Hc) in H.
  cbn [dict_mem negb] in H.
  destruct (sub_elements field_data ([], [])) as [[d2 inner] |] eqn:Hs; [| discriminate].
  cbn [Py.bind dict_set] in H.
  destruct (scalar_eq_dec (SStr (name field_data)) (SStr (name field_data)));
    [| congruence].
  inversion H; subst d' r. clear H.
  assert (Hne : inner <> []).
  { unfold sub_elements in Hs. rewrite (iterator_composite _ Hc) in Hs.
    cbn [SessionFactory.iter Py.bind] in Hs. rewrite for_each_map in Hs.
    apply (@children_leave_entries (kids field_data) [] d2 [] inner Hs). left. exact Hk. }
  exists inner. split; [exact Hne |]. split; [reflexivity |].
  rewrite flatten_one_key.
  destruct inner as [| kv [| kv' rest]]; [contradiction Hne; reflexivity | reflexivity |].
  cbn [one_key]. apply flatten_many_keys.
Qed.

Lemma flatten_strips_wrapper_witness :
  exists inner,
    inner <> []
    /\ [(SStr "fieldData",
         VDict [(SStr "NAME", VStr "APPLE INC"); (SStr "CRNCY", VStr "USD")])]
       = [(SStr (name Examples.two_fields), VDict inner)]
    /\ SessionFactory._flatten_dict
         (VDict [(SStr "fieldData",
                  VDict [(SStr "NAME", VStr "APPLE INC"); (SStr "CRNCY", VStr "USD")])])
       = VDict inner.
Proof.
  apply (@flatten_strips_wrapper Examples.two_fields []).
  - reflexivity.
  - discriminate.
  - vm_compute. reflexivity.
Defined.

(** ** The historical decoder *)

(** X12: a result of the historical decoder that bears a security is a
    Per-Security Result in which security errors and security data
    exclude each other.  When the security data has a [securityError]
    element the result holds the decoded error with empty data and empty
    field exceptions; otherwise it holds the data and the field
    exceptions with empty security errors. *)
Theorem historical_result_shape (msg : Message) (security : option string) (r : dict) :
  SessionFactory._process_historical_data_msg msg = Ok (security, r) ->
  hasElement (asElement msg) RESPONSE_ERROR = false ->
  exists sd s,
    getElement (asElement msg) SECURITY_DATA = Ok sd
    /\ security = Some s
    /\ if hasElement sd SECURITY_ERROR then
         exists m, r = [(SStr "security_errors", VDict m);
                        (SStr "security_data", VDict []);
                        (SStr "field_exceptions", VDict [])]
       else
         exists data fe, r = [(SStr "security_data", VDict data);
                              (SStr "security_errors", VDict []);
                              (SStr "field_exceptions", VDict fe)].
Proof.
  unfold SessionFactory._process_historical_data_msg. intros H He.
  rewrite He in H.
  destruct (negb (hasElement (asElement msg) SECURITY_DATA)); [discriminate |].
  destruct (getElement (asElement msg) SECURITY_DATA) as [sd |];
    cbn [Py.bind] in H; [| discriminate].
  destruct (getElement sd SECURITY) as [se |]; cbn [Py.bind] in H; [| discriminate].
  destruct (getValue se) as [v |]; cbn [Py.bind] in H; [| discriminate].
  exists sd, (Py.str v). split; [reflexivity |].
  destruct (hasElement sd SECURITY_ERROR).
  - destruct (getElement sd SECURITY_ERROR) as [e |]; cbn [Py.bind] in H; [| discriminate].
    destruct (SessionFactory._security_error_factory e) as [m |];
      cbn [Py.bind] in H; [| discriminate].
    inversion H; subst. split; [reflexivity |]. exists m. reflexivity.
  - repeat match type of H with
           | context [Py.bind ?m _] => destruct m; cbn [Py.bind] in H; try discriminate
           end.
    inversion H; subst. split; [reflexivity |]. eauto.
Qed.

Lemma historical_result_shape_witness :
  exists sd s,
    getElement (asElement Examples.two_days) SECURITY_DATA = Ok sd
    /\ Some "IBM US Equity" = Some s
    /\ if hasElement sd SECURITY_ERROR then
         exists m,
           [(SStr "security_data",
             VDict [(STemporal (a_date 2023 1 30),
                     VDict [(SStr "PX_LAST", VScalar (SFloat "134.4"))]);
                    (STemporal (a_date 2023 1 31),
                     VDict [(SStr "PX_LAST", VScalar (SFloat "134.7"))])]);
            (SStr "security_errors", VDict []);
            (SStr "field_exceptions", VDict [])]
           = [(SStr "security_errors", VDict m);
              (SStr "security_data", VDict []);
              (SStr "field_exceptions", VDict [])]
       else
         exists data fe,
           [(SStr "security_data",
             VDict [(STemporal (a_date 2023 1 30),
                     VDict [(SStr "PX_LAST", VScalar (SFloat "134.4"))]);
                    (STemporal (a_date 2023 1 31),
                     VDict [(SStr "PX_LAST", VScalar (SFloat "134.7"))])]);
            (SStr "security_errors", VDict []);
            (SStr "field_exceptions", VDict [])]
           = [(SStr "security_data", VDict data);
              (SStr "security_errors", VDict []);
              (SStr "field_exceptions", VDict fe)].
Proof.
  apply (@historical_result_shape Examples.two_days).
  - vm_compute. reflexivity.
  - reflexivity.
Defined.

Lemma getValue_holds (k : Element) :
  holds_value k = true -> getValue k = Ok (first_value k).
Proof.
  unfold holds_value, getValue, first_value. intros H.
  apply andb_true_iff in H. destruct H as [Hd Hv]. apply negb_true_iff in Hd.
  rewrite Hd. destruct (vals k); [discriminate | reflexivity].
Qed.









(** ** The intraday decoder *)

Lemma tick_loop (ks : list Element) (d : dict) :
  forallb holds_value ks = true ->
  for_each ks
    (fun element data =>
       v <- getValue element ;;
       Ok (dict_setdefault (SStr (name element)) (VScalar v) data)) d
  = Ok (fold_left
          (fun d k => dict_setdefault (SStr (name k)) (VScalar (first_value k)) d) ks d).
Proof.
  revert d. induction ks as [| k ks IH]; intros d H; [reflexivity |].
  cbn [forallb] in H. apply andb_true_iff in H. destruct H as [Hk Hks].
  rewrite for_each_cons, (getValue_holds k Hk). cbn [Py.bind fold_left].
  apply IH. exact Hks.
Qed.

Lemma dict_get_In (k : scalar) (v : value) (d : dict) :
  dict_get k d = Some v -> In (k, v) d.
Proof.
  induction d as [| [q w] d IH]; cbn [dict_get]; [discriminate |].
  destruct (scalar_eq_dec k q) as [-> | N]; intros H.
  - inversion H; subst. left. reflexivity.
  - right. apply IH. exact H.
Qed.

Lemma dict_set_values (P : value -> Prop) (k : scalar) (v : value) (d : dict) :
  P v -> Forall (fun kv => P (snd kv)) d ->
  Forall (fun kv => P (snd kv)) (dict_set k v d).
Proof.
  intros Hv. induction 1 as [| [q w] d Hw Hd IH]; cbn [dict_set].
  - repeat constructor. exact Hv.
  - destruct (scalar_eq_dec k q); constructor; auto.
Qed.

Lemma tick_record_scalars (ks : list Element) (k : scalar) (v : value) :
  dict_get k (tick_record ks) = Some v -> exists s, v = VScalar s.
Proof.
  intros H. apply dict_get_In in H.
  assert (G : forall d,
             Forall (fun kv => exists s, snd kv = VScalar s) d ->
             Forall (fun kv => exists s, snd kv = VScalar s)
                    (fold_left
                       (fun d k => dict_setdefault (SStr (name k))
                                     (VScalar (first_value k)) d) ks d)).
  { clear H. induction ks as [| e ks IH]; intros d Hd; [exact Hd |].
    cbn [fold_left]. apply IH. unfold dict_setdefault.
    destruct (dict_mem _ d); [exact Hd |].
    apply (@dict_set_values (fun v => exists s, v = VScalar s));
      [eexists; reflexivity | exact Hd]. }
  specialize (G [] (Forall_nil _)). rewrite Forall_forall in G.
  exact (G (k, v) H).
Qed.

Lemma timed_bar_key (b : Element) :
  timed b = true ->
  getitem (tick_record (kids b)) (SStr "time") = Ok (VScalar (tick_time (kids b))).
Proof.
  unfold timed, getitem, tick_time. rewrite dict_mem_get.
  destruct (dict_get (SStr "time") (tick_record (kids b))) as [v |] eqn:E;
    [| discriminate].
  intros _. destruct (tick_record_scalars _ _ E) as [s ->]. reflexivity.
Qed.


Lemma values_of_array (e : Element) :
  isArray e = true -> composite (datatype e) = true ->
  values e = map IElem (kids e).
Proof. unfold values. intros -> ->. reflexivity. Qed.



Lemma bars_loop_untimed (bs : list Element) (results : dict) :
  Forall valued_bar bs ->
  forallb timed bs = false ->
  for_each (map IElem bs)
    (fun bar_tick_data results =>
       b <- as_element bar_tick_data ;;
       data <-
         for_each (elements b)
           (fun element data =>
              v <- getValue element ;;
              Ok (dict_setdefault (SStr (name element)) (VScalar v) data))
           [] ;;
       time <- getitem data (SStr "time") ;;
       k <- as_key time ;;
       Ok (dict_set k (VDict data) results))
    results
  = Raise KeyError.
Proof.
  revert results. induction bs as [| b bs IH]; intros results Hb Ht; [discriminate |].
  inversion Hb as [| ? ? [Hc Hv] Hrest]; subst.
  cbn [map]. rewrite for_each_cons. cbn [as_element Py.bind].
  unfold elements at 1. rewrite Hc.
  rewrite (tick_loop (kids b) [] Hv). cbn [Py.bind].
  fold (tick_record (kids b)).
  cbn [forallb] in Ht. destruct (timed b) eqn:Htb.
  - rewrite (timed_bar_key b Htb). cbn [Py.bind as_key].
    apply IH; [exact Hrest | exact Ht].
  - unfold timed in Htb. rewrite dict_mem_get in Htb. unfold getitem.
    destruct (dict_get (SStr "time") (tick_record (kids b))); [discriminate | reflexivity].
Qed.

(** X15: a bar without a ['time'] element is fatal.  When the bar-tick
    array holds records of valued elements and one of them has no element
    named ['time'], the intraday decoder raises [KeyError] and returns no
    bar at all. *)
Theorem intraday_bar_without_time (msg : Message) (bar_data ticks : Element) :
  hasElement (asElement msg) RESPONSE_ERROR = false ->
  getElement (asElement msg) BAR_DATA = Ok bar_data ->
  getElement bar_data BAR_TICK_DATA = Ok ticks ->
  isArray ticks = true ->
  composite (datatype ticks) = true ->
  Forall valued_bar (kids ticks) ->
  forallb timed (kids ticks) = false ->
  SessionFactory._process_intraday_data_msg msg = Raise KeyError.
Proof.
  intros He Hbd Ht Harr Hc Hb Htimed.
  unfold SessionFactory._process_intraday_data_msg.
  rewrite He, (getElement_hasElement _ _ Hbd), Hbd. cbn [negb Py.bind].
  rewrite Ht. cbn [Py.bind]. rewrite (values_of_array _ Harr Hc).
  rewrite (@bars_loop_untimed (kids ticks) [] Hb Htimed). reflexivity.
Qed.

Lemma intraday_bar_without_time_witness :
  SessionFactory._process_intraday_data_msg Examples.untimed_bar = Raise KeyError.
Proof.
  refine (@intraday_bar_without_time Examples.untimed_bar _ _
            eq_refl eq_refl eq_refl eq_refl eq_refl _ eq_refl).
  repeat constructor.
Defined.

(** ** The session driver *)

Lemma for_each_app {A S} (xs ys : list A) (body : A -> S -> result S) (s : S) :
  for_each (xs ++ ys) body s = (s' <- for_each xs body s ;; for_each ys body s').
Proof.
  revert s. induction xs as [| x xs IH]; intros s; [reflexivity |].
  rewrite <- app_comm_cons, !for_each_cons.
  destruct (body x s); cbn [Py.bind]; [apply IH | reflexivity].
Qed.

Lemma for_each_filter {A S} (p : A -> bool) (xs : list A) (body : A -> S -> result S)
      (s : S) :
  (forall x s, p x = false -> body x s = Ok s) ->
  for_each xs body s = for_each (filter p xs) body s.
Proof.
  intros H. revert s. induction xs as [| x xs IH]; intros s; [reflexivity |].
  cbn [filter]. destruct (p x) eqn:E.
  - rewrite !for_each_cons. destruct (body x s); cbn [Py.bind]; [apply IH | reflexivity].
  - rewrite for_each_cons, (H x s E). cbn [Py.bind]. apply IH.
Qed.

Lemma process_msg_foreign (self : SessionFactory.t) (msg : Message)
      (st : dict * SessionFactory.history) :
  addressed (SessionFactory.cid self) msg = false ->
  SessionFactory.process_msg self msg st = Ok st.
Proof.
  unfold addressed, SessionFactory.process_msg. intros H.
  destruct st as [output h]. rewrite H. reflexivity.
Qed.

Lemma process_msg_same_request (s1 s2 : SessionFactory.t) (msg : Message)
      (st : dict * SessionFactory.history) :
  SessionFactory.cid s1 = SessionFactory.cid s2 ->
  SessionFactory.request_type s1 = SessionFactory.request_type s2 ->
  SessionFactory.process_msg s1 msg st = SessionFactory.process_msg s2 msg st.
Proof. unfold SessionFactory.process_msg. intros -> ->. reflexivity. Qed.

(** The loop reads the object's correlation identifier and request type
    only. *)
Lemma receive_same_request (s1 s2 : SessionFactory.t) (evs : list Event)
      (st : dict * SessionFactory.history) :
  SessionFactory.cid s1 = SessionFactory.cid s2 ->
  SessionFactory.request_type s1 = SessionFactory.request_type s2 ->
  SessionFactory.receive s1 evs st = SessionFactory.receive s2 evs st.
Proof.
  intros Hc Hr. revert st. induction evs as [| ev evs IH]; intros st; [reflexivity |].
  cbn [SessionFactory.receive].
  rewrite (for_each_ext (messages ev) (SessionFactory.process_msg s1)
             (SessionFactory.process_msg s2))
    by (intros x s; apply process_msg_same_request; assumption).
  destruct (for_each _ _ st) as [st' |]; [| reflexivity].
  destruct (EventType_eq_dec (eventType ev) RESPONSE); [reflexivity | apply IH].
Qed.

Lemma receive_relevant (self : SessionFactory.t) (evs : list Event)
      (st : dict * SessionFactory.history) :
  SessionFactory.receive self evs st
  = SessionFactory.receive self (map (relevant (SessionFactory.cid self)) evs) st.
Proof.
  revert st. induction evs as [| ev evs IH]; intros st; [reflexivity |].
  cbn [map SessionFactory.receive relevant messages eventType].
  rewrite (for_each_filter (addressed (SessionFactory.cid self)) (messages ev)
             (SessionFactory.process_msg self) st)
    by (intros x s; apply process_msg_foreign).
  destruct (for_each _ _ st) as [st' |]; [| reflexivity].
  destruct (EventType_eq_dec (eventType ev) RESPONSE); [reflexivity | apply IH].
Qed.

Lemma receive_stops (self : SessionFactory.t) (before after : list Event) (ev : Event)
      (st : dict * SessionFactory.history) :
  eventType ev = RESPONSE ->
  SessionFactory.receive self (before ++ ev :: after) st
  = SessionFactory.receive self (before ++ [ev]) st.
Proof.
  intros Hev. revert st. induction before as [| b before IH]; intros st.
  - change ([] ++ ev :: after) with (ev :: after). change ([] ++ [ev]) with [ev].
    cbn [SessionFactory.receive].
    destruct (for_each (messages ev) (SessionFactory.process_msg self) st) as [st' |];
      [| reflexivity].
    destruct (EventType_eq_dec (eventType ev) RESPONSE); [reflexivity | contradiction].
  - rewrite <- !app_comm_cons. cbn [SessionFactory.receive].
    destruct (for_each (messages b) (SessionFactory.process_msg self) st) as [st' |];
      [| reflexivity].
    destruct (EventType_eq_dec (eventType b) RESPONSE); [reflexivity | apply IH].
Qed.

Lemma receive_waits (self : SessionFactory.t) (evs : list Event)
      (st : dict * SessionFactory.history) (output : dict) :
  Forall (fun ev => eventType ev <> RESPONSE) evs ->
  SessionFactory.receive self evs st <> Some (Ok output).
Proof.
  intros H. revert st. induction H as [| ev evs Hev Hrest IH]; intros st.
  - discriminate.
  - cbn [SessionFactory.receive].
    destruct (for_each _ _ st) as [st' |]; [| discriminate].
    destruct (EventType_eq_dec (eventType ev) RESPONSE); [contradiction | apply IH].
Qed.

(** X16: messages of other requests leave no trace.  The result of
    [process_session] is the same as on the events stripped of every
    message that does not carry the expected correlation identifier. *)
Theorem foreign_messages_ignored (self : SessionFactory.t) :
  SessionFactory.process_session self
  = SessionFactory.process_session
      (SessionFactory.mkSessionFactory
         (map (relevant (SessionFactory.cid self)) (SessionFactory.session self))
         (SessionFactory.cid self) (SessionFactory.request_type self)).
Proof.
  unfold SessionFactory.process_session. cbn [SessionFactory.session].
  rewrite receive_relevant. apply receive_same_request; reflexivity.
Qed.

(** X17: nothing is read past the terminal event: the events that follow
    a [RESPONSE] event do not change the result. *)
Theorem events_after_response_unread
        (self : SessionFactory.t) (before after : list Event) (ev : Event) :
  eventType ev = RESPONSE ->
  SessionFactory.session self = before ++ ev :: after ->
  SessionFactory.process_session self
  = SessionFactory.process_session
      (SessionFactory.mkSessionFactory (before ++ [ev])
         (SessionFactory.cid self) (SessionFactory.request_type self)).
Proof.
  intros Hev Hs. unfold SessionFactory.process_session. rewrite Hs.
  cbn [SessionFactory.session]. rewrite receive_stops by exact Hev.
  apply receive_same_request; reflexivity.
Qed.

Lemma events_after_response_unread_witness :
  SessionFactory.process_session
    (SessionFactory.mkSessionFactory
       [mkEvent RESPONSE [Samples.first_part]; mkEvent RESPONSE [Samples.second_part]]
       7%Z RequestType.REFERENCE_DATA)
  = SessionFactory.process_session
      (SessionFactory.mkSessionFactory
         ([] ++ [mkEvent RESPONSE [Samples.first_part]]) 7%Z RequestType.REFERENCE_DATA).
Proof.
  apply (@events_after_response_unread
           (SessionFactory.mkSessionFactory
              [mkEvent RESPONSE [Samples.first_part];
               mkEvent RESPONSE [Samples.second_part]]
              7%Z RequestType.REFERENCE_DATA)
           [] [mkEvent RESPONSE [Samples.second_part]]
           (mkEvent RESPONSE [Samples.first_part]));
    reflexivity.
Defined.

(** X18: no output before the terminal event.  While no event of type
    [RESPONSE] has arrived, [process_session] has not returned a result:
    it is still waiting, or it has raised. *)
Theorem no_output_before_response (self : SessionFactory.t) (output : dict) :
  Forall (fun ev => eventType ev <> RESPONSE) (SessionFactory.session self) ->
  SessionFactory.process_session self <> Some (Ok output).
Proof.
  unfold SessionFactory.process_session. apply receive_waits.
Qed.

Lemma no_output_before_response_witness :
  SessionFactory.process_session
    (SessionFactory.mkSessionFactory
       [mkEvent PARTIAL_RESPONSE [Samples.first_part]] 7%Z RequestType.REFERENCE_DATA)
  <> Some (Ok []).
Proof.
  apply (@no_output_before_response
           (SessionFactory.mkSessionFactory
              [mkEvent PARTIAL_RESPONSE [Samples.first_part]]
              7%Z RequestType.REFERENCE_DATA) []).
  repeat constructor. discriminate.
Defined.

Lemma receive_messages (self : SessionFactory.t) (before : list Event) (ev : Event)
      (st : dict * SessionFactory.history) :
  Forall (fun ev => eventType ev <> RESPONSE) before ->
  eventType ev = RESPONSE ->
  SessionFactory.receive self (before ++ [ev]) st
  = Some (delivered
            (for_each (flat_map messages (before ++ [ev]))
                      (SessionFactory.process_msg self) st)).
Proof.
  intros Hb Hev. revert st. induction Hb as [| b before Hne Hb IH]; intros st.
  - change ([] ++ [ev]) with [ev]. cbn [SessionFactory.receive].
    change (flat_map messages [ev]) with (messages ev ++ []). rewrite app_nil_r.
    destruct (for_each (messages ev) (SessionFactory.process_msg self) st) as [st' |];
      [| reflexivity].
    destruct (EventType_eq_dec (eventType ev) RESPONSE); [reflexivity | contradiction].
  - rewrite <- app_comm_cons. cbn [SessionFactory.receive].
    change (flat_map messages (b :: before ++ [ev]))
      with (messages b ++ flat_map messages (before ++ [ev])).
    rewrite for_each_app.
    destruct (for_each (messages b) (SessionFactory.process_msg self) st) as [st' |];
      [| reflexivity].
    destruct (EventType_eq_dec (eventType b) RESPONSE); [contradiction |].
    cbn [Py.bind]. apply IH.
Qed.

(** X19: how the messages are grouped into events does not matter.  When
    the stream is a run of events that are not terminal followed by a
    [RESPONSE] event, [process_session] returns what folding the loop
    body over all their messages, in order, leaves as output. *)
Theorem grouping_into_events_irrelevant
        (self : SessionFactory.t) (before : list Event) (ev : Event) :
  Forall (fun ev => eventType ev <> RESPONSE) before ->
  eventType ev = RESPONSE ->
  SessionFactory.session self = before ++ [ev] ->
  SessionFactory.process_session self
  = Some (delivered
            (for_each (flat_map messages (SessionFactory.session self))
                      (SessionFactory.process_msg self) ([], []))).
Proof.
  intros Hb Hev Hs. unfold SessionFactory.process_session. rewrite Hs.
  apply receive_messages; assumption.
Qed.

Lemma grouping_into_events_irrelevant_witness :
  SessionFactory.process_session Samples.answered_in_full
  = Some (delivered
            (for_each [Samples.first_part; Samples.second_part]
                      (SessionFactory.process_msg Samples.answered_in_full) ([], []))).
Proof.
  apply (@grouping_into_events_irrelevant Samples.answered_in_full
           [mkEvent PARTIAL_RESPONSE [Samples.first_part]]
           (mkEvent RESPONSE [Samples.second_part])).
  - repeat constructor. discriminate.
  - reflexivity.
  - reflexivity.
Defined.

Lemma history_get_single (security : option string) (l : list string) :
  SessionFactory.history_get security [(security, l)] = Some l.
Proof.
  cbn [SessionFactory.history_get].
  destruct (SessionFactory.option_string_eq_dec security security); congruence.
Qed.

Lemma history_set_single (security : option string) (l l' : list string) :
  SessionFactory.history_set security l' [(security, l)] = [(security, l')].
Proof.
  cbn [SessionFactory.history_set].
  destruct (SessionFactory.option_string_eq_dec security security); congruence.
Qed.

(** One more fragment of the key the output was built for, of a message
    type already received for it. *)
Lemma later_fragment_of_key (self : SessionFactory.t) (msg : Message)
      (process : Message -> result SessionFactory.decoded)
      (security : option string) (acc fragment : dict) (l : list string) :
  addressed (SessionFactory.cid self) msg = true ->
  SessionFactory.msg_processes (SessionFactory.request_type self) = Some process ->
  process msg = Ok (security, fragment) ->
  In (messageType msg) l ->
  SessionFactory.process_msg self msg (output_for security acc, [(security, l)])
  = Ok (output_for security (dict_update acc fragment),
        [(security, l ++ [messageType msg])]).
Proof.
  intros Hc Hp Hd Hin.
  refine (eq_trans (@process_msg_decoded self msg process security fragment
                      (output_for security acc) [(security, l)] Hc Hp Hd) _).
  unfold seen. rewrite history_get_single, history_set_single.
  apply (count_occ_In string_dec) in Hin.
  destruct (Nat.ltb_spec 0 (count_occ string_dec l (messageType msg))); [| lia].
  cbv zeta. unfold output_for.
  destruct (SessionFactory.truthy_security security) as [s |]; [| reflexivity].
  unfold getitem. cbn [dict_get dict_set].
  destruct (scalar_eq_dec (SStr s) (SStr s)); [| congruence]. reflexivity.
Qed.

Lemma later_fragments_of_key (self : SessionFactory.t)
      (process : Message -> result SessionFactory.decoded)
      (security : option string) (t : string) (msgs : list Message) :
  SessionFactory.msg_processes (SessionFactory.request_type self) = Some process ->
  forall (frags : list dict) (acc : dict) (l : list string),
    Forall (fun m => addressed (SessionFactory.cid self) m = true /\ messageType m = t)
           msgs ->
    all_ok process msgs = Ok (map (pair security) frags) ->
    In t l ->
    exists h,
      for_each msgs (SessionFactory.process_msg self)
               (output_for security acc, [(security, l)])
      = Ok (output_for security (fold_left dict_update frags acc), h).
Proof.
  intros Hp. induction msgs as [| m msgs IH]; intros frags acc l Hm Hall Hin.
  - cbn [all_ok] in Hall. destruct frags; [| discriminate].
    eexists. reflexivity.
  - inversion Hm as [| ? ? [Hc Ht] Hrest]; subst.
    cbn [all_ok] in Hall. destruct (process m) as [[sec f] |] eqn:E; [| discriminate].
    destruct (all_ok process msgs) as [rs |] eqn:Eall; [| discriminate].
    destruct frags as [| f' frags]; [discriminate |].
    cbn [map] in Hall. inversion Hall; subst sec f' rs.
    rewrite for_each_cons.
    pose proof (@later_fragment_of_key self m process security acc f l Hc Hp E Hin)
      as Hstep.
    rewrite Hstep. clear Hstep.
    cbn [Py.bind fold_left].
    apply (IH frags (dict_update acc f) (l ++ [messageType m]) Hrest eq_refl).
    apply in_or_app. left. exact Hin.
Qed.

(** X20: the fragments of one key are merged in order.  When every
    message carries the correlation identifier, has the same message type
    and is decoded to a fragment of the same key (one security, or
    [None]), the loop body folded over the messages leaves the first
    fragment updated with each later one, in order: under the security's
    key, or as the whole output for the key [None]. *)
Theorem fragments_of_one_key_merged
        (self : SessionFactory.t) (process : Message -> result SessionFactory.decoded)
        (security : option string) (t : string) (msgs : list Message)
        (f0 : dict) (frags : list dict) :
  SessionFactory.msg_processes (SessionFactory.request_type self) = Some process ->
  Forall (fun m => addressed (SessionFactory.cid self) m = true /\ messageType m = t)
         msgs ->
  all_ok process msgs = Ok (map (pair security) (f0 :: frags)) ->
  exists h,
    for_each msgs (SessionFactory.process_msg self) ([], [])
    = Ok (output_for security (merged f0 frags), h).
Proof.
  intros Hp Hm Hall.
  destruct msgs as [| m msgs]; [discriminate |].
  inversion Hm as [| ? ? [Hc Ht] Hrest]; subst.
  cbn [all_ok] in Hall. destruct (process m) as [[sec f] |] eqn:E; [| discriminate].
  destruct (all_ok process msgs) as [rs |] eqn:Eall; [| discriminate].
  cbn [map] in Hall. inversion Hall; subst sec f rs.
  rewrite for_each_cons.
  pose proof (@process_msg_decoded self m process security f0 [] [] Hc Hp E) as Hstep.
  cbv zeta in Hstep.
  match type of Hstep with
  | ?lhs = _ =>
      match goal with
      | |- context [SessionFactory.process_msg self m ?s] =>
          change (SessionFactory.process_msg self m s) with lhs
      end
  end.
  destruct (@later_fragments_of_key self process security (messageType m) msgs Hp
              frags f0 [messageType m] Hrest Eall (or_introl eq_refl)) as [h Hh].
  exists h. rewrite Hstep. clear Hstep.
  unfold seen, output_for in *.
  cbn [SessionFactory.history_get SessionFactory.history_set app count_occ
       Nat.ltb Nat.leb].
  destruct (SessionFactory.truthy_security security); cbn [Py.bind dict_set]; exact Hh.
Qed.

Lemma fragments_of_one_key_merged_witness :
  exists h,
    for_each [Examples.name_part; Examples.name_part]
      (SessionFactory.process_msg
         (SessionFactory.mkSessionFactory [] 7%Z RequestType.REFERENCE_DATA))
      ([], [])
    = Ok (output_for (Some "IBM US Equity")
            (merged
               [(SStr "security_data", VDict [(SStr "NAME", VStr "IBM")]);
                (SStr "field_exceptions", VDict []);
                (SStr "security_errors", VDict [])]
               [[(SStr "security_data", VDict [(SStr "NAME", VStr "IBM")]);
                 (SStr "field_exceptions", VDict []);
                 (SStr "security_errors", VDict [])]]), h).
Proof.
  apply (@fragments_of_one_key_merged
           (SessionFactory.mkSessionFactory [] 7%Z RequestType.REFERENCE_DATA)
           SessionFactory._process_ref_data_msg (Some "IBM US Equity")
           "ReferenceDataResponse").
  - reflexivity.
  - repeat constructor.
  - vm_compute. reflexivity.
Defined.

(** ** The requests: validation, connection, what is sent, how they end *)

Lemma stopped_on_exit_of (m : prog value) (w : world) :
  stops_on_exit m -> stopped_on_exit (m w []).
Proof.
  intros H. specialize (H w []). unfold stopped_on_exit.
  destruct (m w []) as [tr [v | e |]]; change (stops []) with 0 in H; lia.
Qed.

(** X21: neither request calls [session.stop()] twice.  Whatever the
    arguments and however the provider behaves, a call of
    [HistoricalDataRequest.get] or [ReferenceDataRequest.get] that returns
    has stopped the session exactly once, one that raises has stopped it
    at most once, and one that still waits for events has not stopped it. *)
Theorem requests_stop_at_most_once
        (tickers fields start_date end_date periodicity max_data_points
         fill_option fill_method tickers' fields' overrides : value) (w : world) :
  stopped_on_exit
    (HistoricalDataRequest.get tickers fields start_date end_date periodicity
       max_data_points fill_option fill_method w [])
  /\ stopped_on_exit (ReferenceDataRequest.get tickers' fields' overrides w []).
Proof.
  split; apply stopped_on_exit_of.
  - apply historical_get_stops_on_exit.
  - apply reference_get_stops_on_exit.
Qed.

Lemma historical_validate_checks
      (tickers fields start_date end_date periodicity max_data_points
       fill_option fill_method : value) :
  HistoricalDataRequest.validate tickers fields start_date end_date periodicity
    max_data_points fill_option fill_method
  = if forallb id (historical_checks tickers fields start_date end_date periodicity
                     max_data_points fill_option fill_method)
    then Ok tt else Raise AssertionError.
Proof.
  unfold HistoricalDataRequest.validate, historical_checks, assert, isinstance.
  cbn [forallb Py.bind id].
  destruct (instance_of tickers c_list); [| reflexivity].
  destruct (instance_of fields c_list); [| reflexivity].
  destruct (in_strings periodicity _); [| reflexivity].
  destruct (instance_of start_date c_datetime); [| reflexivity].
  destruct (instance_of end_date c_datetime); [| reflexivity].
  destruct (instance_of max_data_points c_int); [| reflexivity].
  destruct (in_strings fill_option _); [| reflexivity].
  destruct (in_strings fill_method _); reflexivity.
Qed.

Lemma datetime_instance (v : value) :
  instance_of v c_datetime = true -> exists t, v = VScalar (STemporal t).
Proof.
  destruct v as [[| | | | | | t] | | |]; try discriminate.
  intros _. exists t. reflexivity.
Qed.

(** X22: invalid arguments reach no provider.  When one of the eight
    argument checks of [HistoricalDataRequest.get] fails (for instance a
    start date that is a [date] and not a [datetime]), the call raises
    [AssertionError] without having made any call on the session. *)
Theorem invalid_arguments_make_no_call
        (tickers fields start_date end_date periodicity max_data_points
         fill_option fill_method : value) (w : world) (tr : list call) :
  forallb id (historical_checks tickers fields start_date end_date periodicity
                max_data_points fill_option fill_method) = false ->
  HistoricalDataRequest.get tickers fields start_date end_date periodicity
    max_data_points fill_option fill_method w tr
  = (tr, Raised AssertionError).
Proof.
  intros H. unfold HistoricalDataRequest.get.
  apply seq_raised. unfold lift.
  rewrite historical_validate_checks, H. reflexivity.
Qed.

Lemma invalid_arguments_make_no_call_witness :
  HistoricalDataRequest.get (VList [VStr "IBM US Equity"]) (VList [VStr "PX_LAST"])
    Examples.new_year_day Samples.new_year (VStr "DAILY") (VInt 2500)
    (VStr "ACTIVE_DAYS_ONLY") (VStr "NIL_VALUE") Examples.reachable []
  = ([], Raised AssertionError).
Proof.
  apply (@invalid_arguments_make_no_call
           (VList [VStr "IBM US Equity"]) (VList [VStr "PX_LAST"])
           Examples.new_year_day Samples.new_year (VStr "DAILY") (VInt 2500)
           (VStr "ACTIVE_DAYS_ONLY") (VStr "NIL_VALUE") Examples.reachable []).
  reflexivity.
Defined.

(** X23: a failed connection.  With valid arguments, when
    [session.start()] returns [False] the historical request raises
    [ConnectionFailed] having called nothing but [start]: no service is
    opened, nothing is sent, and [stop] is not called. *)
Theorem connection_failure_calls_only_start
        (tickers fields start_date end_date periodicity max_data_points
         fill_option fill_method : value) (w : world) (tr : list call) :
  forallb id (historical_checks tickers fields start_date end_date periodicity
                max_data_points fill_option fill_method) = true ->
  failure w tr start = None ->
  start_result w = false ->
  HistoricalDataRequest.get tickers fields start_date end_date periodicity
    max_data_points fill_option fill_method w tr
  = (tr ++ [start], Raised ConnectionFailed).
Proof.
  intros Hv Hf Hs.
  pose proof (historical_validate_checks tickers fields start_date end_date periodicity
                max_data_points fill_option fill_method) as Hval.
  rewrite Hv in Hval.
  assert (Hsd : exists t, start_date = VScalar (STemporal t)).
  { apply datetime_instance. unfold historical_checks in Hv. cbn [forallb id] in Hv.
    repeat (apply andb_prop in Hv; destruct Hv as [? Hv]). assumption. }
  assert (Hed : exists t, end_date = VScalar (STemporal t)).
  { apply datetime_instance. unfold historical_checks in Hv. cbn [forallb id] in Hv.
    repeat (apply andb_prop in Hv; destruct Hv as [? Hv]). assumption. }
  destruct Hsd as [s ->]. destruct Hed as [e ->].
  unfold HistoricalDataRequest.get.
  rewrite (seq_returned (tr' := tr) (a := tt) _) by (unfold lift; rewrite Hval; reflexivity).
  rewrite (seq_returned (tr' := tr) (a := VStr (fmt_compact_date s)) _) by reflexivity.
  rewrite (seq_returned (tr' := tr) (a := VStr (fmt_compact_date e)) _) by reflexivity.
  apply seq_raised. unfold Session.start.
  rewrite (seq_returned (tr' := tr ++ [start]) (a := tt) _)
    by (unfold invoke; rewrite Hf; reflexivity).
  unfold Provider.seq, ask, raise. rewrite Hs. reflexivity.
Qed.

Lemma connection_failure_calls_only_start_witness :
  HistoricalDataRequest.get (VList [VStr "IBM US Equity"]) (VList [VStr "PX_LAST"])
    Samples.new_year Samples.new_year (VStr "DAILY") (VInt 2500)
    (VStr "ACTIVE_DAYS_ONLY") (VStr "NIL_VALUE") Examples.unreachable []
  = ([start], Raised ConnectionFailed).
Proof.
  apply (@connection_failure_calls_only_start
           (VList [VStr "IBM US Equity"]) (VList [VStr "PX_LAST"])
           Samples.new_year Samples.new_year (VStr "DAILY") (VInt 2500)
           (VStr "ACTIVE_DAYS_ONLY") (VStr "NIL_VALUE") Examples.unreachable []);
    reflexivity.
Defined.

Lemma finally_answered (w : world) (rt : string) (tr : list call) :
  quiet w ->
  try_finally (run_process_session (reply w) rt) (invoke stop) w tr = answered w rt tr.
Proof.
  intros Hq. unfold try_finally, run_process_session, invoke, answered.
  destruct (SessionFactory.process_session _) as [[output | e] |];
    rewrite ?Hq; reflexivity.
Qed.

(** X24: the historical request from end to end.  Against a provider none
    of whose calls raises and whose session starts, a historical request
    with valid arguments opens the service, appends the tickers and the
    fields in order, sets the seven options with both dates rendered as
    [YYYYMMDD], sends the request, and then ends as the event loop does:
    it returns the decoded output or raises the loop's error after one
    [stop], or it is still waiting, with no [stop], when no final
    response has arrived.  Both dates are taken within Python's field
    ranges with a year of four digits. *)
Theorem historical_get_end_to_end
        (w : world) (tickers fields : list value) (s e : temporal)
        (periodicity max_data_points fill_option fill_method : value) :
  quiet w ->
  start_result w = true ->
  forallb id (historical_checks (VList tickers) (VList fields) (VScalar (STemporal s))
                (VScalar (STemporal e)) periodicity max_data_points fill_option
                fill_method) = true ->
  calendar s ->
  calendar e ->
  HistoricalDataRequest.get (VList tickers) (VList fields) (VScalar (STemporal s))
    (VScalar (STemporal e)) periodicity max_data_points fill_option fill_method w []
  = answered w RequestType.HISTORICAL_DATA
      (historical_request_calls tickers fields s e periodicity max_data_points
         fill_option fill_method).
Proof.
  intros Hq Hs Hv _ _.
  pose proof (historical_validate_checks (VList tickers) (VList fields)
                (VScalar (STemporal s)) (VScalar (STemporal e)) periodicity
                max_data_points fill_option fill_method) as Hval.
  rewrite Hv in Hval.
  unfold HistoricalDataRequest.get.
  rewrite (seq_returned (tr' := []) (a := tt) _) by (unfold lift; rewrite Hval; reflexivity).
  rewrite (seq_returned (tr' := []) (a := VStr (fmt_compact_date s)) _) by reflexivity.
  rewrite (seq_returned (tr' := []) (a := VStr (fmt_compact_date e)) _) by reflexivity.
  rewrite (seq_returned _ (@start_quiet w Hq _ _ Hs)).
  rewrite (seq_returned _ (@create_quiet w Hq _ _)).
  unfold iterable at 1.
  rewrite (seq_returned (m := lift (Ok tickers)) (a := tickers) _ (eq_refl)).
  rewrite (seq_returned _ (@each_invoke_quiet w Hq _ _ _ _)).
  unfold iterable.
  rewrite (seq_returned (m := lift (Ok fields)) (a := fields) _ (eq_refl)).
  rewrite (seq_returned _ (@each_invoke_quiet w Hq _ _ _ _)).
  do 8 rewrite (seq_returned _ (@invoke_quiet w Hq _ _)).
  rewrite (seq_returned (m := ask reply) (a := reply w) _ (eq_refl)).
  rewrite (@finally_answered w _ _ Hq).
  f_equal. unfold historical_request_calls, opening_calls.
  cbn [Request.__init__ Request.service_name Request.request_type app].
  repeat rewrite <- app_assoc. reflexivity.
Qed.

Lemma historical_get_end_to_end_witness :
  HistoricalDataRequest.get (VList [VStr "IBM US Equity"]) (VList [VStr "PX_LAST"])
    Samples.new_year Samples.new_year (VStr "DAILY") (VInt 2500)
    (VStr "ACTIVE_DAYS_ONLY") (VStr "NIL_VALUE") Examples.reachable []
  = answered Examples.reachable RequestType.HISTORICAL_DATA
      (historical_request_calls [VStr "IBM US Equity"] [VStr "PX_LAST"]
         (a_datetime 2023 1 1 0 0 0 0) (a_datetime 2023 1 1 0 0 0 0)
         (VStr "DAILY") (VInt 2500) (VStr "ACTIVE_DAYS_ONLY") (VStr "NIL_VALUE")).
Proof.
  apply (@historical_get_end_to_end Examples.reachable
           [VStr "IBM US Equity"] [VStr "PX_LAST"]
           (a_datetime 2023 1 1 0 0 0 0) (a_datetime 2023 1 1 0 0 0 0)
           (VStr "DAILY") (VInt 2500) (VStr "ACTIVE_DAYS_ONLY") (VStr "NIL_VALUE")).
  - intros tr c. reflexivity.
  - reflexivity.
  - reflexivity.
  - unfold calendar, MAXYEAR.
    cbn [year_of month_of day_of hour_of minute_of second_of]. lia.
  - unfold calendar, MAXYEAR.
    cbn [year_of month_of day_of hour_of minute_of second_of]. lia.
Defined.

(** X25: the reference request from end to end.  Against a provider none
    of whose calls raises and whose session starts, a reference request
    whose overrides name no ['CURVE_DATE'] opens the service, appends the
    tickers and the fields in order, adds one override element per entry
    (its value [None]), sends the request, and then ends as the event
    loop does: output or error after one [stop], or still waiting with no
    [stop]. *)
Theorem reference_get_end_to_end
        (w : world) (tickers fields : list value) (d : dict) :
  quiet w ->
  start_result w = true ->
  (forall k v, In (k, v) d -> k <> SStr "CURVE_DATE") ->
  ReferenceDataRequest.get (VList tickers) (VList fields) (VDict d) w []
  = answered w RequestType.REFERENCE_DATA
      (opening_calls RequestType.REFERENCE_DATA
         ++ map (append "securities") tickers ++ map (append "fields") fields
         ++ flat_map override_calls d ++ [sendRequest]).
Proof.
  intros Hq Hs Hk.
  rewrite (@reference_get_quiet w Hq tickers fields d Hs Hk).
  apply finally_answered. exact Hq.
Qed.

Lemma reference_get_end_to_end_witness :
  ReferenceDataRequest.get (VList [VStr "IBM US Equity"]) (VList [VStr "PX_LAST"])
    (VDict [(SStr "EQY_FUND_CRNCY", VStr "USD")]) Samples.silent []
  = answered Samples.silent RequestType.REFERENCE_DATA
      (opening_calls RequestType.REFERENCE_DATA
         ++ map (append "securities") [VStr "IBM US Equity"]
         ++ map (append "fields") [VStr "PX_LAST"]
         ++ flat_map override_calls [(SStr "EQY_FUND_CRNCY", VStr "USD")]
         ++ [sendRequest]).
Proof.
  apply (@reference_get_end_to_end Samples.silent
           [VStr "IBM US Equity"] [VStr "PX_LAST"]
           [(SStr "EQY_FUND_CRNCY", VStr "USD")]).
  - intros tr c. reflexivity.
  - reflexivity.
  - intros k v [E | []]. inversion E. discriminate.
Defined.
